(** * dso-structured-data-anonymizer: a shallow embedding of [main.py]

    The program rewrites sensitive fields of JSON, CSV and XML documents
    following a per-field rule set.  This file embeds the three adapters
    ([anonymize_json], [anonymize_csv], [anonymize_xml]), the helper
    [find_parent] and the driver [main], and states the properties of the
    specification as theorems over the embedding.

    Modelling choices:
    - Python exceptions, the [logging] calls and the stateful [Faker]
      instance are threaded through a small state-and-error monad [M];
    - a Python [dict] whose iteration order matters (a JSON object, the
      configuration) is an association list; the iterator's size check is
      written out;
    - the [re] module, the [Faker] provider and ElementTree's [findall] are
      libraries, not code of the repository: they are parameters of the
      development, instantiated by small executable models for the examples;
    - what the files and the interpreter answer is part of the input of a
      run: the lines the CSV reader delivers or the exception reading them
      raises, the rows the CSV writer refuses, whether an output file opens
      and whether writing it completes, and the number of nested calls the
      recursion limit leaves room for;
    - the rule set is the JSON value the adapters are written for: an
      object whose values are objects with string fields;
    - an ElementTree document is a store of elements addressed by reference,
      so that object identity ([child is element]) and detached elements are
      the ones of the program. *)

From Stdlib Require Import ZArith Ascii Floats.SpecFloat.
From stdpp Require Import base option list gmap strings fin_maps.

Open Scope string_scope.

(** ** Exceptions, log records, results *)

(** The exception classes that the program raises or handles by name. *)
Inductive exn : Type :=
  | RuntimeError (msg : string)
  | TypeError (msg : string)
  | KeyError (msg : string)
  | ValueError (msg : string)
  | FileNotFoundError (msg : string)
  | ParseError (msg : string)        (* xml.etree.ElementTree.ParseError *)
  | JSONDecodeError (msg : string)
  | RecursionError (msg : string)
  | OverflowError (msg : string)
  | SyntaxError (msg : string)
  | UnicodeError (msg : string)      (* UnicodeDecodeError, UnicodeEncodeError *)
  | OtherError (msg : string)        (* any other subclass of Exception *)
  | SystemExit (code : nat).         (* raised by exit(code); not an Exception *)

(** [str(e)] as used by the f-strings of the handlers. *)
Definition exn_str (e : exn) : string :=
  match e with
  | RuntimeError m | TypeError m | KeyError m | ValueError m
  | FileNotFoundError m | ParseError m | JSONDecodeError m
  | RecursionError m | OverflowError m | SyntaxError m | UnicodeError m
  | OtherError m => m
  | SystemExit _ => ""
  end.

(** [except Exception] catches everything the program can raise except
    [SystemExit], which derives from [BaseException] only. *)
Definition is_exception (e : exn) : bool :=
  match e with
  | SystemExit _ => false
  | _ => true
  end.

Inductive level : Type := INFO | WARNING | ERROR.

Definition log_record : Type := level * string.

Inductive result (A : Type) : Type :=
  | Ok (a : A)
  | Raise (e : exn).
Arguments Ok {A} a.
Arguments Raise {A} e.

(** Outcome of [re.sub(pattern, repl, string)]: the new string, the
    message of the [re.error] it raised, or another exception it raised
    (as [OverflowError] for a repetition count beyond the limit of the
    engine), which no handler of the adapters names. *)
Inductive re_result : Type :=
  | ReOk (s : string)
  | ReError (msg : string)
  | ReRaise (e : exn).

(** The five categories of synthetic values the program asks [Faker] for. *)
Inductive category : Type :=
  | FakeName | FakeEmail | FakeAddress | FakePhoneNumber | FakeDate.

(** ** Rules and configuration *)

(** One entry of the configuration: the JSON object
    [{"action": .., "placeholder": .., "regex": ..}], every key optional. *)
Record rule : Type := Rule {
  r_action : option string;
  r_placeholder : option string;
  r_regex : option string
}.

(** [config[key].get("action", "replace")] *)
Definition get_action (r : rule) : string := default "replace" (r_action r).

(** [config[key].get("placeholder", "")] *)
Definition get_placeholder (r : rule) : string := default "" (r_placeholder r).

(** [regex = config[key].get("regex")] followed by [if regex:]: the branch
    is taken when the value is a non-empty string. *)
Definition get_regex (r : rule) : option string :=
  match r_regex r with
  | Some s => if String.eqb s "" then None else Some s
  | None => None
  end.

(** A Python [dict] with string keys, in insertion order. *)
Definition dict (V : Type) : Type := list (string * V).

(** [d.get(key)] / [key in d] *)
Fixpoint dict_get {V : Type} (key : string) (d : dict V) : option V :=
  match d with
  | [] => None
  | (k, v) :: d' => if String.eqb k key then Some v else dict_get key d'
  end.

(** [d[key] = v]: an existing key keeps its position, a new one is appended. *)
Fixpoint dict_set {V : Type} (key : string) (v : V) (d : dict V) : dict V :=
  match d with
  | [] => [(key, v)]
  | (k, x) :: d' =>
      if String.eqb k key then (k, v) :: d' else (k, x) :: dict_set key v d'
  end.

(** [del d[key]] (the program only deletes keys it is iterating over). *)
Fixpoint dict_del {V : Type} (key : string) (d : dict V) : dict V :=
  match d with
  | [] => []
  | (k, x) :: d' => if String.eqb k key then d' else (k, x) :: dict_del key d'
  end.

Definition config : Type := dict rule.

(** ** JSON values, as [json.load] builds them *)

Unset Elimination Schemes.
Inductive json : Type :=
  | JNone                              (* null *)
  | JBool (b : bool)
  | JInt (n : Z)
  | JFloat (f : spec_float)
  | JStr (s : string)
  | JList (items : list json)
  | JDict (d : list (string * json)).
Set Elimination Schemes.

Definition is_container (v : json) : bool :=
  match v with
  | JList _ | JDict _ => true
  | _ => false
  end.

(** ** CSV rows *)

(** A cell of a row dict: a string, or [None] (the [restval] that
    [csv.DictReader] stores for a column the row does not reach). *)
Abbreviation cell := (option string).

(** What [csv.writer] writes for a cell: [None] becomes the empty string. *)
Definition cell_str (c : cell) : string := default "" c.

(** [csv.DictWriter._dict_to_list]: the cells [rowdict.get(key, "")] in
    the order of [fieldnames], as the writer prints them. *)
Definition dict_to_list (fieldnames : list string) (rowdict : gmap string cell)
    : list string :=
  map (λ key, cell_str (default (Some "") (rowdict !! key))) fieldnames.

(** ** ElementTree documents *)

(** Elements are Python objects: the store maps a reference to the state of
    the element it denotes, and a child list holds references. *)
Definition elem_ref : Type := nat.

Record node : Type := Node {
  tag : string;
  attrib : list (string * string);
  text : option string;
  tail : option string;
  children : list elem_ref
}.

(** ** Files written by the program *)

(** [PartialFile]: the file was opened for writing, which empties it, and
    the write did not complete: it holds some beginning of a document. *)
Inductive file_content : Type :=
  | JsonFile (doc : json)
  | CsvFile (rows : list (list string))
  | XmlFile (store : gmap nat node) (root : elem_ref)
  | PartialFile.

(** What happens when a whole document is written to the output file
    ([tree.write], or [open] followed by [json.dump]): the write completes,
    [open] raises and the file is left as it was, or the file is opened and
    an exception is raised before the document is complete. *)
Inductive write_outcome : Type :=
  | Written
  | OpenFails (e : exn)
  | WriteFails (e : exn).

(** ** The state-and-error monad *)

Section Anonymizer.

(** The [Faker] instance: a generator state and one draw per category. *)
Context {faker_state : Type}.
Context (fake_gen : category → faker_state → string * faker_state).

(** [re.sub]. *)
Context (re_sub : string → string → string → re_result).

(** What a run can observe and change besides the document in memory: the
    state of the module-level [fake] object, the records sent to [logging]
    and the content of the output file ([None]: not created). *)
Record world : Type := World {
  w_faker : faker_state;
  w_log : list log_record;
  w_output : option file_content
}.

Definition M (A : Type) : Type := world → result A * world.

Definition ret {A : Type} (a : A) : M A := λ w, (Ok a, w).

Definition bind {A B : Type} (m : M A) (k : A → M B) : M B :=
  λ w, match m w with
       | (Ok a, w') => k a w'
       | (Raise e, w') => (Raise e, w')
       end.

Definition raise {A : Type} (e : exn) : M A := λ w, (Raise e, w).

(** [try: m  except Exception as e: h(e)] *)
Definition try_except {A : Type} (m : M A) (h : exn → M A) : M A :=
  λ w, match m w with
       | (Ok a, w') => (Ok a, w')
       | (Raise e, w') => if is_exception e then h e w' else (Raise e, w')
       end.

Definition logging (l : level) (msg : string) : M unit :=
  λ w, (Ok tt, World (w_faker w) (w_log w ++ [(l, msg)]) (w_output w)).

Definition fake (c : category) : M string :=
  λ w, let '(s, f') := fake_gen c (w_faker w) in
       (Ok s, World f' (w_log w) (w_output w)).

(** The output file is (re)created with content [c]. *)
Definition write_file (c : file_content) : M unit :=
  λ w, (Ok tt, World (w_faker w) (w_log w) (Some c)).

Notation "x <- m ;; k" := (bind m (λ x, k))
  (at level 100, m at next level, right associativity).
Notation "m ;;; k" := (bind m (λ _, k))
  (at level 100, right associativity).

(** [[f(item) for item in items]], evaluated left to right. *)
Section Comprehension.
Context {A B : Type} (f : A → M B).
Fixpoint list_comp (items : list A) : M (list B) :=
  match items with
  | [] => ret []
  | x :: rest =>
      y <- f x ;;
      ys <- list_comp rest ;;
      ret (y :: ys)
  end.
End Comprehension.

(** ** The JSON adapter *)

(** The branch [elif action == "replace"] of the JSON adapter: the new
    value of the field. *)
Definition json_replacement (placeholder : string) : M json :=
  if String.eqb placeholder "fake.name" then s <- fake FakeName ;; ret (JStr s)
  else if String.eqb placeholder "fake.email" then s <- fake FakeEmail ;; ret (JStr s)
  else if String.eqb placeholder "fake.address" then s <- fake FakeAddress ;; ret (JStr s)
  else if String.eqb placeholder "fake.phone_number" then
    s <- fake FakePhoneNumber ;; ret (JStr s)
  else if String.eqb placeholder "fake.date" then s <- fake FakeDate ;; ret (JStr s)
  else if String.eqb placeholder "null" then ret JNone
  else ret (JStr placeholder).

(** The body of [for key, value in data.items()] for a key that has a rule:
    [data] is the dict being mutated. *)
Definition json_rule (key : string) (r : rule) (value : json)
    (data : dict json) : M (dict json) :=
  let action := get_action r in
  let placeholder := get_placeholder r in
  match get_regex r with
  | Some regex =>
      match value with
      | JStr s =>
          match re_sub regex placeholder s with
          | ReOk s' => ret (dict_set key (JStr s') data)
          | ReError e =>
              logging ERROR ("Invalid regex for field " +:+ key +:+ ": " +:+ e) ;;;
              ret data
          | ReRaise e => raise e
          end
      | _ =>
          logging WARNING
            ("Field " +:+ key +:+ " with regex requires a string value, skipping.") ;;;
          ret data
      end
  | None =>
      if String.eqb action "replace" then
        v <- json_replacement placeholder ;;
        ret (dict_set key v data)
      else if String.eqb action "remove" then
        ret (dict_del key data)
      else
        logging WARNING
          ("Unknown action '" +:+ action +:+ "' for field '" +:+ key +:+ "'. Skipping.") ;;;
        ret data
  end.

(** The whole loop body; [self] is the recursive call
    [anonymize_json(·, config)], made from the frame of the object. *)
Definition json_field (cfg : config) (self : json → M json)
    (key : string) (value : json) (data : dict json) : M (dict json) :=
  match dict_get key cfg with
  | Some r => json_rule key r value data
  | None =>
      match value with
      | JDict _ =>
          v <- self value ;;
          ret (dict_set key v data)
      | JList items =>
          vs <- list_comp self items ;;
          ret (dict_set key (JList vs) data)
      | _ => ret data
      end
  end.

(** [for key, value in data.items(): body].  The items view iterates over
    the entries of the dict as they were when the loop started ([items]);
    before producing an entry, and before stopping, the iterator compares
    the size of the dict with the size it had at the start ([used]) and
    raises [RuntimeError] when they differ.  Assigning to an existing key
    keeps the size and the position of the entry; the body never assigns to
    a key it has not reached yet, so the values the iterator hands out are
    those of [items]. *)
Section DictLoop.
Context (body : string → json → dict json → M (dict json)).
Context (used : nat).
Fixpoint for_items (items : list (string * json)) (data : dict json)
    : M (dict json) :=
  if negb (length data =? used)%nat then
    raise (RuntimeError "dictionary changed size during iteration")
  else
    match items with
    | [] => ret data
    | (key, value) :: rest =>
        data' <- body key value data ;;
        for_items rest data'
    end.
End DictLoop.

(** [depth] is the room that the recursion limit of the interpreter
    leaves, counted in nested calls of [anonymize_json], a call being taken
    together with the frame of the comprehension it may be made from: the
    call that finds no room raises [RecursionError], which nothing in the
    function catches. *)
Fixpoint anonymize_json (depth : nat) (cfg : config) (data : json) : M json :=
  match depth with
  | O => raise (RecursionError "maximum recursion depth exceeded")
  | S depth' =>
      match data with
      | JList items =>
          vs <- list_comp (anonymize_json depth' cfg) items ;;
          ret (JList vs)
      | JDict d =>
          d' <- for_items (json_field cfg (anonymize_json depth' cfg))
                  (length d) d d ;;
          ret (JDict d')
      | _ => ret data
      end
  end.

(** ** The CSV adapter *)

(** The dict built by [csv.DictReader.__next__] for a non-blank row:
    [dict(zip(fieldnames, row))], then [restval] ([None]) for the columns
    the row is too short for.  Cells beyond the header go under the key
    [restkey] ([None]), which is not a field name and is never read. *)
Definition dict_reader_row (fieldnames : list string) (row : list string)
    : gmap string cell :=
  let d := foldl (λ d kv, <[kv.1 := Some kv.2]> d) ∅ (zip fieldnames row) in
  foldl (λ d key, <[key := None]> d) d (drop (length row) fieldnames).

(** The branch [elif action == "replace"] of the CSV adapter. *)
Definition csv_replacement (placeholder : string) : M cell :=
  if String.eqb placeholder "fake.name" then s <- fake FakeName ;; ret (Some s)
  else if String.eqb placeholder "fake.email" then s <- fake FakeEmail ;; ret (Some s)
  else if String.eqb placeholder "fake.address" then s <- fake FakeAddress ;; ret (Some s)
  else if String.eqb placeholder "fake.phone_number" then
    s <- fake FakePhoneNumber ;; ret (Some s)
  else if String.eqb placeholder "fake.date" then s <- fake FakeDate ;; ret (Some s)
  else ret (Some placeholder).

(** The value stored in [anonymized_row[field]] for a field that has a
    rule; [value] is [row.get(field, "")]. *)
Definition csv_rule (field : string) (r : rule) (value : cell) : M cell :=
  let action := get_action r in
  let placeholder := get_placeholder r in
  match get_regex r with
  | Some regex =>
      match value with
      | Some s =>
          match re_sub regex placeholder s with
          | ReOk s' => ret (Some s')
          | ReError e =>
              logging ERROR ("Invalid regex for field " +:+ field +:+ ": " +:+ e) ;;;
              ret value
          | ReRaise e => raise e
          end
      | None =>
          logging WARNING
            ("Field " +:+ field +:+ " with regex requires string value, skipping.") ;;;
          ret value
      end
  | None =>
      if String.eqb action "replace" then csv_replacement placeholder
      else if String.eqb action "remove" then ret (Some "")
      else
        logging WARNING
          ("Unknown action '" +:+ action +:+ "' for field '" +:+ field +:+ "'. Skipping.") ;;;
        ret value
  end.

(** The body of [for field in fieldnames]. *)
Definition csv_field (cfg : config) (row : gmap string cell) (field : string)
    (anonymized_row : gmap string cell) : M (gmap string cell) :=
  match dict_get field cfg with
  | Some r =>
      v <- csv_rule field r (default (Some "") (row !! field)) ;;
      ret (<[field := v]> anonymized_row)
  | None =>
      match row !! field with
      | Some v => ret (<[field := v]> anonymized_row)
      | None => raise (KeyError ("'" +:+ field +:+ "'"))
      end
  end.

(** A [for] loop over a list that threads the value it mutates. *)
Section ForEach.
Context {A S : Type} (body : A → S → M S).
Fixpoint for_each (items : list A) (s : S) : M S :=
  match items with
  | [] => ret s
  | x :: rest => s' <- body x s ;; for_each rest s'
  end.
End ForEach.

(** The two files as the CSV adapter sees them. *)
Record csv_source : Type := CsvSource {
  (* detect_encoding: [inl e] when reading the bytes raised [e], else the
     encoding chardet reports, if any *)
  csv_detected : exn + option string;
  (* the exception raised by one of the two [open] calls, if any *)
  csv_open : option exn;
  (* the lines the reader delivers, each a parsed line or the exception
     that reading it raises *)
  csv_lines : list (result (list string));
  (* the exception that [writer.writerow] raises for the cells of a row, if
     any: the output file has the encoding detected for the input, and a
     cell it cannot encode raises UnicodeEncodeError *)
  csv_write_error : list string → option exn
}.

(** [csv.writer.writerow]: one more row in the output file, unless the
    row is refused; the line is encoded before any of it is written. *)
Definition writer_writerow (write_error : list string → option exn)
    (cells : list string) : M unit :=
  match write_error cells with
  | Some e => raise e
  | None =>
      λ w, let rows := match w_output w with
                       | Some (CsvFile rows) => rows
                       | _ => []
                       end in
           (Ok tt, World (w_faker w) (w_log w) (Some (CsvFile (rows ++ [cells]))))
  end.

(** [csv.DictWriter.writerow]: a key outside [fieldnames] is refused
    ([extrasaction="raise"]), else the cells of [dict_to_list] are written. *)
Definition dict_writer_writerow (write_error : list string → option exn)
    (fieldnames : list string) (rowdict : gmap string cell) : M unit :=
  if bool_decide (map_Forall (λ key _, key ∈ fieldnames) rowdict) then
    writer_writerow write_error (dict_to_list fieldnames rowdict)
  else raise (ValueError "dict contains fields not in fieldnames").

(** The body of [for row in reader], for the dict [row] the reader made. *)
Definition csv_row (write_error : list string → option exn) (cfg : config)
    (fieldnames : list string) (row : gmap string cell) : M unit :=
  anonymized_row <- for_each (csv_field cfg row) fieldnames ∅ ;;
  dict_writer_writerow write_error fieldnames anonymized_row.

(** [for row in reader]: [lines] is what the underlying [csv.reader] still
    has to deliver.  [DictReader] skips blank lines ([[]]). *)
Fixpoint csv_rows (write_error : list string → option exn) (cfg : config)
    (fieldnames : list string) (lines : list (result (list string))) : M unit :=
  match lines with
  | [] => ret tt
  | Raise e :: _ => raise e
  | Ok [] :: rest => csv_rows write_error cfg fieldnames rest
  | Ok line :: rest =>
      csv_row write_error cfg fieldnames (dict_reader_row fieldnames line) ;;;
      csv_rows write_error cfg fieldnames rest
  end.

Definition detect_encoding (src : csv_source) : M (option string) :=
  match csv_detected src with
  | inr enc => ret enc
  | inl e =>
      logging ERROR ("Error detecting encoding: " +:+ exn_str e) ;;;
      ret None
  end.

(** [bool(encoding)] *)
Definition encoding_truthy (enc : option string) : bool :=
  match enc with
  | Some s => negb (String.eqb s "")
  | None => false
  end.

(** The [try] block of [anonymize_csv]. *)
Definition anonymize_csv_body (src : csv_source) (cfg : config) : M unit :=
  match csv_open src with
  | Some e => raise e
  | None =>
      write_file (CsvFile []) ;;;
      (* reader.fieldnames: the first line, None for an empty file *)
      match csv_lines src with
      | Raise e :: _ => raise e
      | [] =>
          (* writer.writeheader() zips fieldnames, which is None *)
          raise (TypeError "'NoneType' object is not iterable")
      | Ok fieldnames :: rest =>
          dict_writer_writerow (csv_write_error src) fieldnames
            (list_to_map (zip fieldnames (Some <$> fieldnames))) ;;;
          csv_rows (csv_write_error src) cfg fieldnames rest
      end
  end.

Definition anonymize_csv (input_file : string) (src : csv_source)
    (cfg : config) : M unit :=
  encoding <- detect_encoding src ;;
  (if encoding_truthy encoding then ret tt
   else logging ERROR "Failed to detect file encoding.  Using utf-8 as default.") ;;;
  try_except (anonymize_csv_body src cfg)
    (λ e, match e with
          | FileNotFoundError _ =>
              logging ERROR ("Input file not found: " +:+ input_file)
          | _ => logging ERROR ("Error processing CSV file: " +:+ exn_str e)
          end).

(** ** The XML adapter *)

Definition children_of (h : gmap nat node) (e : elem_ref) : list elem_ref :=
  match h !! e with
  | Some el => children el
  | None => []
  end.

(** [element.text] *)
Definition text_of (h : gmap nat node) (e : elem_ref) : option string :=
  match h !! e with
  | Some el => text el
  | None => None
  end.

(** [element.text = s] *)
Definition set_text (e : elem_ref) (s : string) (h : gmap nat node)
    : gmap nat node :=
  alter (λ el, Node (tag el) (attrib el) (Some s) (tail el) (children el)) e h.

(** [list.remove(x)]: the first occurrence goes. *)
Fixpoint list_remove (x : elem_ref) (l : list elem_ref) : list elem_ref :=
  match l with
  | [] => []
  | y :: l' => if Nat.eqb y x then l' else y :: list_remove x l'
  end.

(** [parent.remove(element)] *)
Definition remove_child (parent e : elem_ref) (h : gmap nat node)
    : gmap nat node :=
  alter (λ el, Node (tag el) (attrib el) (text el) (tail el)
                 (list_remove e (children el))) parent h.

(** [root.iter()]: the element and its descendants in document order.  A
    document is a finite tree whose elements are all in the store, so its
    depth is below the size of the store, which bounds the recursion. *)
Fixpoint iter_depth (depth : nat) (h : gmap nat node) (e : elem_ref)
    : list elem_ref :=
  match depth with
  | O => []
  | S d => e :: concat (map (iter_depth d h) (children_of h e))
  end.

Definition iter (h : gmap nat node) (root : elem_ref) : list elem_ref :=
  iter_depth (size h) h root.

(** [find_parent(root, element)]: the first element of [root.iter()] that
    has [element] among its children. *)
Definition find_parent (h : gmap nat node) (root element : elem_ref)
    : option elem_ref :=
  find (λ parent, existsb (Nat.eqb element) (children_of h parent)) (iter h root).

(** [root.findall(path)], ElementTree's path language. *)
Context (findall : gmap nat node → elem_ref → string → result (list elem_ref)).

(** The branch [elif action == "replace"] of the XML adapter. *)
Definition xml_replacement (placeholder : string) : M string :=
  if String.eqb placeholder "fake.name" then fake FakeName
  else if String.eqb placeholder "fake.email" then fake FakeEmail
  else if String.eqb placeholder "fake.address" then fake FakeAddress
  else if String.eqb placeholder "fake.phone_number" then fake FakePhoneNumber
  else if String.eqb placeholder "fake.date" then fake FakeDate
  else ret placeholder.

(** The body of [for element in elements]. *)
Definition xml_element (root : elem_ref) (element_path : string) (r : rule)
    (element : elem_ref) (h : gmap nat node) : M (gmap nat node) :=
  let action := get_action r in
  let placeholder := get_placeholder r in
  match get_regex r with
  | Some regex =>
      match text_of h element with
      | Some s =>
          if String.eqb s "" then ret h
          else
            match re_sub regex placeholder s with
            | ReOk s' => ret (set_text element s' h)
            | ReError e =>
                logging ERROR
                  ("Invalid regex for element " +:+ element_path +:+ ": " +:+ e) ;;;
                ret h
            | ReRaise e => raise e
            end
      | None => ret h
      end
  | None =>
      if String.eqb action "replace" then
        s <- xml_replacement placeholder ;;
        ret (set_text element s h)
      else if String.eqb action "remove" then
        match find_parent h root element with
        | Some parent => ret (remove_child parent element h)
        | None =>
            logging WARNING
              ("Could not find parent of element " +:+ element_path
               +:+ ". Skipping removal.") ;;;
            ret h
        end
      else
        logging WARNING
          ("Unknown action '" +:+ action +:+ "' for element '" +:+ element_path
           +:+ "'. Skipping.") ;;;
        ret h
  end.

(** The body of [for element_path, rule in config.items()]. *)
Definition xml_rule (root : elem_ref) (item : string * rule)
    (h : gmap nat node) : M (gmap nat node) :=
  let '(element_path, r) := item in
  match findall h root element_path with
  | Raise e => raise e
  | Ok elements => for_each (xml_element root element_path r) elements h
  end.

(** The input and output files as the XML adapter sees them. *)
Record xml_source : Type := XmlSource {
  (* ET.parse(input_file): the tree and its root, or the exception raised *)
  xml_parse : result (gmap nat node * elem_ref);
  (* tree.write(output_file): it opens the file, then serialises the tree *)
  xml_write : write_outcome
}.

(** The [try] block of [anonymize_xml]. *)
Definition anonymize_xml_body (src : xml_source) (cfg : config) : M unit :=
  match xml_parse src with
  | Raise e => raise e
  | Ok (h, root) =>
      h' <- for_each (xml_rule root) cfg h ;;
      match xml_write src with
      | Written => write_file (XmlFile h' root)
      | OpenFails e => raise e
      | WriteFails e => write_file PartialFile ;;; raise e
      end
  end.

Definition anonymize_xml (input_file : string) (src : xml_source)
    (cfg : config) : M unit :=
  try_except (anonymize_xml_body src cfg)
    (λ e, match e with
          | FileNotFoundError _ =>
              logging ERROR ("Input file not found: " +:+ input_file)
          | ParseError _ =>
              logging ERROR ("Error parsing XML file: " +:+ exn_str e)
          | _ => logging ERROR ("Error processing XML file: " +:+ exn_str e)
          end).

(** ** The driver *)

Inductive format : Type := FormatJson | FormatCsv | FormatXml.

(** What [load_config] finds at the path given with [--config]: no file;
    a text that [json.load] rejects with [JSONDecodeError]; a JSON object
    of rule objects; the JSON value [null]; or a file for which [open] or
    [json.load] raises another exception (as [PermissionError] or
    [UnicodeDecodeError]). *)
Inductive config_file : Type :=
  | ConfigNotFound
  | ConfigInvalidJson
  | ConfigLoaded (cfg : config)
  | ConfigNull
  | ConfigUnreadable (e : exn).

(** The input of the JSON branch of [main]. *)
Record json_source : Type := JsonSource {
  (* open(input_file) and json.load: the document, or the exception raised *)
  json_load : result json;
  (* open(output_file, "w") followed by json.dump *)
  json_write : write_outcome
}.

(** One invocation: the parsed command line and what the file system holds
    for the files it names. *)
Record invocation : Type := Invocation {
  arg_input_file : string;
  arg_output_file : string;
  arg_format : format;
  arg_config : option string;
  fs_config : config_file;
  fs_input_exists : bool;
  fs_json : json_source;
  fs_csv : csv_source;
  fs_xml : xml_source;
  (* the nested calls of anonymize_json the recursion limit has room for *)
  stack_room : nat
}.

(** [exit(code)] *)
Definition exit {A : Type} (code : nat) : M A := raise (SystemExit code).

Definition load_config (config_path : string) (f : config_file)
    : M (option config) :=
  match f with
  | ConfigLoaded cfg => ret (Some cfg)
  | ConfigNull => ret None
  | ConfigNotFound =>
      logging ERROR ("Configuration file not found: " +:+ config_path) ;;;
      ret None
  | ConfigInvalidJson =>
      logging ERROR
        ("Invalid JSON format in configuration file: " +:+ config_path) ;;;
      ret None
  | ConfigUnreadable e => raise e
  end.

(** The branch [args.format == "json"] of [main]. *)
Definition main_json (i : invocation) (cfg : option config) : M unit :=
  data <- try_except
            (match json_load (fs_json i) with
             | Ok data => ret data
             | Raise e => raise e
             end)
            (λ e, match e with
                  | JSONDecodeError _ =>
                      logging ERROR ("Error decoding JSON file: " +:+ exn_str e) ;;;
                      exit 1
                  | _ => raise e
                  end) ;;
  match cfg with
  | None =>
      logging ERROR "Configuration file is required for JSON anonymization." ;;;
      exit 1
  | Some cfg =>
      anonymized_data <- anonymize_json (stack_room i) cfg data ;;
      match json_write (fs_json i) with
      | Written =>
          write_file (JsonFile anonymized_data) ;;;
          logging INFO
            ("JSON data anonymized and saved to " +:+ arg_output_file i)
      | OpenFails e => raise e
      | WriteFails e => write_file PartialFile ;;; raise e
      end
  end.

Definition main_csv (i : invocation) (cfg : option config) : M unit :=
  match cfg with
  | None =>
      logging ERROR "Configuration file is required for CSV anonymization." ;;;
      exit 1
  | Some cfg =>
      anonymize_csv (arg_input_file i) (fs_csv i) cfg ;;;
      logging INFO ("CSV data anonymized and saved to " +:+ arg_output_file i)
  end.

Definition main_xml (i : invocation) (cfg : option config) : M unit :=
  match cfg with
  | None =>
      logging ERROR "Configuration file is required for XML anonymization." ;;;
      exit 1
  | Some cfg =>
      anonymize_xml (arg_input_file i) (fs_xml i) cfg ;;;
      logging INFO ("XML data anonymized and saved to " +:+ arg_output_file i)
  end.

Definition main (i : invocation) : M unit :=
  cfg <- match arg_config i with
         | Some config_path =>
             (* if args.config: *)
             if String.eqb config_path "" then ret None
             else
               c <- load_config config_path (fs_config i) ;;
               match c with
               | None => exit 1
               | Some cfg => ret (Some cfg)
               end
         | None => ret None
         end ;;
  (if fs_input_exists i then ret tt
   else
     logging ERROR ("Input file does not exist: " +:+ arg_input_file i) ;;;
     exit 1) ;;;
  try_except
    (match arg_format i with
     | FormatJson => main_json i cfg
     | FormatCsv => main_csv i cfg
     | FormatXml => main_xml i cfg
     end)
    (λ e, logging ERROR ("An error occurred: " +:+ exn_str e) ;;; exit 1).

(** The exit status of the process: 0 when [main] returns, the code given
    to [exit], 1 for an exception nobody caught. *)
Definition exit_status (r : result unit) : nat :=
  match r with
  | Ok _ => 0
  | Raise (SystemExit code) => code
  | Raise _ => 1
  end.

End Anonymizer.

(** ** Executable models of the libraries

    The theorems below hold for every regex engine, provider and path
    facility.  The examples run the adapters on small models of the three
    libraries, each covering the fragment the examples use. *)

(** *** A fragment of [re.sub]

    Patterns: a sequence of atoms (an ordinary character, an escaped
    character, [.], [\d], [\w], [\s]), each optionally followed by one of
    the greedy quantifiers [*], [+], [?] or [{n}]; templates without
    backslash.  On ASCII text this is what [re.sub] computes: leftmost
    match, greedy with backtracking, an empty match replaced too.  The
    pattern is read from left to right: a count [{n}] with [n] at or beyond
    [MAXREPEAT] raises [OverflowError]; anything else outside the fragment
    is answered with [ReError]. *)
Module Re.

Inductive atom : Type :=
  | Lit (c : ascii)
  | AnyChar
  | Digit
  | Word
  | Space.

Inductive quant : Type := Once | Opt | Star.

Inductive token : Type :=
  | TAtom (a : atom)
  | TStar
  | TPlus
  | TOpt
  | TCount (n : nat).

Definition between (lo hi : N) (c : ascii) : bool :=
  (lo <=? N_of_ascii c)%N && (N_of_ascii c <=? hi)%N.

Definition is_digit (c : ascii) : bool := between 48 57 c.

Definition accepts (a : atom) (c : ascii) : bool :=
  match a with
  | Lit c' => Ascii.eqb c' c
  | AnyChar => negb (Ascii.eqb c "010")
  | Digit => is_digit c
  | Word => is_digit c || between 65 90 c || between 97 122 c || Ascii.eqb c "_"
  | Space => between 9 13 c || Ascii.eqb c " "
  end.

(** Characters with a meaning of their own in a pattern. *)
Definition special (c : ascii) : bool :=
  existsb (Ascii.eqb c)
    (String.list_ascii_of_string ".^$*+?{}[]\|()").

Definition escape (c : ascii) : option atom :=
  if Ascii.eqb c "d" then Some Digit
  else if Ascii.eqb c "w" then Some Word
  else if Ascii.eqb c "s" then Some Space
  else if special c || Ascii.eqb c "-" then Some (Lit c)
  else None.

(** The digits of [{n}] up to the closing brace. *)
Fixpoint count (acc : N) (seen : bool) (p : list ascii)
    : option (N * list ascii) :=
  match p with
  | [] => None
  | c :: rest =>
      if Ascii.eqb c "}" then (if seen then Some (acc, rest) else None)
      else if is_digit c then
        count (10 * acc + (N_of_ascii c - 48))%N true rest
      else None
  end.

(** [_sre.MAXREPEAT] *)
Definition MAXREPEAT : N := 4294967295.

(** What reading a pattern gives: its parts, [re.error], or
    [OverflowError]. *)
Inductive parsed (A : Type) : Type :=
  | Parsed (a : A)
  | Malformed
  | TooLarge.
Arguments Parsed {A} a.
Arguments Malformed {A}.
Arguments TooLarge {A}.

Definition after {A : Type} (t : A) (r : parsed (list A)) : parsed (list A) :=
  match r with
  | Parsed ts => Parsed (t :: ts)
  | Malformed => Malformed
  | TooLarge => TooLarge
  end.

(** [atom_before]: the previous token is an atom, which a quantifier
    needs. *)
Fixpoint tokens (fuel : nat) (atom_before : bool) (p : list ascii)
    : parsed (list token) :=
  match p with
  | [] => Parsed []
  | c :: rest =>
      match fuel with
      | O => Malformed
      | S fuel' =>
          if Ascii.eqb c "\" then
            match rest with
            | [] => Malformed
            | e :: rest' =>
                match escape e with
                | Some a => after (TAtom a) (tokens fuel' true rest')
                | None => Malformed
                end
            end
          else if Ascii.eqb c "*" then
            if atom_before then after TStar (tokens fuel' false rest)
            else Malformed
          else if Ascii.eqb c "+" then
            if atom_before then after TPlus (tokens fuel' false rest)
            else Malformed
          else if Ascii.eqb c "?" then
            if atom_before then after TOpt (tokens fuel' false rest)
            else Malformed
          else if Ascii.eqb c "{" then
            if atom_before then
              match count 0 false rest with
              | Some (n, rest') =>
                  if (MAXREPEAT <=? n)%N then TooLarge
                  else after (TCount (N.to_nat n)) (tokens fuel' false rest')
              | None => Malformed
              end
            else Malformed
          else if Ascii.eqb c "." then
            after (TAtom AnyChar) (tokens fuel' true rest)
          else if special c then Malformed
          else after (TAtom (Lit c)) (tokens fuel' true rest)
      end
  end.

Definition is_quant (t : token) : bool :=
  match t with
  | TAtom _ => false
  | _ => true
  end.

(** What a quantified atom stands for: [a+] is [a a*], [a{n}] is [n] times [a]. *)
Definition quantified (a : atom) (q : token) : list (atom * quant) :=
  match q with
  | TStar => [(a, Star)]
  | TPlus => [(a, Once); (a, Star)]
  | TOpt => [(a, Opt)]
  | TCount n => replicate n (a, Once)
  | TAtom _ => []
  end.

(** Atoms with their quantifiers; a quantifier needs an atom before it. *)
Fixpoint items (ts : list token) : option (list (atom * quant)) :=
  match ts with
  | [] => Some []
  | TAtom a :: ts' =>
      match ts' with
      | q :: ts'' =>
          if is_quant q then rest ← items ts''; Some (app (quantified a q) rest)
          else rest ← items ts'; Some ((a, Once) :: rest)
      | [] => Some [(a, Once)]
      end
  | _ => None
  end.

Definition compile (pattern : string) : parsed (list (atom * quant)) :=
  let p := String.list_ascii_of_string pattern in
  match tokens (length p) false p with
  | Parsed ts =>
      match items ts with
      | Some its => Parsed its
      | None => Malformed
      end
  | Malformed => Malformed
  | TooLarge => TooLarge
  end.

(** The text left after the preferred match of [its] at the start of [s]. *)
Fixpoint match_here (its : list (atom * quant)) : list ascii → option (list ascii) :=
  match its with
  | [] => λ s, Some s
  | (a, q) :: rest =>
      let k := match_here rest in
      match q with
      | Once => λ s,
          match s with
          | c :: s' => if accepts a c then k s' else None
          | [] => None
          end
      | Opt => λ s,
          match s with
          | c :: s' =>
              if accepts a c then
                match k s' with
                | Some r => Some r
                | None => k s
                end
              else k s
          | [] => k s
          end
      | Star =>
          fix star (s : list ascii) : option (list ascii) :=
            match s with
            | c :: s' =>
                if accepts a c then
                  match star s' with
                  | Some r => Some r
                  | None => k s
                  end
                else k s
            | [] => k s
            end
      end
  end.

Fixpoint sub_from (fuel : nat) (its : list (atom * quant)) (repl s : list ascii)
    : list ascii :=
  match fuel with
  | O => s
  | S fuel' =>
      let skip := match s with
                  | [] => []
                  | c :: s' => c :: sub_from fuel' its repl s'
                  end in
      match match_here its s with
      | Some rest =>
          if (length rest <? length s)%nat
          then app repl (sub_from fuel' its repl rest)
          else app repl skip
      | None => skip
      end
  end.

Definition sub (pattern repl s : string) : re_result :=
  match compile pattern with
  | Malformed => ReError "unsupported or malformed pattern"
  | TooLarge => ReRaise (OverflowError "the repetition number is too large")
  | Parsed its =>
      if existsb (Ascii.eqb "\") (String.list_ascii_of_string repl)
      then ReError "unsupported template"
      else
        let cs := String.list_ascii_of_string s in
        ReOk (String.string_of_list_ascii
                (sub_from (S (length cs)) its (String.list_ascii_of_string repl) cs))
  end.

End Re.

(** *** A deterministic provider: the state counts the draws. *)
Definition fake_det (c : category) (n : nat) : string * nat :=
  (match c with
   | FakeName => "Jane Doe"
   | FakeEmail => "jane@example.org"
   | FakeAddress => "1 Main Street"
   | FakePhoneNumber => "555-0100"
   | FakeDate => "2001-02-03"
   end, S n).

(** *** A fragment of [findall]

    Paths are steps separated by [/]; a step is [.], [*] or a tag, and an
    empty step (between the two slashes of [//]) selects the descendants
    that the next step names.  A path that starts with [/] is refused with
    [SyntaxError], as ElementTree does.  Predicates, [..] and prefixed
    names are outside the fragment and no example uses them; they are
    answered like a path that ElementTree cannot read. *)
Module Path.

Fixpoint split (cur : list ascii) (p : list ascii) : list string :=
  match p with
  | [] => [String.string_of_list_ascii (rev cur)]
  | c :: rest =>
      if Ascii.eqb c "/" then String.string_of_list_ascii (rev cur) :: split [] rest
      else split (c :: cur) rest
  end.

(** A step that is a plain tag. *)
Definition is_tag (step : string) : bool :=
  negb (String.eqb step "")
  && forallb (λ c, negb (existsb (Ascii.eqb c)
                           (String.list_ascii_of_string ".*:[]()@=!{}'\ ")))
       (String.list_ascii_of_string step).

Definition has_tag (h : gmap nat node) (t : string) (e : elem_ref) : bool :=
  match h !! e with
  | Some el => String.eqb (tag el) t
  | None => false
  end.

(** The elements below [e], in document order, [e] excluded. *)
Definition descendants (h : gmap nat node) (e : elem_ref) : list elem_ref :=
  concat (map (iter h) (children_of h e)).

Definition invalid_path {A : Type} : result A := Raise (SyntaxError "invalid path").

Fixpoint select (h : gmap nat node) (steps : list string)
    (context : list elem_ref) : result (list elem_ref) :=
  match steps with
  | [] => Ok context
  | step :: rest =>
      if String.eqb step "." then select h rest context
      else if String.eqb step "*" then
        select h rest (concat (map (children_of h) context))
      else if String.eqb step "" then
        match rest with
        | step' :: rest' =>
            if String.eqb step' "*" then
              select h rest' (concat (map (descendants h) context))
            else if is_tag step' then
              select h rest'
                (concat (map (λ e, List.filter (has_tag h step') (descendants h e))
                           context))
            else Raise (SyntaxError "invalid descendant")
        | [] => invalid_path
        end
      else if is_tag step then
        select h rest
          (concat (map (λ e, List.filter (has_tag h step) (children_of h e))
                     context))
      else invalid_path
  end.

End Path.

Definition findall_frag (h : gmap nat node) (root : elem_ref) (path : string)
    : result (list elem_ref) :=
  if String.eqb path "" then Ok []
  else if String.prefix "/" path then
    Raise (SyntaxError "cannot use absolute path on element")
  else
    let steps := Path.split [] (String.list_ascii_of_string path) in
    (* a path that ends with a slash selects all children of its last step *)
    let steps := match rev steps with
                 | last :: before =>
                     if String.eqb last "" then rev ("*" :: before) else steps
                 | [] => steps
                 end in
    Path.select h steps [root].


(** *** Sample data for the examples *)

(** A fresh run: no draw yet, an empty log, no output file. *)
Definition w0 : @world nat := World 0 [] None.

(** [{"action": "remove", "regex": "\d+", "placeholder": "#"}] *)
Definition digits_rule : rule := Rule (Some "remove") (Some "#") (Some "\d+").

(** [{"action": "remove", "regex": "", "placeholder": "#"}] *)
Definition empty_regex_rule : rule := Rule (Some "remove") (Some "#") (Some "").

(** [{"action": "remove"}] *)
Definition remove_rule : rule := Rule (Some "remove") None None.

(** [{"action": "mask"}], an action the program does not know. *)
Definition mask_rule : rule := Rule (Some "mask") None None.

(** [{"placeholder": "null"}]; the action defaults to [replace]. *)
Definition null_rule : rule := Rule None (Some "null") None.

(** [{"regex": "x*", "placeholder": "N/A"}]: the pattern matches the empty
    string. *)
Definition blank_rule : rule := Rule None (Some "N/A") (Some "x*").

(** The document [<r><a>t1<c>t3</c></a><b>t2</b></r>]; the root is 0. *)
Definition sample_xml : gmap nat node :=
  list_to_map
    [(0, Node "r" [] None None [1; 2]);
     (1, Node "a" [] (Some "t1") None [3]);
     (2, Node "b" [] (Some "t2") None []);
     (3, Node "c" [] (Some "t3") None [])].

(** Room for a thousand nested calls: the default recursion limit. *)
Definition room : nat := 1000.

(** A writer that accepts every row. *)
Definition any_row : list string → option exn := λ _, None.

(** An invocation on [in.*] with the rules [cfg] loaded from [rules.json]. *)
Definition invoke (fmt : format) (cfg : config) (doc_json : json_source)
    (doc_csv : csv_source) (doc_xml : xml_source) : invocation :=
  Invocation "in" "out" fmt (Some "rules.json") (ConfigLoaded cfg) true
    doc_json doc_csv doc_xml room.

Definition no_json : json_source :=
  JsonSource (Raise (OtherError "unused")) Written.
Definition no_csv : csv_source := CsvSource (inr None) None [] any_row.
Definition no_xml : xml_source :=
  XmlSource (Raise (OtherError "unused")) Written.

(** ** Vocabulary of the statements *)

(** Well-formed documents: the keys of an object are distinct, as they are
    in every Python [dict]. *)
Fixpoint wf_json (j : json) : bool :=
  match j with
  | JList items => forallb wf_json items
  | JDict d =>
      bool_decide (NoDup d.*1) && forallb (λ kv, wf_json kv.2) d
  | _ => true
  end.

(** Paths into a document: object keys and array positions. *)
Inductive step : Type :=
  | Key (k : string)
  | Index (i : nat).

Fixpoint json_at (p : list step) (j : json) : option json :=
  match p with
  | [] => Some j
  | Key k :: p' =>
      match j with
      | JDict d => v ← dict_get k d; json_at p' v
      | _ => None
      end
  | Index i :: p' =>
      match j with
      | JList items => v ← items !! i; json_at p' v
      | _ => None
      end
  end.

(** No key on the path has an entry in the rule set. *)
Definition unruled (cfg : config) (p : list step) : Prop :=
  ∀ k, Key k ∈ p → dict_get k cfg = None.

(** No rule of the configuration resolves to removal. *)
Definition no_removal (cfg : config) : Prop :=
  ∀ k r, dict_get k cfg = Some r → get_regex r = None → get_action r ≠ "remove".

(** The world after one more log record. *)
Definition add_log {faker_state : Type} (w : @world faker_state)
    (l : level) (msg : string) : @world faker_state :=
  World (w_faker w) (w_log w ++ [(l, msg)]) (w_output w).

(** The log only grows. *)
Definition log_le {faker_state : Type} (w w' : @world faker_state) : Prop :=
  w_log w `prefix_of` w_log w'.

(** [m] only appends to the log. *)
Definition log_mono {faker_state A : Type} (m : @M faker_state A) : Prop :=
  ∀ w res w', m w = (res, w') → log_le w w'.

(** [m] does not write to the output file. *)
Definition keeps_output {faker_state A : Type} (m : @M faker_state A) : Prop :=
  ∀ w res w', m w = (res, w') → w_output w' = w_output w.

(** The lines of a CSV file that [csv.DictReader] turns into rows: all but
    the blank ones. *)
Definition csv_records (lines : list (list string)) : list (list string) :=
  filter (λ line, line ≠ []) lines.

(** [out] is what the CSV adapter writes for the line [line] under the
    header [header], in some state of the provider and of the log. *)
Definition csv_written {faker_state : Type}
    (fake_gen : category → faker_state → string * faker_state)
    (re_sub : string → string → string → re_result)
    (cfg : config) (header line out : list string) : Prop :=
  ∃ m (w1 w2 : @world faker_state),
    for_each (csv_field fake_gen re_sub cfg (dict_reader_row header line))
      header ∅ w1 = (Ok m, w2)
    ∧ log_le w1 w2
    ∧ out = dict_to_list header m.

(** The elements that the paths of the rule set select during a run of the
    XML adapter from the store [h]: [findall] is asked once per rule, on
    the store as the earlier rules left it. *)
Fixpoint xml_matches {faker_state : Type}
    (fake_gen : category → faker_state → string * faker_state)
    (re_sub : string → string → string → re_result)
    (findall : gmap nat node → elem_ref → string → result (list elem_ref))
    (root : elem_ref) (cfg : config) (h : gmap nat node)
    (w : @world faker_state) : list elem_ref :=
  match cfg with
  | [] => []
  | (element_path, r) :: rest =>
      match findall h root element_path with
      | Raise _ => []
      | Ok elements =>
          elements ++
          match for_each (xml_element fake_gen re_sub root element_path r)
                  elements h w with
          | (Ok h', w') => xml_matches fake_gen re_sub findall root rest h' w'
          | (Raise _, _) => []
          end
      end
  end.

(** The elements of the tree below [e] in document order, without bound
    on the depth: what [root.iter()] yields on a finite tree. *)
Inductive preorder (h : gmap nat node) : elem_ref → list elem_ref → Prop :=
  | preorder_node e l :
      preorder_forest h (children_of h e) l → preorder h e (e :: l)
with preorder_forest (h : gmap nat node)
    : list elem_ref → list elem_ref → Prop :=
  | preorder_nil : preorder_forest h [] []
  | preorder_cons c cs l ls :
      preorder h c l → preorder_forest h cs ls →
      preorder_forest h (c :: cs) (l ++ ls).

(** No key of the document, at any depth, has an entry in the rule set. *)
Fixpoint ruleless (cfg : config) (j : json) : bool :=
  match j with
  | JList items => forallb (ruleless cfg) items
  | JDict d =>
      forallb (λ kv, match dict_get kv.1 cfg with
                     | None => ruleless cfg kv.2
                     | Some _ => false
                     end) d
  | _ => true
  end.

(** A placeholder that is none of the five provider tags. *)
Definition not_fake_tag (p : string) : bool :=
  negb (String.eqb p "fake.name") && negb (String.eqb p "fake.email")
  && negb (String.eqb p "fake.address")
  && negb (String.eqb p "fake.phone_number")
  && negb (String.eqb p "fake.date").

(** The element [n'] is [n] up to its text and to children taken away. *)
Definition same_shell (n n' : node) : Prop :=
  tag n' = tag n ∧ attrib n' = attrib n ∧ tail n' = tail n
  ∧ children n' `sublist_of` children n.

(** The store [h'] has the elements of [h], each up to its text and to
    children taken away. *)
Definition shell_preserved (h h' : gmap nat node) : Prop :=
  ∀ e, match h !! e, h' !! e with
       | Some n, Some n' => same_shell n n'
       | None, None => True
       | _, _ => False
       end.


(** The record that the handlers of [anonymize_csv] log for [e]. *)
Definition csv_failure_message (input_file : string) (e : exn) : string :=
  match e with
  | FileNotFoundError _ => "Input file not found: " +:+ input_file
  | _ => "Error processing CSV file: " +:+ exn_str e
  end.

(** The configuration stage of [main] hands over [cfg]: no usable
    [--config] option and [cfg] is [None], or the file loads. *)
Definition config_stage (i : invocation) (cfg : option config) : Prop :=
  (arg_config i = None ∧ cfg = None)
  ∨ (arg_config i = Some "" ∧ cfg = None)
  ∨ (∃ path c, arg_config i = Some path ∧ path ≠ ""
               ∧ fs_config i = ConfigLoaded c ∧ cfg = Some c).

(** The nesting depth of a document: a sufficient number of nested calls
    of [anonymize_json] for any rule set. *)
Fixpoint json_depth (j : json) : nat :=
  match j with
  | JList items => S (max_list (json_depth <$> items))
  | JDict d => S (max_list ((λ kv, json_depth kv.2) <$> d))
  | _ => 1
  end.

(** On the regex of the rule the engine returns or raises [re.error], and
    nothing else, whatever the string. *)
Definition rule_safe (re_sub : string → string → string → re_result)
    (r : rule) : Prop :=
  ∀ regex s e, get_regex r = Some regex →
               re_sub regex (get_placeholder r) s ≠ ReRaise e.

(** The same for every rule of the configuration. *)
Definition re_safe (re_sub : string → string → string → re_result)
    (cfg : config) : Prop :=
  ∀ k r, (k, r) ∈ cfg → rule_safe re_sub r.

(** The lines the reader delivers before the first one it fails on. *)
Fixpoint readable (lines : list (result (list string))) : list (list string) :=
  match lines with
  | Ok line :: rest => line :: readable rest
  | _ => []
  end.

(** The element hangs under the root: a chain of child links leads from
    the root to it. *)
Inductive attached (h : gmap nat node) (root : elem_ref) : elem_ref → Prop :=
  | attached_root : attached h root root
  | attached_child p c :
      attached h root p → c ∈ children_of h p → attached h root c.

(** The same by a chain none of whose elements below the root is in
    [selected]. *)
Inductive spared (h : gmap nat node) (selected : list elem_ref)
    (root : elem_ref) : elem_ref → Prop :=
  | spared_root : spared h selected root root
  | spared_child p c :
      spared h selected root p → c ∈ children_of h p → c ∉ selected →
      spared h selected root c.

(** In the row [out] written for the line [line], every column without
    rule holds the cell of the reader's row: with distinct column names,
    the cell of the line, or the empty string when the line is too short. *)
Definition unruled_cells (cfg : config) (header line out : list string) : Prop :=
  ∀ (i : nat) (f : string),
    header !! i = Some f → dict_get f cfg = None →
    (∀ c : cell, dict_reader_row header line !! f = Some c →
                 out !! i = Some (cell_str c))
    ∧ (NoDup header → out !! i = Some (default "" (line !! i))).

(** The rule set has a rule that resolves to removal. *)
Definition removal_rule (cfg : config) : Prop :=
  ∃ k r, dict_get k cfg = Some r ∧ get_regex r = None ∧ get_action r = "remove".

(** The engine raises [e], which is not [re.error], on the regex of a
    rule of the set. *)
Definition engine_raises (re_sub : string → string → string → re_result)
    (cfg : config) (e : exn) : Prop :=
  ∃ k r regex s, dict_get k cfg = Some r ∧ get_regex r = Some regex
                 ∧ re_sub regex (get_placeholder r) s = ReRaise e.

(** The record that the handlers of [anonymize_xml] log for [e]. *)
Definition xml_failure_message (input_file : string) (e : exn) : string :=
  match e with
  | FileNotFoundError _ => "Input file not found: " +:+ input_file
  | ParseError _ => "Error parsing XML file: " +:+ exn_str e
  | _ => "Error processing XML file: " +:+ exn_str e
  end.

(** The rule makes the adapters draw a value from the provider: it has no
    regex, its action is [replace] and its placeholder is a provider tag. *)
Definition draws (r : rule) : bool :=
  match get_regex r with
  | Some _ => false
  | None =>
      String.eqb (get_action r) "replace"
      && negb (not_fake_tag (get_placeholder r))
  end.

(** [m] leaves the provider in the state it found it in. *)
Definition keeps_faker {faker_state A : Type} (m : @M faker_state A) : Prop :=
  ∀ w res w', m w = (res, w') → w_faker w' = w_faker w.

(** ** Properties of the association-list dictionaries *)

Lemma dict_get_set_eq {V : Type} (key : string) (v : V) (d : dict V) :
  dict_get key (dict_set key v d) = Some v.
Proof.
  induction d as [|[k x] d IH]; simpl.
  - by rewrite String.eqb_refl.
  - destruct (String.eqb k key) eqn:E; simpl; by rewrite E.
Qed.

Lemma dict_get_set_ne {V : Type} (key key' : string) (v : V) (d : dict V) :
  key ≠ key' → dict_get key' (dict_set key v d) = dict_get key' d.
Proof.
  intros Hne. induction d as [|[k x] d IH]; simpl.
  - destruct (String.eqb key key') eqn:E; [|done].
    by apply String.eqb_eq in E.
  - destruct (String.eqb k key) eqn:E; simpl.
    + apply String.eqb_eq in E as ->.
      destruct (String.eqb key key') eqn:E'; [|done].
      by apply String.eqb_eq in E'.
    + by rewrite IH.
Qed.

Lemma dict_get_del_ne {V : Type} (key key' : string) (d : dict V) :
  key ≠ key' → dict_get key' (dict_del key d) = dict_get key' d.
Proof.
  intros Hne. induction d as [|[k x] d IH]; simpl; [done|].
  destruct (String.eqb k key) eqn:E; simpl.
  - apply String.eqb_eq in E as ->.
    destruct (String.eqb key key') eqn:E'; [|done].
    by apply String.eqb_eq in E'.
  - by rewrite IH.
Qed.

Lemma dict_get_elem {V : Type} (key : string) (v : V) (d : dict V) :
  dict_get key d = Some v → (key, v) ∈ d.
Proof.
  induction d as [|[k x] d IH]; simpl; [done|].
  destruct (String.eqb k key) eqn:E.
  - apply String.eqb_eq in E as ->. intros [= ->]. left.
  - intros H. right. by apply IH.
Qed.

Lemma dict_get_None {V : Type} (key : string) (d : dict V) :
  key ∉ d.*1 → dict_get key d = None.
Proof.
  induction d as [|[k x] d IH]; simpl; [done|].
  intros Hn. destruct (String.eqb k key) eqn:E.
  - apply String.eqb_eq in E as ->. exfalso. apply Hn. left.
  - apply IH. intros Hin. apply Hn. by right.
Qed.

Lemma elem_dict_get {V : Type} (key : string) (v : V) (d : dict V) :
  NoDup d.*1 → (key, v) ∈ d → dict_get key d = Some v.
Proof.
  induction d as [|[k x] d IH]; simpl.
  - intros _ H. by apply elem_of_nil in H.
  - intros [Hk Hd]%NoDup_cons [H|H]%elem_of_cons.
    + injection H as -> ->. by rewrite String.eqb_refl.
    + destruct (String.eqb k key) eqn:E; [|by apply IH].
      apply String.eqb_eq in E as ->. exfalso. apply Hk.
      apply list_elem_of_fmap. by exists (key, v).
Qed.

Lemma dict_set_keys {V : Type} (key : string) (v : V) (d : dict V) :
  key ∈ d.*1 → (dict_set key v d).*1 = d.*1.
Proof.
  induction d as [|[k x] d IH]; simpl.
  - intros H. by apply elem_of_nil in H.
  - intros H. destruct (String.eqb k key) eqn:E; simpl; [done|].
    f_equal. apply IH. apply elem_of_cons in H as [->|H]; [|done].
    by rewrite String.eqb_refl in E.
Qed.

Lemma dict_del_length {V : Type} (key : string) (d : dict V) :
  key ∈ d.*1 → S (length (dict_del key d)) = length d.
Proof.
  induction d as [|[k x] d IH]; simpl.
  - intros H. by apply elem_of_nil in H.
  - intros H. destruct (String.eqb k key) eqn:E; simpl; [done|].
    f_equal. apply IH. apply elem_of_cons in H as [->|H]; [|done].
    by rewrite String.eqb_refl in E.
Qed.

(** ** An induction principle for JSON values *)

Lemma json_ind (P : json → Prop) :
  P JNone →
  (∀ b, P (JBool b)) →
  (∀ n, P (JInt n)) →
  (∀ f, P (JFloat f)) →
  (∀ s, P (JStr s)) →
  (∀ items, Forall P items → P (JList items)) →
  (∀ d, Forall (λ kv, P kv.2) d → P (JDict d)) →
  ∀ j, P j.
Proof.
  intros HNone HBool HInt HFloat HStr HList HDict.
  fix IH 1.
  intros [ |b|n|f|s|items|d];
    [exact HNone | apply HBool | apply HInt | apply HFloat | apply HStr | | ].
  - apply HList. revert items. fix IHl 1. intros [|x l]; constructor.
    + apply IH.
    + apply IHl.
  - apply HDict. revert d. fix IHl 1. intros [|[k x] l]; constructor.
    + apply IH.
    + apply IHl.
Qed.


(** ** Properties of the adapters *)

Section Properties.

Context {faker_state : Type}.
Context (fake_gen : category → faker_state → string * faker_state).
Context (re_sub : string → string → string → re_result).
Context (findall : gmap nat node → elem_ref → string → result (list elem_ref)).

Implicit Types (w : @world faker_state) (cfg : config) (r : rule).

Local Abbreviation M := (@M faker_state).
Local Abbreviation log_le := (@log_le faker_state).
Local Abbreviation log_mono := (@log_mono faker_state _).
Local Abbreviation keeps_output := (@keeps_output faker_state _).

(** *** The monad *)

Lemma bind_Ok {A B : Type} (m : M A) (k : A → M B) w (b : B) w' :
  bind m k w = (Ok b, w') ↔ ∃ a w1, m w = (Ok a, w1) ∧ k a w1 = (Ok b, w').
Proof.
  unfold bind. destruct (m w) as [[a|e] w1]; split.
  - intros H. by exists a, w1.
  - by intros (a' & w2 & [= -> ->] & H).
  - done.
  - by intros (a' & w2 & [=] & _).
Qed.

Lemma bind_eq {A B : Type} (m : M A) (k : A → M B) w (a : A) w1 :
  m w = (Ok a, w1) → bind m k w = k a w1.
Proof. unfold bind. by intros ->. Qed.

Lemma bind_Raise {A B : Type} (m : M A) (k : A → M B) w e w1 :
  m w = (Raise e, w1) → bind m k w = (Raise e, w1).
Proof. unfold bind. by intros ->. Qed.

#[local] Instance log_le_refl : Reflexive log_le.
Proof. intros w. exists []. by rewrite app_nil_r. Qed.

#[local] Instance log_le_trans : Transitive log_le.
Proof. intros w1 w2 w3. unfold log_le. apply transitivity. Qed.

Lemma log_le_same w w' : w_log w = w_log w' → log_le w w'.
Proof. intros H. unfold log_le. rewrite H. exists []. by rewrite app_nil_r. Qed.

Lemma log_mono_ret {A : Type} (a : A) :
  log_mono (ret a).
Proof. intros w res w' [= _ <-]. done. Qed.

Lemma log_mono_raise {A : Type} (e : exn) :
  log_mono (raise (A:=A) e).
Proof. intros w res w' [= _ <-]. done. Qed.

Lemma log_mono_logging l msg :
  log_mono (logging l msg).
Proof. intros w res w' [= _ <-]. unfold log_le. simpl. by apply prefix_app_r. Qed.

Lemma log_mono_fake c : log_mono (fake fake_gen c).
Proof.
  intros w res w'. unfold fake. destruct (fake_gen c (w_faker w)) as [s f'].
  intros [= _ <-]. by apply log_le_same.
Qed.

Lemma log_mono_bind {A B : Type} (m : M A) (k : A → M B) :
  log_mono m → (∀ a, log_mono (k a)) → log_mono (bind m k).
Proof.
  intros Hm Hk w res w'. unfold bind.
  destruct (m w) as [[a|e] w1] eqn:E.
  - intros H. etrans; [by eapply Hm | by eapply Hk].
  - intros [= _ <-]. by eapply Hm.
Qed.

Lemma log_mono_list_comp {A B : Type} (f : A → M B) (items : list A) :
  Forall (λ x, log_mono (f x)) items → log_mono (list_comp f items).
Proof.
  induction 1 as [|x l Hx Hl IH]; simpl.
  - apply log_mono_ret.
  - apply log_mono_bind; [done|]. intros y.
    apply log_mono_bind; [done|]. intros ys. apply log_mono_ret.
Qed.

Lemma log_mono_for_each {A S : Type} (body : A → S → M S) (items : list A) :
  (∀ x s, x ∈ items → log_mono (body x s)) → ∀ s, log_mono (for_each body items s).
Proof.
  induction items as [|x l IH]; simpl; intros Hb s.
  - apply log_mono_ret.
  - apply log_mono_bind; [apply Hb; left|].
    intros s'. apply IH. intros y s'' Hy. apply Hb. by right.
Qed.

Lemma log_mono_json_replacement p : log_mono (json_replacement fake_gen p).
Proof.
  unfold json_replacement.
  repeat case_match;
    try (apply log_mono_bind; [apply log_mono_fake | intros; apply log_mono_ret]);
    apply log_mono_ret.
Qed.

Lemma log_mono_json_rule key r value data :
  log_mono (json_rule fake_gen re_sub key r value data).
Proof.
  unfold json_rule.
  repeat case_match;
    repeat first
      [ apply log_mono_ret
      | apply log_mono_raise
      | apply log_mono_logging
      | apply log_mono_json_replacement
      | apply log_mono_bind; [|intros] ].
Qed.

(** The three cases of the loop body of the JSON adapter. *)
Lemma json_field_ruled cfg self key r value data :
  dict_get key cfg = Some r →
  json_field fake_gen re_sub cfg self key value data
  = json_rule fake_gen re_sub key r value data.
Proof. unfold json_field. by intros ->. Qed.

Lemma json_field_scalar cfg self key value data :
  dict_get key cfg = None → is_container value = false →
  json_field fake_gen re_sub cfg self key value data = ret data.
Proof. unfold json_field. intros ->. by destruct value. Qed.

(** A key without rule whose value is an object: the frame of the object
    calls the function on the value. *)
Lemma json_field_dict cfg self key d data :
  dict_get key cfg = None →
  json_field fake_gen re_sub cfg self key (JDict d) data
  = bind (self (JDict d)) (λ v, ret (dict_set key v data)).
Proof. unfold json_field. by intros ->. Qed.

(** A key without rule whose value is an array: the frame of the object
    runs the comprehension over the items. *)
Lemma json_field_list cfg self key items data :
  dict_get key cfg = None →
  json_field fake_gen re_sub cfg self key (JList items) data
  = bind (list_comp self items) (λ vs, ret (dict_set key (JList vs) data)).
Proof. unfold json_field. by intros ->. Qed.

(** What the frame of an object does for an array under a key without
    rule is what a call on the array does one level up. *)
Lemma anonymize_json_list depth cfg items w :
  anonymize_json fake_gen re_sub (S depth) cfg (JList items) w
  = bind (list_comp (anonymize_json fake_gen re_sub depth cfg) items)
      (λ vs, ret (JList vs)) w.
Proof. done. Qed.

Lemma anonymize_json_dict depth cfg d w :
  anonymize_json fake_gen re_sub (S depth) cfg (JDict d) w
  = bind (for_items (json_field fake_gen re_sub cfg
                       (anonymize_json fake_gen re_sub depth cfg))
            (length d) d d)
      (λ d', ret (JDict d')) w.
Proof. done. Qed.

Lemma log_mono_json_field cfg (self : json → M json) key value data :
  (∀ v, log_mono (self v)) →
  log_mono (json_field fake_gen re_sub cfg self key value data).
Proof.
  intros Hself. unfold json_field.
  destruct (dict_get key cfg) as [r|]; [apply log_mono_json_rule|].
  destruct value; try apply log_mono_ret.
  - apply log_mono_bind; [|intros; apply log_mono_ret].
    apply log_mono_list_comp, Forall_forall. intros; apply Hself.
  - apply log_mono_bind; [apply Hself|intros; apply log_mono_ret].
Qed.

Lemma log_mono_for_items body used items data :
  (∀ k v d, (k, v) ∈ items → log_mono (body k v d)) →
  log_mono (for_items body used items data).
Proof.
  revert data. induction items as [|[k v] l IH]; simpl; intros data Hb.
  - case_match; [apply log_mono_raise | apply log_mono_ret].
  - case_match; [apply log_mono_raise|].
    apply log_mono_bind; [apply Hb; left|].
    intros d'. apply IH. intros k' v' d'' Hin. apply Hb. by right.
Qed.

Lemma log_mono_anonymize_json depth cfg (data : json) :
  log_mono (anonymize_json fake_gen re_sub depth cfg data).
Proof.
  revert data. induction depth as [|depth IH]; intros data; simpl.
  - apply log_mono_raise.
  - destruct data; try apply log_mono_ret.
    + apply log_mono_bind; [|intros; apply log_mono_ret].
      apply log_mono_list_comp, Forall_forall. intros; apply IH.
    + apply log_mono_bind; [|intros; apply log_mono_ret].
      apply log_mono_for_items. intros k v d' Hin.
      by apply log_mono_json_field.
Qed.

(** *** What one step of the JSON loop can do to the dict *)

Lemma json_replacement_Ok p w :
  ∃ v w', json_replacement fake_gen p w = (Ok v, w').
Proof.
  unfold json_replacement, bind, fake, ret.
  repeat case_match; simplify_eq; eauto.
Qed.

Lemma json_rule_shape key r value data w data' w' :
  json_rule fake_gen re_sub key r value data w = (Ok data', w') →
  data' = data ∨ (∃ x, data' = dict_set key x data) ∨ data' = dict_del key data.
Proof.
  unfold json_rule.
  destruct (get_regex r) as [regex|].
  - destruct value;
      try (unfold bind, logging, ret; simpl; intros [= <- _]; by left).
    destruct (re_sub regex (get_placeholder r) s) as [s'|e|e]; [| |done].
    + intros [= <- _]. right; left. eauto.
    + unfold bind, logging, ret; simpl. intros [= <- _]. by left.
  - destruct (String.eqb (get_action r) "replace").
    + intros (v & w1 & _ & [= <- _])%bind_Ok. right; left. eauto.
    + destruct (String.eqb (get_action r) "remove").
      * intros [= <- _]. by right; right.
      * unfold bind, logging, ret; simpl. intros [= <- _]. by left.
Qed.

Lemma json_field_shape cfg self key value data w data' w' :
  json_field fake_gen re_sub cfg self key value data w = (Ok data', w') →
  data' = data ∨ (∃ x, data' = dict_set key x data) ∨ data' = dict_del key data.
Proof.
  unfold json_field. destruct (dict_get key cfg) as [r|].
  - apply json_rule_shape.
  - destruct value; try (intros [= <- _]; by left).
    + intros (v & w1 & _ & [= <- _])%bind_Ok. right; left. eauto.
    + intros (v & w1 & _ & [= <- _])%bind_Ok. right; left. eauto.
Qed.

(** A step only touches the key it is at. *)
Lemma json_field_frame cfg self key key' value data w data' w' :
  key ≠ key' →
  json_field fake_gen re_sub cfg self key value data w = (Ok data', w') →
  dict_get key' data' = dict_get key' data.
Proof.
  intros Hne [->|[[x ->]| ->]]%json_field_shape.
  - done.
  - by apply dict_get_set_ne.
  - by apply dict_get_del_ne.
Qed.

(** The value a terminated loop leaves under a key is the one the step at
    that key stored; the step found the value the loop started with. *)
Lemma for_items_at body used items data w out w' k v :
  (∀ k1 v1 d1 w1 d2 w2 k2, k1 ≠ k2 → body k1 v1 d1 w1 = (Ok d2, w2) →
     dict_get k2 d2 = dict_get k2 d1) →
  (∀ k1 v1 d1, log_mono (body k1 v1 d1)) →
  NoDup items.*1 → (k, v) ∈ items →
  for_items body used items data w = (Ok out, w') →
  ∃ d0 w0 d1 w1,
    dict_get k d0 = dict_get k data ∧ log_le w w0 ∧
    body k v d0 w0 = (Ok d1, w1) ∧
    dict_get k out = dict_get k d1 ∧ log_le w1 w'.
Proof.
  intros Hframe Hlog.
  assert (Hrest : ∀ l d w out w', k ∉ l.*1 →
            for_items body used l d w = (Ok out, w') →
            dict_get k out = dict_get k d ∧ log_le w w').
  { induction l as [|[k1 v1] l IH]; simpl; intros d w1 o w2 Hk.
    - case_match; [done|]. intros [= <- <-]. done.
    - case_match; [done|].
      intros (d2 & w3 & Hstep & Hloop)%bind_Ok.
      apply not_elem_of_cons in Hk as [Hne Hk].
      apply IH in Hloop as [-> Hl]; [|done].
      split.
      + eapply Hframe; [|done]. by intros ->.
      + etrans; [|done]. by eapply Hlog. }
  revert data w. induction items as [|[k1 v1] l IH]; simpl;
    intros data w Hnd Hin.
  - by apply elem_of_nil in Hin.
  - apply NoDup_cons in Hnd as [Hk1 Hnd]. case_match; [done|].
    intros (d2 & w3 & Hstep & Hloop)%bind_Ok.
    apply elem_of_cons in Hin as [[= <- <-]|Hin].
    + apply Hrest in Hloop as [Hout Hl]; [|done].
      exists data, w, d2, w3. done.
    + destruct (IH d2 w3 Hnd Hin Hloop) as (d0 & w0 & d1 & w1 & H0 & Hl0 & Hb & Ho & Hl1).
      exists d0, w0, d1, w1. split_and!; try done.
      * rewrite H0. eapply Hframe; [|done].
        intros ->. apply Hk1. apply list_elem_of_fmap. by exists (k, v).
      * etrans; [|done]. by eapply Hlog.
Qed.

(** The same for a list comprehension. *)
Lemma list_comp_at {A B : Type} (f : A → M B) (items : list A) w ys w' i x :
  (∀ x, log_mono (f x)) →
  items !! i = Some x →
  list_comp f items w = (Ok ys, w') →
  ∃ w0 y w1, log_le w w0 ∧ f x w0 = (Ok y, w1) ∧ ys !! i = Some y ∧ log_le w1 w'.
Proof.
  intros Hlog. revert i w ys. induction items as [|x0 l IH]; intros i w ys; [done|].
  simpl. intros Hi (y0 & w2 & Hx0 & (ys' & w3 & Hl & [= <- <-])%bind_Ok)%bind_Ok.
  destruct i as [|i]; simpl in *.
  - injection Hi as ->. exists w, y0, w2. split_and!; try done.
    eapply (log_mono_list_comp f l); [|done].
    apply Forall_forall. intros; apply Hlog.
  - destruct (IH _ _ _ Hi Hl) as (w0 & y & w1 & Hl0 & Hf & Hy & Hl1).
    exists w0, y, w1. split_and!; try done.
    etrans; [|done]. by eapply Hlog.
Qed.

(** The value the JSON adapter leaves under a key of an object. *)
Lemma anonymize_json_key depth cfg d w out w' k v :
  NoDup d.*1 → (k, v) ∈ d →
  anonymize_json fake_gen re_sub depth cfg (JDict d) w = (Ok out, w') →
  ∃ d' d0 w0 d1 w1,
    out = JDict d' ∧ dict_get k d0 = Some v ∧ log_le w w0 ∧
    json_field fake_gen re_sub cfg (anonymize_json fake_gen re_sub (pred depth) cfg)
      k v d0 w0 = (Ok d1, w1) ∧
    dict_get k d' = dict_get k d1 ∧ log_le w1 w'.
Proof.
  intros Hnd Hin. destruct depth as [|depth]; [done|]. simpl.
  intros (d' & w2 & Hloop & [= <- <-])%bind_Ok.
  eapply for_items_at in Hloop as (d0 & w0 & d1 & w1 & H0 & Hl0 & Hb & Ho & Hl1);
    [| |intros; apply log_mono_json_field; intros; apply log_mono_anonymize_json
     |done..].
  - exists d', d0, w0, d1, w1. split_and!; try done.
    rewrite H0. by apply elem_dict_get.
  - intros. by eapply json_field_frame.
Qed.

(** *** Removal inside the JSON loop *)

Lemma for_items_size_changed body used items data w :
  length data ≠ used →
  for_items body used items data w
  = (Raise (RuntimeError "dictionary changed size during iteration"), w).
Proof.
  intros Hne. apply Nat.eqb_neq in Hne.
  destruct items as [|[k v] l]; simpl; by rewrite Hne.
Qed.

Lemma json_rule_remove key r value data w :
  get_regex r = None → get_action r = "remove" →
  json_rule fake_gen re_sub key r value data w = (Ok (dict_del key data), w).
Proof. unfold json_rule. by intros -> ->. Qed.

Lemma for_items_remove_raises cfg self used items data w k v r :
  (∀ k', k' ∈ items.*1 → k' ∈ data.*1) →
  (k, v) ∈ items →
  dict_get k cfg = Some r → get_regex r = None → get_action r = "remove" →
  ∀ out w', for_items (json_field fake_gen re_sub cfg self) used items data w
            ≠ (Ok out, w').
Proof.
  intros Hkeys Hin Hk Hre Hact. revert data w Hkeys Hin.
  induction items as [|[k1 v1] l IH]; intros data w Hkeys Hin out w'.
  - by apply elem_of_nil in Hin.
  - simpl. destruct (length data =? used)%nat eqn:Hlen; simpl; [|done].
    apply Nat.eqb_eq in Hlen.
    intros (d2 & w2 & Hstep & Hloop)%bind_Ok.
    assert (Hk1 : k1 ∈ data.*1) by (apply Hkeys; left).
    assert (Hdel : ∀ key, key ∈ data.*1 → d2 = dict_del key data → False).
    { intros key Hkey ->. rewrite for_items_size_changed in Hloop; [done|].
      apply dict_del_length in Hkey. lia. }
    apply elem_of_cons in Hin as [[= <- <-]|Hin].
    + rewrite (json_field_ruled _ _ _ r) in Hstep; [|done].
      rewrite json_rule_remove in Hstep; [|done..].
      injection Hstep as <- _. by eapply Hdel.
    + apply json_field_shape in Hstep as [->|[[x ->]|Hd2]].
      * eapply IH; [|done..]. intros k' Hk'. apply Hkeys. by right.
      * eapply IH; [|done..]. intros k' Hk'.
        rewrite dict_set_keys; [|done]. apply Hkeys. by right.
      * by eapply Hdel.
Qed.

(** An object that has a key whose rule resolves to removal never comes
    back from the adapter. *)
Lemma anonymize_json_remove_raises depth cfg d w k v r :
  (k, v) ∈ d →
  dict_get k cfg = Some r → get_regex r = None → get_action r = "remove" →
  ∃ e w', anonymize_json fake_gen re_sub depth cfg (JDict d) w = (Raise e, w').
Proof.
  intros Hin Hk Hre Hact. destruct depth as [|depth]; [by eexists _, _|].
  simpl.
  destruct (for_items (json_field fake_gen re_sub cfg
              (anonymize_json fake_gen re_sub depth cfg)) (length d) d d w)
    as [[out|e] w1] eqn:E.
  - exfalso. eapply for_items_remove_raises; [| | | | |exact E]; done.
  - exists e, w1. by apply bind_Raise.
Qed.

(** *** The JSON steps of the rule branches *)

Lemma json_rule_regex key r value regex s s' data w :
  get_regex r = Some regex → value = JStr s →
  re_sub regex (get_placeholder r) s = ReOk s' →
  json_rule fake_gen re_sub key r value data w
  = (Ok (dict_set key (JStr s') data), w).
Proof. unfold json_rule. by intros -> -> ->. Qed.

Lemma json_rule_regex_error key r value regex s e data w :
  get_regex r = Some regex → value = JStr s →
  re_sub regex (get_placeholder r) s = ReError e →
  json_rule fake_gen re_sub key r value data w
  = (Ok data,
     add_log w ERROR ("Invalid regex for field " +:+ key +:+ ": " +:+ e)).
Proof. unfold json_rule. by intros -> -> ->. Qed.

Lemma json_rule_regex_raise key r value regex s e data w :
  get_regex r = Some regex → value = JStr s →
  re_sub regex (get_placeholder r) s = ReRaise e →
  json_rule fake_gen re_sub key r value data w = (Raise e, w).
Proof. unfold json_rule. by intros -> -> ->. Qed.

Lemma json_rule_regex_non_string key r value regex data w :
  get_regex r = Some regex → (∀ s, value ≠ JStr s) →
  json_rule fake_gen re_sub key r value data w
  = (Ok data,
     add_log w WARNING
       ("Field " +:+ key +:+ " with regex requires a string value, skipping.")).
Proof.
  unfold json_rule. intros -> Hs. destruct value; try done. by destruct (Hs s).
Qed.

Lemma json_rule_unknown key r value data w :
  get_regex r = None →
  get_action r ≠ "replace" → get_action r ≠ "remove" →
  json_rule fake_gen re_sub key r value data w
  = (Ok data,
     add_log w WARNING
       ("Unknown action '" +:+ get_action r +:+ "' for field '" +:+ key
        +:+ "'. Skipping.")).
Proof.
  unfold json_rule. intros -> H1%String.eqb_neq H2%String.eqb_neq.
  by rewrite H1, H2.
Qed.

Lemma json_rule_null key r value data w :
  get_regex r = None →
  get_action r = "replace" → get_placeholder r = "null" →
  json_rule fake_gen re_sub key r value data w
  = (Ok (dict_set key JNone data), w).
Proof. unfold json_rule. by intros -> -> ->. Qed.

(** The record is in every later log. *)
Lemma add_log_elem w w' l msg : log_le (add_log w l msg) w' → (l, msg) ∈ w_log w'.
Proof.
  intros [k Hk]. rewrite Hk. simpl.
  apply elem_of_app. left. apply elem_of_app. right. left.
Qed.

(** What the adapter returns for an object, when the step at a key stores
    the same value [x] whatever the state. *)
Lemma anonymize_json_stores depth cfg d w out w' k v x :
  NoDup d.*1 → (k, v) ∈ d →
  (∀ d0 w0 d1 w1,
     dict_get k d0 = Some v →
     json_field fake_gen re_sub cfg (anonymize_json fake_gen re_sub (pred depth) cfg)
       k v d0 w0 = (Ok d1, w1) →
     dict_get k d1 = Some x) →
  anonymize_json fake_gen re_sub depth cfg (JDict d) w = (Ok out, w') →
  ∃ d', out = JDict d' ∧ dict_get k d' = Some x.
Proof.
  intros Hnd Hin Hstep Hrun.
  destruct (anonymize_json_key _ _ _ _ _ _ _ _ Hnd Hin Hrun)
    as (d' & d0 & w0 & d1 & w1 & -> & H0 & _ & Hb & Ho & _).
  exists d'. split; [done|]. rewrite Ho. by eapply Hstep.
Qed.

(** The same when the step keeps the dict and logs one record. *)
Lemma anonymize_json_keeps depth cfg d w out w' k v l msg :
  NoDup d.*1 → (k, v) ∈ d →
  (∀ d0 w0,
     json_field fake_gen re_sub cfg (anonymize_json fake_gen re_sub (pred depth) cfg)
       k v d0 w0 = (Ok d0, add_log w0 l msg)) →
  anonymize_json fake_gen re_sub depth cfg (JDict d) w = (Ok out, w') →
  ∃ d', out = JDict d' ∧ dict_get k d' = Some v ∧ (l, msg) ∈ w_log w'.
Proof.
  intros Hnd Hin Hstep Hrun.
  destruct (anonymize_json_key _ _ _ _ _ _ _ _ Hnd Hin Hrun)
    as (d' & d0 & w0 & d1 & w1 & -> & H0 & _ & Hb & Ho & Hl).
  rewrite Hstep in Hb. injection Hb as <- <-.
  exists d'. split_and!; [done|by rewrite Ho|by eapply add_log_elem].
Qed.

(** *** More room changes nothing of a call that returns *)

Lemma list_comp_ext_Ok {A B : Type} (f g : A → M B) (items : list A) w ys w' :
  (∀ x w y w', f x w = (Ok y, w') → g x w = (Ok y, w')) →
  list_comp f items w = (Ok ys, w') → list_comp g items w = (Ok ys, w').
Proof.
  intros Hfg. revert w ys. induction items as [|x l IH]; intros w ys; simpl;
    [done|].
  intros (y & w1 & Hy & (ys' & w2 & Hl & [= <- <-])%bind_Ok)%bind_Ok.
  erewrite bind_eq; [|by apply Hfg]. erewrite bind_eq; [|by apply IH]. done.
Qed.

Lemma json_field_ext_Ok cfg (f g : json → M json) key value data w data' w' :
  (∀ x w y w', f x w = (Ok y, w') → g x w = (Ok y, w')) →
  json_field fake_gen re_sub cfg f key value data w = (Ok data', w') →
  json_field fake_gen re_sub cfg g key value data w = (Ok data', w').
Proof.
  intros Hfg. unfold json_field. destruct (dict_get key cfg); [done|].
  destruct value; try done.
  - intros (vs & w1 & Hvs & Hret)%bind_Ok.
    erewrite bind_eq; [done|]. by eapply list_comp_ext_Ok.
  - intros (v & w1 & Hv & Hret)%bind_Ok.
    erewrite bind_eq; [done|]. by apply Hfg.
Qed.

Lemma for_items_ext_Ok (f g : string → json → dict json → M (dict json))
    used items data w out w' :
  (∀ k v d w d' w', f k v d w = (Ok d', w') → g k v d w = (Ok d', w')) →
  for_items f used items data w = (Ok out, w') →
  for_items g used items data w = (Ok out, w').
Proof.
  intros Hfg. revert data w. induction items as [|[k v] l IH]; intros data w;
    simpl; [done|].
  case_match; [done|].
  intros (d2 & w2 & Hstep & Hloop)%bind_Ok.
  erewrite bind_eq; [|by apply Hfg]. by apply IH.
Qed.

Lemma anonymize_json_mono cfg n : ∀ m data w out w',
  (n ≤ m)%nat →
  anonymize_json fake_gen re_sub n cfg data w = (Ok out, w') →
  anonymize_json fake_gen re_sub m cfg data w = (Ok out, w').
Proof.
  induction n as [|n IH]; intros m data w out w' Hle; [done|].
  destruct m as [|m]; [lia|].
  assert (Hself : ∀ x w y w',
            anonymize_json fake_gen re_sub n cfg x w = (Ok y, w') →
            anonymize_json fake_gen re_sub m cfg x w = (Ok y, w')).
  { intros x w1 y w2. apply IH. lia. }
  destruct data; try done; simpl.
  - intros (vs & w1 & Hvs & Hret)%bind_Ok.
    erewrite bind_eq; [done|]. by eapply list_comp_ext_Ok.
  - intros (d' & w1 & Hd' & Hret)%bind_Ok.
    erewrite bind_eq; [done|].
    eapply for_items_ext_Ok; [|done].
    intros k v d0 w0 d1 w2. by apply json_field_ext_Ok.
Qed.

(** *** Traversal of the keys that have no rule *)

Lemma anonymize_json_scalar depth cfg v w :
  is_container v = false →
  anonymize_json fake_gen re_sub (S depth) cfg v w = (Ok v, w).
Proof. by destruct v. Qed.

Lemma anonymize_json_scalar_Ok depth cfg v w v' w' :
  is_container v = false →
  anonymize_json fake_gen re_sub depth cfg v w = (Ok v', w') → v' = v ∧ w' = w.
Proof.
  intros Hv. destruct depth as [|depth]; [done|].
  rewrite anonymize_json_scalar; [|done]. by intros [= -> ->].
Qed.

Lemma wf_json_dict d k v :
  wf_json (JDict d) = true → (k, v) ∈ d → NoDup d.*1 ∧ wf_json v = true.
Proof.
  simpl. intros [Hnd Hall]%andb_prop Hin. split.
  - by apply bool_decide_eq_true in Hnd.
  - rewrite forallb_forall in Hall.
    apply (Hall (k, v)). by apply list_elem_of_In.
Qed.

Lemma wf_json_list items i x :
  wf_json (JList items) = true → items !! i = Some x → wf_json x = true.
Proof.
  simpl. intros Hall Hi. rewrite forallb_forall in Hall.
  apply Hall. apply list_elem_of_In. by eapply list_elem_of_lookup_2.
Qed.

(** What the step at a key without rule stores is the adapter's image of
    the value. *)
Lemma json_field_image depth cfg k v d0 w0 d1 w1 :
  dict_get k cfg = None → dict_get k d0 = Some v →
  json_field fake_gen re_sub cfg (anonymize_json fake_gen re_sub depth cfg)
    k v d0 w0 = (Ok d1, w1) →
  ∃ v', anonymize_json fake_gen re_sub (S depth) cfg v w0 = (Ok v', w1)
        ∧ dict_get k d1 = Some v'.
Proof.
  intros Hk H0. destruct v.
  1-5: rewrite json_field_scalar; [|done..]; intros [= <- <-]; by eexists.
  - rewrite json_field_list; [|done].
    intros (vs & w2 & Hvs & [= <- <-])%bind_Ok.
    exists (JList vs). split; [|apply dict_get_set_eq].
    rewrite anonymize_json_list. by erewrite bind_eq.
  - rewrite json_field_dict; [|done].
    intros (v' & w2 & Hv' & [= <- <-])%bind_Ok.
    exists v'. split; [|apply dict_get_set_eq].
    eapply anonymize_json_mono; [|done]. lia.
Qed.

(** The value at a path without ruled key is the adapter's image of the
    value the input has there. *)
Lemma anonymize_json_at cfg p : ∀ depth data w out w' v,
  wf_json data = true →
  anonymize_json fake_gen re_sub depth cfg data w = (Ok out, w') →
  unruled cfg p → json_at p data = Some v →
  ∃ w1 v' w2,
    anonymize_json fake_gen re_sub depth cfg v w1 = (Ok v', w2) ∧
    json_at p out = Some v'.
Proof.
  induction p as [|[k|i] p IH]; intros depth data w out w' v Hwf Hrun Hp Hat.
  - injection Hat as <-. by exists w, out, w'.
  - destruct data as [ | | | | | |d]; try done. simpl in Hat.
    destruct (dict_get k d) as [dv|] eqn:Hk; [|done]. simpl in Hat.
    apply dict_get_elem in Hk.
    destruct (wf_json_dict _ _ _ Hwf Hk) as [Hnd Hwfv].
    destruct (anonymize_json_key _ _ _ _ _ _ _ _ Hnd Hk Hrun)
      as (d' & d0 & w0 & d1 & w1 & -> & H0 & _ & Hb & Ho & _).
    assert (Hkc : dict_get k cfg = None) by (apply Hp; left).
    destruct depth as [|depth]; [done|]. simpl in Hb.
    destruct (json_field_image _ _ _ _ _ _ _ _ Hkc H0 Hb) as (dv' & Hdv & Hget).
    destruct (IH (S depth) dv w0 dv' w1 v Hwfv Hdv) as (w3 & v' & w4 & Hv & Hat');
      [|done|].
    { intros k' Hk'. apply Hp. by right. }
    exists w3, v', w4. split; [done|]. simpl. by rewrite Ho, Hget.
  - destruct data as [ | | | | |items| ]; try done. simpl in Hat.
    destruct (items !! i) as [x|] eqn:Hi; [|done]. simpl in Hat.
    destruct depth as [|depth]; [done|].
    simpl in Hrun. apply bind_Ok in Hrun as (ys & w1 & Hcomp & [= <- <-]).
    eapply list_comp_at in Hcomp as (w0 & y & w2 & _ & Hx & Hy & _);
      [|apply log_mono_anonymize_json|done].
    destruct (IH depth x w0 y w2 v) as (w3 & v' & w4 & Hv & Hat'); [|done| |done|].
    { by eapply wf_json_list. }
    { intros k' Hk'. apply Hp. by right. }
    exists w3, v', w4. split; [|simpl; by rewrite Hy].
    eapply anonymize_json_mono; [|done]. lia.
Qed.

(** A scalar at such a path is the scalar of the input. *)
Lemma anonymize_json_frame depth cfg p data w out w' v :
  wf_json data = true →
  anonymize_json fake_gen re_sub depth cfg data w = (Ok out, w') →
  unruled cfg p → json_at p data = Some v → is_container v = false →
  json_at p out = Some v.
Proof.
  intros Hwf Hrun Hp Hat Hv.
  destruct (anonymize_json_at _ _ _ _ _ _ _ _ Hwf Hrun Hp Hat)
    as (w1 & v' & w2 & Hv' & Hout).
  by apply anonymize_json_scalar_Ok in Hv' as [-> _].
Qed.

(** *** When the JSON adapter returns *)

Lemma json_rule_Ok key r value data w :
  rule_safe re_sub r →
  ∃ data' w', json_rule fake_gen re_sub key r value data w = (Ok data', w').
Proof.
  intros Hsafe. unfold json_rule. destruct (get_regex r) as [regex|] eqn:Hre.
  - destruct value; try (unfold bind, logging, ret; simpl; eauto).
    destruct (re_sub regex (get_placeholder r) s) as [s'|err|e] eqn:Hsub;
      unfold bind, logging, ret; simpl; eauto.
    by destruct (Hsafe regex s e).
  - destruct (String.eqb (get_action r) "replace").
    + destruct (json_replacement_Ok (get_placeholder r) w) as (v & w1 & Hv).
      erewrite bind_eq; [|done]. unfold ret. eauto.
    + destruct (String.eqb (get_action r) "remove");
        unfold bind, logging, ret; simpl; eauto.
Qed.

Lemma json_rule_no_removal key r value data w data' w' :
  (get_regex r = None → get_action r ≠ "remove") →
  json_rule fake_gen re_sub key r value data w = (Ok data', w') →
  data' = data ∨ ∃ x, data' = dict_set key x data.
Proof.
  intros Hr Hrun.
  destruct (json_rule_shape _ _ _ _ _ _ _ Hrun) as [?|[?|Hdel]]; [by left|by right|].
  revert Hrun. unfold json_rule. destruct (get_regex r) as [regex|].
  - destruct value;
      try (unfold bind, logging, ret; simpl; intros [= <- _]; by left).
    destruct (re_sub regex (get_placeholder r) s) as [s'|e|e]; [| |done].
    + intros [= <- _]. right. eauto.
    + unfold bind, logging, ret; simpl. intros [= <- _]. by left.
  - destruct (String.eqb (get_action r) "replace").
    + intros (v & w1 & _ & [= <- _])%bind_Ok. right. eauto.
    + destruct (String.eqb (get_action r) "remove") eqn:E.
      * apply String.eqb_eq in E. by destruct Hr.
      * unfold bind, logging, ret; simpl. intros [= <- _]. by left.
Qed.

(** A step that deleted the key was at a rule that resolves to removal. *)
Lemma json_field_deleted cfg self key value data w w' :
  key ∈ data.*1 →
  json_field fake_gen re_sub cfg self key value data w
  = (Ok (dict_del key data), w') →
  ∃ r, dict_get key cfg = Some r ∧ get_regex r = None ∧ get_action r = "remove".
Proof.
  intros Hkey Hrun.
  assert (Hlen : ∀ d', (d' = data ∨ ∃ x, d' = dict_set key x data) →
                       d' ≠ dict_del key data).
  { intros d' Hd' Heq. pose proof (dict_del_length key data Hkey) as Hdl.
    assert (Hsame : length d' = length data).
    { destruct Hd' as [->|[x ->]]; [done|].
      rewrite <- !(length_fmap fst). by rewrite dict_set_keys. }
    rewrite Heq in Hsame. lia. }
  revert Hrun. unfold json_field. destruct (dict_get key cfg) as [r|] eqn:Hk.
  - intros Hrun. exists r. split; [done|].
    destruct (get_regex r) as [regex|] eqn:Hre.
    + exfalso. eapply Hlen; [|done].
      eapply json_rule_no_removal; [|done]. by rewrite Hre.
    + split; [done|].
      destruct (decide (get_action r = "remove")) as [?|Hne]; [done|].
      exfalso. eapply Hlen; [|done].
      eapply json_rule_no_removal; [|done]. done.
  - intros Hrun. exfalso. eapply Hlen; [|done].
    destruct value; try (injection Hrun as <- _; by left).
    + apply bind_Ok in Hrun as (v & w1 & _ & [= <- _]). right. eauto.
    + apply bind_Ok in Hrun as (v & w1 & _ & [= <- _]). right. eauto.
Qed.

Lemma list_comp_Ok {A B : Type} (f : A → M B) (items : list A) w :
  Forall (λ x, ∀ w, ∃ y w', f x w = (Ok y, w')) items →
  ∃ ys w', list_comp f items w = (Ok ys, w').
Proof.
  intros Hall. revert w. induction Hall as [|x l Hx Hl IH]; intros w; simpl.
  - unfold ret. eauto.
  - destruct (Hx w) as (y & w1 & Hy). erewrite bind_eq; [|done].
    destruct (IH w1) as (ys & w2 & Hys). erewrite bind_eq; [|done].
    unfold ret. eauto.
Qed.

Lemma json_depth_item items x :
  x ∈ items → (json_depth x < json_depth (JList items))%nat.
Proof.
  intros Hx. simpl. apply Nat.lt_succ_r.
  apply max_list_elem_of_le. apply list_elem_of_fmap. by exists x.
Qed.

Lemma json_depth_value d k v :
  (k, v) ∈ d → (json_depth v < json_depth (JDict d))%nat.
Proof.
  intros Hx. simpl. apply Nat.lt_succ_r.
  apply max_list_elem_of_le. apply list_elem_of_fmap. by exists (k, v).
Qed.

Lemma json_depth_pos (data : json) : (0 < json_depth data)%nat.
Proof. destruct data; simpl; lia. Qed.

(** With room for the nesting of the document, without a rule that
    resolves to removal and with an engine that raises nothing but
    [re.error] on the regexes of the rules, the adapter returns. *)
Lemma anonymize_json_Ok cfg :
  no_removal cfg → re_safe re_sub cfg →
  ∀ depth data, (json_depth data ≤ depth)%nat →
  ∀ w, ∃ out w', anonymize_json fake_gen re_sub depth cfg data w = (Ok out, w').
Proof.
  intros Hcfg Hsafe.
  induction depth as [|depth IH]; intros data Hdepth w.
  { pose proof (json_depth_pos data). lia. }
  destruct data as [ | | | | |items|d]; simpl; try (unfold ret; by eauto).
  - destruct (list_comp_Ok (anonymize_json fake_gen re_sub depth cfg) items w)
      as (ys & w1 & Hys).
    { apply Forall_forall. intros x Hx. apply IH.
      pose proof (json_depth_item items x Hx). lia. }
    erewrite bind_eq; [|done]. unfold ret. eauto.
  - assert (Hloop : ∀ l data w,
              (∀ kv, kv ∈ l → kv ∈ d) →
              (∀ k', k' ∈ l.*1 → k' ∈ data.*1) →
              length data = length d →
              ∃ out w', for_items (json_field fake_gen re_sub cfg
                           (anonymize_json fake_gen re_sub depth cfg)) (length d) l data w
                        = (Ok out, w')).
    { clear w. induction l as [|[k v] l IHl]; intros data w Hsub Hkeys Hlen;
        simpl; rewrite Hlen, Nat.eqb_refl; simpl.
      - unfold ret. eauto.
      - assert (Hin : (k, v) ∈ d) by (apply Hsub; left).
        pose proof (json_depth_value d k v Hin) as Hv.
        assert (Hk : k ∈ data.*1) by (apply Hkeys; left).
        assert (∃ d2 w2,
                  json_field fake_gen re_sub cfg
                    (anonymize_json fake_gen re_sub depth cfg) k v data w
                  = (Ok d2, w2)
                  ∧ (d2 = data ∨ ∃ x, d2 = dict_set k x data))
          as (d2 & w2 & Hstep & Hshape).
        { destruct (dict_get k cfg) as [r|] eqn:Hkc.
          - rewrite (json_field_ruled _ _ _ r); [|done].
            destruct (json_rule_Ok k r v data w) as (d2 & w2 & Hstep).
            { eapply Hsafe. by apply dict_get_elem. }
            exists d2, w2. split; [done|].
            eapply json_rule_no_removal; [|done]. by apply (Hcfg k).
          - destruct v as [ | | | | |items|dv].
            1-5: rewrite json_field_scalar; [|done..]; unfold ret;
              eexists _, _; (split; [done|by left]).
            + rewrite json_field_list; [|done].
              destruct (list_comp_Ok (anonymize_json fake_gen re_sub depth cfg)
                          items w) as (ys & w1 & Hys).
              { apply Forall_forall. intros x Hx. apply IH.
                pose proof (json_depth_item items x Hx). lia. }
              erewrite bind_eq; [|done].
              unfold ret. eexists _, _. split; [done|]. right. eauto.
            + rewrite json_field_dict; [|done].
              destruct (IH (JDict dv) ltac:(lia) w) as (v' & w2 & Hv').
              erewrite bind_eq; [|done].
              unfold ret. eexists _, _. split; [done|]. right. eauto. }
        erewrite bind_eq; [|done].
        apply IHl.
        + intros kv Hkv. apply Hsub. by right.
        + intros k' Hk'. destruct Hshape as [->|[x ->]].
          * apply Hkeys. by right.
          * rewrite dict_set_keys; [|done]. apply Hkeys. by right.
        + destruct Hshape as [->|[x ->]]; [done|].
          rewrite <- Hlen, <- !(length_fmap fst). by rewrite dict_set_keys. }
    destruct (Hloop d d w) as (out & w1 & Hout); [done..|].
    erewrite bind_eq; [|done]. unfold ret. eauto.
Qed.

(** *** The rows that [csv.DictReader] builds *)

Lemma foldl_insert_const (keys : list string) (x : cell)
    (d : gmap string cell) (f : string) :
  foldl (λ d key, <[key := x]> d) d keys !! f
  = if decide (f ∈ keys) then Some x else d !! f.
Proof.
  revert d. induction keys as [|k l IH]; intros d; cbn [foldl].
  - rewrite decide_False; [done|apply not_elem_of_nil].
  - rewrite IH. destruct (decide (f ∈ l)) as [Hl|Hl].
    + rewrite decide_True; [done|by right].
    + destruct (decide (f = k)) as [->|Hne].
      * rewrite lookup_insert_eq. rewrite decide_True; [done|left].
      * rewrite lookup_insert_ne; [|done].
        rewrite decide_False; [done|]. by intros [?|?]%elem_of_cons.
Qed.

Lemma foldl_insert_pairs_ne (l : list (string * string))
    (d : gmap string cell) (f : string) :
  f ∉ l.*1 → foldl (λ d kv, <[kv.1 := Some kv.2]> d) d l !! f = d !! f.
Proof.
  revert d. induction l as [|[k c] l IH]; intros d; simpl; [done|].
  intros [Hne Hl]%not_elem_of_cons. rewrite IH; [|done].
  by rewrite lookup_insert_ne.
Qed.

Lemma foldl_insert_pairs_Some (l : list (string * string))
    (d : gmap string cell) (f : string) :
  f ∈ l.*1 → is_Some (foldl (λ d kv, <[kv.1 := Some kv.2]> d) d l !! f).
Proof.
  revert d. induction l as [|[k c] l IH]; intros d; simpl.
  - intros H. by apply elem_of_nil in H.
  - intros H. destruct (decide (f ∈ l.*1)) as [Hl|Hl]; [by apply IH|].
    rewrite foldl_insert_pairs_ne; [|done].
    apply elem_of_cons in H as [->|H]; [|done].
    rewrite lookup_insert_eq. eauto.
Qed.

Lemma foldl_insert_pairs_NoDup (l : list (string * string))
    (d : gmap string cell) (f c : string) :
  NoDup l.*1 → (f, c) ∈ l →
  foldl (λ d kv, <[kv.1 := Some kv.2]> d) d l !! f = Some (Some c).
Proof.
  revert d. induction l as [|[k c'] l IH]; intros d; simpl.
  - intros _ H. by apply elem_of_nil in H.
  - intros [Hk Hnd]%NoDup_cons [[= <- <-]|Hin]%elem_of_cons.
    + rewrite foldl_insert_pairs_ne; [|done]. by rewrite lookup_insert_eq.
    + by apply IH.
Qed.

Lemma zip_keys_take {A B : Type} (l : list A) (k : list B) :
  (zip l k).*1 = take (length k) l.
Proof.
  revert k. induction l as [|x l IH]; intros [|y k]; simpl; try done.
  by rewrite IH.
Qed.

(** Every column of the header has a cell in the row dict. *)
Lemma dict_reader_row_is_Some (fieldnames line : list string) (f : string) :
  f ∈ fieldnames → is_Some (dict_reader_row fieldnames line !! f).
Proof.
  intros Hf. unfold dict_reader_row. rewrite foldl_insert_const.
  case_decide as Hd; [eauto|].
  apply foldl_insert_pairs_Some. rewrite zip_keys_take.
  rewrite <- (take_drop (length line) fieldnames) in Hf.
  by apply elem_of_app in Hf as [Hf|Hf].
Qed.

(** A column the line does not reach holds [None]. *)
Lemma dict_reader_row_short (fieldnames line : list string) (i : nat)
    (f : string) :
  fieldnames !! i = Some f → (length line ≤ i)%nat →
  dict_reader_row fieldnames line !! f = Some None.
Proof.
  intros Hi Hlen. unfold dict_reader_row. rewrite foldl_insert_const.
  rewrite decide_True; [done|].
  apply list_elem_of_lookup. exists (i - length line).
  rewrite lookup_drop. by replace (length line + (i - length line)) with i by lia.
Qed.

(** With distinct column names, a column the line reaches holds its cell. *)
Lemma dict_reader_row_cell (fieldnames line : list string) (i : nat)
    (f c : string) :
  NoDup fieldnames → fieldnames !! i = Some f → line !! i = Some c →
  dict_reader_row fieldnames line !! f = Some (Some c).
Proof.
  intros Hnd Hi Hc. unfold dict_reader_row. rewrite foldl_insert_const.
  assert (Hlt : (i < length line)%nat) by by eapply lookup_lt_Some.
  rewrite decide_False.
  - apply foldl_insert_pairs_NoDup.
    + rewrite zip_keys_take. eapply sublist_NoDup; [done|apply sublist_take].
    + apply list_elem_of_lookup. exists i.
      rewrite lookup_zip_with. by rewrite Hi, Hc.
  - intros [j Hj]%list_elem_of_lookup. rewrite lookup_drop in Hj.
    pose proof (NoDup_lookup _ _ _ _ Hnd Hi Hj). lia.
Qed.

(** *** The CSV loop over the columns *)

Lemma log_mono_csv_replacement p : log_mono (csv_replacement fake_gen p).
Proof.
  unfold csv_replacement.
  repeat case_match;
    try (apply log_mono_bind; [apply log_mono_fake | intros; apply log_mono_ret]);
    apply log_mono_ret.
Qed.

Lemma log_mono_csv_rule field r value :
  log_mono (csv_rule fake_gen re_sub field r value).
Proof.
  unfold csv_rule.
  repeat case_match;
    repeat first
      [ apply log_mono_ret
      | apply log_mono_raise
      | apply log_mono_logging
      | apply log_mono_csv_replacement
      | apply log_mono_bind; [|intros] ].
Qed.

Lemma csv_replacement_Ok p w :
  ∃ v w', csv_replacement fake_gen p w = (Ok v, w').
Proof.
  unfold csv_replacement, bind, fake, ret.
  repeat case_match; simplify_eq; eauto.
Qed.

(** The rule branch returns, unless the engine raises something else than
    [re.error]. *)
Lemma csv_rule_Ok field r value w :
  rule_safe re_sub r →
  ∃ v w', csv_rule fake_gen re_sub field r value w = (Ok v, w').
Proof.
  intros Hsafe. unfold csv_rule. destruct (get_regex r) as [regex|] eqn:Hre.
  - destruct value as [s|]; [|unfold bind, logging, ret; simpl; eauto].
    destruct (re_sub regex (get_placeholder r) s) as [s'|err|e] eqn:Hsub;
      unfold bind, logging, ret; simpl; eauto.
    by destruct (Hsafe regex s e).
  - destruct (String.eqb (get_action r) "replace");
      [apply csv_replacement_Ok|].
    destruct (String.eqb (get_action r) "remove");
      unfold bind, logging, ret; simpl; eauto.
Qed.

Lemma log_mono_csv_field cfg row field acc :
  log_mono (csv_field fake_gen re_sub cfg row field acc).
Proof.
  unfold csv_field. destruct (dict_get field cfg) as [r|].
  - apply log_mono_bind; [apply log_mono_csv_rule|intros; apply log_mono_ret].
  - destruct (row !! field); [apply log_mono_ret|apply log_mono_raise].
Qed.

(** A step assigns its own column and nothing else. *)
Lemma csv_field_inv cfg row field acc w m w' :
  csv_field fake_gen re_sub cfg row field acc w = (Ok m, w') →
  ∃ v, m = <[field := v]> acc.
Proof.
  unfold csv_field. destruct (dict_get field cfg) as [r|].
  - intros (v & w1 & _ & [= <- _])%bind_Ok. eauto.
  - destruct (row !! field) as [v|]; [|done]. intros [= <- _]. eauto.
Qed.

Lemma csv_field_Ok cfg row field acc w :
  is_Some (row !! field) →
  (∀ r, dict_get field cfg = Some r → rule_safe re_sub r) →
  ∃ m w', csv_field fake_gen re_sub cfg row field acc w = (Ok m, w').
Proof.
  intros [c Hc] Hsafe. unfold csv_field. destruct (dict_get field cfg) as [r|].
  - destruct (csv_rule_Ok field r (default (Some "") (row !! field)) w)
      as (v & w1 & Hv); [by apply Hsafe|].
    erewrite bind_eq; [|done]. unfold ret. eauto.
  - rewrite Hc. unfold ret. eauto.
Qed.

Lemma for_each_csv_field_Ok cfg row fields acc w :
  (∀ f, f ∈ fields → is_Some (row !! f)) →
  (∀ f r, f ∈ fields → dict_get f cfg = Some r → rule_safe re_sub r) →
  ∃ m w', for_each (csv_field fake_gen re_sub cfg row) fields acc w = (Ok m, w').
Proof.
  revert acc w. induction fields as [|f l IH]; intros acc w Hrow Hsafe; simpl.
  - unfold ret. eauto.
  - destruct (csv_field_Ok cfg row f acc w) as (m1 & w1 & H1);
      [apply Hrow; left|intros r; apply Hsafe; left|].
    erewrite bind_eq; [|done]. apply IH.
    + intros f' Hf'. apply Hrow. by right.
    + intros f' r Hf'. apply Hsafe. by right.
Qed.

(** The keys of the row built are columns of the header. *)
Lemma for_each_csv_field_keys cfg row fields acc w m w' :
  for_each (csv_field fake_gen re_sub cfg row) fields acc w = (Ok m, w') →
  ∀ k, is_Some (m !! k) → k ∈ fields ∨ is_Some (acc !! k).
Proof.
  revert acc w. induction fields as [|f l IH]; intros acc w; simpl.
  - intros [= <- _] k Hk. by right.
  - intros (m1 & w1 & Hstep & Hloop)%bind_Ok k Hk.
    apply csv_field_inv in Hstep as [v ->].
    destruct (IH _ _ Hloop k Hk) as [Hl|Hm1]; [left; by right|].
    destruct (decide (f = k)) as [->|Hne]; [left; left|].
    right. by rewrite lookup_insert_ne in Hm1.
Qed.

Lemma for_each_csv_field_other cfg row fields acc w m w' f :
  f ∉ fields →
  for_each (csv_field fake_gen re_sub cfg row) fields acc w = (Ok m, w') →
  m !! f = acc !! f.
Proof.
  revert acc w. induction fields as [|f1 l IH]; intros acc w Hf; simpl.
  - by intros [= <- _].
  - apply not_elem_of_cons in Hf as [Hne Hf].
    intros (m1 & w1 & Hstep & Hloop)%bind_Ok.
    apply csv_field_inv in Hstep as [v ->].
    rewrite (IH _ _ Hf Hloop). by rewrite lookup_insert_ne.
Qed.

(** When the step at a column stores the same cell whatever the state,
    that cell is in the row built. *)
Lemma for_each_csv_field_value cfg row fields acc w m w' f v :
  f ∈ fields →
  (∀ acc0 w0 m1 w1,
     csv_field fake_gen re_sub cfg row f acc0 w0 = (Ok m1, w1) →
     m1 = <[f := v]> acc0) →
  for_each (csv_field fake_gen re_sub cfg row) fields acc w = (Ok m, w') →
  m !! f = Some v.
Proof.
  intros Hf Hstep. revert acc w Hf.
  induction fields as [|f1 l IH]; intros acc w Hf; simpl.
  - by apply elem_of_nil in Hf.
  - intros (m1 & w1 & H1 & Hloop)%bind_Ok.
    destruct (decide (f ∈ l)) as [Hl|Hl]; [by eapply IH|].
    apply elem_of_cons in Hf as [<-|Hf]; [|done].
    rewrite (for_each_csv_field_other _ _ _ _ _ _ _ _ Hl Hloop).
    apply Hstep in H1 as ->. by rewrite lookup_insert_eq.
Qed.

(** *** Writing the rows *)

Lemma length_dict_to_list (fieldnames : list string) (m : gmap string cell) :
  length (dict_to_list fieldnames m) = length fieldnames.
Proof. unfold dict_to_list. by rewrite length_map. Qed.

Lemma dict_to_list_lookup (fieldnames : list string) (m : gmap string cell)
    (i : nat) (f : string) :
  fieldnames !! i = Some f →
  dict_to_list fieldnames m !! i = Some (cell_str (default (Some "") (m !! f))).
Proof.
  intros Hi. unfold dict_to_list.
  change (map ?g fieldnames) with (g <$> fieldnames).
  by rewrite list_lookup_fmap, Hi.
Qed.

(** A row whose keys are columns of the header is written when the writer
    accepts its cells, and refused with the writer's exception, the file
    left as it is, when it does not. *)
Lemma dict_writer_writerow_Ok write_error (fieldnames : list string)
    (m : gmap string cell) w pre :
  (∀ k, is_Some (m !! k) → k ∈ fieldnames) →
  write_error (dict_to_list fieldnames m) = None →
  w_output w = Some (CsvFile pre) →
  dict_writer_writerow write_error fieldnames m w
  = (Ok tt, World (w_faker w) (w_log w)
              (Some (CsvFile (pre ++ [dict_to_list fieldnames m])))).
Proof.
  intros Hkeys Hacc Hout. unfold dict_writer_writerow.
  rewrite bool_decide_eq_true_2.
  - unfold writer_writerow. by rewrite Hacc, Hout.
  - intros k c Hk. apply Hkeys. eauto.
Qed.

Lemma dict_writer_writerow_refused write_error (fieldnames : list string)
    (m : gmap string cell) w e :
  (∀ k, is_Some (m !! k) → k ∈ fieldnames) →
  write_error (dict_to_list fieldnames m) = Some e →
  dict_writer_writerow write_error fieldnames m w = (Raise e, w).
Proof.
  intros Hkeys Hacc. unfold dict_writer_writerow.
  rewrite bool_decide_eq_true_2.
  - unfold writer_writerow. by rewrite Hacc.
  - intros k c Hk. apply Hkeys. eauto.
Qed.

(** The header row that [writeheader] writes is the header. *)
Lemma header_row_lookup (fieldnames : list string) (f : string) :
  (list_to_map (zip fieldnames (Some <$> fieldnames)) : gmap string cell) !! f
  = if decide (f ∈ fieldnames) then Some (Some f) else None.
Proof.
  induction fieldnames as [|k l IH].
  - rewrite decide_False; [done|apply not_elem_of_nil].
  - rewrite fmap_cons. cbn [zip_with]. rewrite list_to_map_cons.
    destruct (decide (f = k)) as [->|Hne].
    + rewrite lookup_insert_eq. rewrite decide_True; [done|left].
    + rewrite lookup_insert_ne; [|done]. rewrite IH.
      destruct (decide (f ∈ l)) as [Hl|Hl].
      * rewrite decide_True; [done|by right].
      * rewrite decide_False; [done|]. by intros [?|?]%elem_of_cons.
Qed.

Lemma header_row_cells (fieldnames : list string) :
  dict_to_list fieldnames (list_to_map (zip fieldnames (Some <$> fieldnames)))
  = fieldnames.
Proof.
  apply list_eq. intros i.
  destruct (fieldnames !! i) as [f|] eqn:Hi.
  - rewrite (dict_to_list_lookup _ _ _ _ Hi), header_row_lookup.
    rewrite decide_True; [done|]. by eapply list_elem_of_lookup_2.
  - apply lookup_ge_None. rewrite length_dict_to_list. by apply lookup_ge_None.
Qed.

Lemma header_row_keys (fieldnames : list string) (k : string) :
  is_Some ((list_to_map (zip fieldnames (Some <$> fieldnames))
            : gmap string cell) !! k) → k ∈ fieldnames.
Proof. intros [c Hk]. rewrite header_row_lookup in Hk. by case_decide. Qed.

(** *** What leaves the output file alone *)

Lemma keeps_output_ret {A : Type} (a : A) : keeps_output (ret a).
Proof. by intros w res w' [= _ <-]. Qed.

Lemma keeps_output_raise {A : Type} (e : exn) : keeps_output (raise (A:=A) e).
Proof. by intros w res w' [= _ <-]. Qed.

Lemma keeps_output_logging l msg : keeps_output (logging l msg).
Proof. by intros w res w' [= _ <-]. Qed.

Lemma keeps_output_fake c : keeps_output (fake fake_gen c).
Proof.
  intros w res w'. unfold fake. destruct (fake_gen c (w_faker w)) as [s f'].
  by intros [= _ <-].
Qed.

Lemma keeps_output_bind {A B : Type} (m : M A) (k : A → M B) :
  keeps_output m → (∀ a, keeps_output (k a)) → keeps_output (bind m k).
Proof.
  intros Hm Hk w res w'. unfold bind.
  destruct (m w) as [[a|e] w1] eqn:E.
  - intros H. rewrite (Hk _ _ _ _ H). by eapply Hm.
  - intros [= _ <-]. by eapply Hm.
Qed.

Lemma keeps_output_for_each {A S : Type} (body : A → S → M S) (items : list A) :
  (∀ x s, keeps_output (body x s)) → ∀ s, keeps_output (for_each body items s).
Proof.
  intros Hb. induction items as [|x l IH]; simpl; intros s.
  - apply keeps_output_ret.
  - apply keeps_output_bind; [apply Hb|]. intros s'. apply IH.
Qed.

Lemma keeps_output_csv_field cfg row field acc :
  keeps_output (csv_field fake_gen re_sub cfg row field acc).
Proof.
  unfold csv_field, csv_rule, csv_replacement.
  repeat case_match;
    repeat first
      [ apply keeps_output_ret
      | apply keeps_output_raise
      | apply keeps_output_logging
      | apply keeps_output_fake
      | apply keeps_output_bind; [|intros] ].
Qed.

(** *** One row of the CSV adapter *)

(** The row is computed, then written: the step either adds one row to
    the file, the image of the line, or raises and leaves the file as it
    is. *)
Lemma csv_row_outcome write_error cfg (header line : list string) w pre res w' :
  w_output w = Some (CsvFile pre) →
  csv_row fake_gen re_sub write_error cfg header (dict_reader_row header line) w
  = (res, w') →
  log_le w w'
  ∧ ((res = Ok tt
      ∧ ∃ out, w_output w' = Some (CsvFile (pre ++ [out]))
               ∧ csv_written fake_gen re_sub cfg header line out
               ∧ write_error out = None)
     ∨ (∃ e, res = Raise e) ∧ w_output w' = Some (CsvFile pre)).
Proof.
  intros Hout. unfold csv_row, bind.
  destruct (for_each _ header ∅ w) as [[m|e] w1] eqn:Hm.
  - assert (Hlog : log_le w w1).
    { eapply log_mono_for_each; [|done]. intros; apply log_mono_csv_field. }
    assert (Hout1 : w_output w1 = Some (CsvFile pre)).
    { rewrite <- Hout. eapply keeps_output_for_each; [|done].
      intros; apply keeps_output_csv_field. }
    assert (Hkeys : ∀ k, is_Some (m !! k) → k ∈ header).
    { intros k Hk.
      destruct (for_each_csv_field_keys _ _ _ _ _ _ _ Hm k Hk) as [?|Hempty];
        [done|].
      rewrite lookup_empty in Hempty. by destruct Hempty. }
    destruct (write_error (dict_to_list header m)) as [e|] eqn:Hacc.
    + rewrite (dict_writer_writerow_refused _ _ _ _ e); [|done..].
      intros [= <- <-]. split; [done|]. right. eauto.
    + rewrite (dict_writer_writerow_Ok _ _ _ _ pre); [|done..].
      intros [= <- <-]. split; [etrans; [done|by apply log_le_same]|].
      left. split; [done|]. eexists. split_and!; [done| |done].
      by exists m, w, w1.
  - intros [= <- <-]. split.
    + eapply log_mono_for_each; [|done]. intros; apply log_mono_csv_field.
    + right. split; [eauto|]. rewrite <- Hout.
      eapply keeps_output_for_each; [|done].
      intros; apply keeps_output_csv_field.
Qed.

(** With an engine that raises nothing but [re.error] on the regexes of
    the columns and a writer that accepts the row, the row is written. *)
Lemma csv_row_spec write_error cfg (header line : list string) w pre :
  (∀ f r, f ∈ header → dict_get f cfg = Some r → rule_safe re_sub r) →
  (∀ out, csv_written fake_gen re_sub cfg header line out →
          write_error out = None) →
  w_output w = Some (CsvFile pre) →
  ∃ out w',
    csv_row fake_gen re_sub write_error cfg header (dict_reader_row header line) w
    = (Ok tt, w')
    ∧ w_output w' = Some (CsvFile (pre ++ [out]))
    ∧ csv_written fake_gen re_sub cfg header line out
    ∧ log_le w w'.
Proof.
  intros Hsafe Hacc Hout.
  destruct (for_each_csv_field_Ok cfg (dict_reader_row header line) header ∅ w)
    as (m & w1 & Hm); [|done|].
  { intros f Hf. by apply dict_reader_row_is_Some. }
  assert (Hlog : log_le w w1).
  { eapply log_mono_for_each; [|done]. intros; apply log_mono_csv_field. }
  assert (Hw : csv_written fake_gen re_sub cfg header line (dict_to_list header m))
    by by exists m, w, w1.
  destruct (csv_row fake_gen re_sub write_error cfg header
              (dict_reader_row header line) w) as [res w'] eqn:Hrow.
  pose proof Hrow as Hrow'. unfold csv_row in Hrow'.
  erewrite bind_eq in Hrow'; [|done].
  assert (Hout1 : w_output w1 = Some (CsvFile pre)).
  { rewrite <- Hout. eapply keeps_output_for_each; [|done].
    intros; apply keeps_output_csv_field. }
  rewrite (dict_writer_writerow_Ok _ _ _ _ pre) in Hrow'; [| |by apply Hacc|done].
  - injection Hrow' as <- <-. eexists _, _. split_and!; [done|done|done|].
    etrans; [done|]. by apply log_le_same.
  - intros k Hk.
    destruct (for_each_csv_field_keys _ _ _ _ _ _ _ Hm k Hk) as [?|Hempty];
      [done|].
    rewrite lookup_empty in Hempty. by destruct Hempty.
Qed.

(** *** The rows of the CSV adapter *)

Lemma csv_records_blank (rows : list (list string)) :
  csv_records ([] :: rows) = csv_records rows.
Proof. unfold csv_records. by rewrite filter_cons_False; [|intros H]. Qed.

Lemma csv_records_cons (c : string) (line : list string)
    (rows : list (list string)) :
  csv_records ((c :: line) :: rows) = (c :: line) :: csv_records rows.
Proof. unfold csv_records. by rewrite filter_cons_True. Qed.

(** Whatever happens, the rows added to the file are the images, in
    order, of the first records the reader delivers. *)
Lemma csv_rows_prefix write_error cfg (header : list string)
    (lines : list (result (list string))) : ∀ w pre res w',
  w_output w = Some (CsvFile pre) →
  csv_rows fake_gen re_sub write_error cfg header lines w = (res, w') →
  ∃ recs outs,
    w_output w' = Some (CsvFile (pre ++ outs))
    ∧ recs `prefix_of` csv_records (readable lines)
    ∧ Forall2 (csv_written fake_gen re_sub cfg header) recs outs
    ∧ log_le w w'.
Proof.
  induction lines as [|[line|e] lines IH]; intros w pre res w' Hout; simpl.
  - intros [= <- <-]. exists [], []. rewrite app_nil_r. by split_and!.
  - destruct line as [|c line].
    + rewrite csv_records_blank. by apply IH.
    + rewrite csv_records_cons. unfold bind.
      destruct (csv_row _ _ _ _ header _ w) as [res1 w1] eqn:Hrow.
      destruct (csv_row_outcome _ _ _ _ _ _ _ _ Hout Hrow)
        as [Hl1 [[-> (out & Ho1 & Hw & _)]|[[e ->] Ho1]]].
      * intros Hrest.
        destruct (IH _ _ _ _ Ho1 Hrest) as (recs & outs & Ho & Hpre & Hall & Hl).
        exists ((c :: line) :: recs), (out :: outs). split_and!.
        -- rewrite Ho. by rewrite <- app_assoc.
        -- by apply prefix_cons.
        -- by constructor.
        -- by etrans.
      * intros [= <- <-]. exists [], []. rewrite app_nil_r.
        split_and!; [done|apply prefix_nil|done|done].
  - intros [= <- <-]. exists [], []. rewrite app_nil_r.
    split_and!; [done|apply prefix_nil|done|done].
Qed.

(** Lines that all read, an engine that raises nothing but [re.error] and
    a writer that accepts the rows: every record is written. *)
Lemma csv_rows_spec write_error cfg (header : list string)
    (rows : list (list string)) w pre :
  (∀ f r, f ∈ header → dict_get f cfg = Some r → rule_safe re_sub r) →
  (∀ line out, line ∈ csv_records rows →
     csv_written fake_gen re_sub cfg header line out → write_error out = None) →
  w_output w = Some (CsvFile pre) →
  ∃ outs w',
    csv_rows fake_gen re_sub write_error cfg header (Ok <$> rows) w = (Ok tt, w')
    ∧ w_output w' = Some (CsvFile (pre ++ outs))
    ∧ Forall2 (csv_written fake_gen re_sub cfg header) (csv_records rows) outs
    ∧ log_le w w'.
Proof.
  intros Hsafe. revert w pre.
  induction rows as [|line rows IH]; intros w pre Hacc Hout.
  - exists [], w. rewrite app_nil_r. by split_and!.
  - destruct line as [|c line].
    + rewrite csv_records_blank in *.
      destruct (IH w pre Hacc Hout) as (outs & w' & Hrun & Ho & Hall & Hl).
      exists outs, w'. split_and!; try done.
    + rewrite csv_records_cons in *.
      destruct (csv_row_spec write_error cfg header (c :: line) w pre Hsafe)
        as (out & w1 & Hrow & Ho1 & Hw & Hl1); [|done|].
      { intros out. apply Hacc. left. }
      destruct (IH w1 (pre ++ [out])%list) as (outs & w' & Hrun & Ho & Hall & Hl);
        [|done|].
      { intros l o Hl. apply Hacc. by right. }
      exists (out :: outs), w'. split_and!.
      * rewrite fmap_cons. cbn [csv_rows].
        erewrite bind_eq; [|done]. done.
      * rewrite Ho. by rewrite <- app_assoc.
      * by constructor.
      * by etrans.
Qed.

(** The same up to a line that does not read. *)
Lemma csv_rows_failure write_error cfg (header : list string)
    (rows : list (list string)) e rest w pre :
  (∀ f r, f ∈ header → dict_get f cfg = Some r → rule_safe re_sub r) →
  (∀ line out, line ∈ csv_records rows →
     csv_written fake_gen re_sub cfg header line out → write_error out = None) →
  w_output w = Some (CsvFile pre) →
  ∃ outs w',
    csv_rows fake_gen re_sub write_error cfg header
      ((Ok <$> rows) ++ Raise e :: rest) w
    = (Raise e, w')
    ∧ w_output w' = Some (CsvFile (pre ++ outs))
    ∧ Forall2 (csv_written fake_gen re_sub cfg header) (csv_records rows) outs.
Proof.
  intros Hsafe. revert w pre.
  induction rows as [|line rows IH]; intros w pre Hacc Hout.
  - exists [], w. rewrite app_nil_r. by split_and!.
  - destruct line as [|c line].
    + rewrite csv_records_blank in *.
      destruct (IH w pre Hacc Hout) as (outs & w' & Hrun & Ho & Hall).
      exists outs, w'. by split_and!.
    + rewrite csv_records_cons in *.
      destruct (csv_row_spec write_error cfg header (c :: line) w pre Hsafe)
        as (out & w1 & Hrow & Ho1 & Hw & _); [|done|].
      { intros out. apply Hacc. left. }
      destruct (IH w1 (pre ++ [out])%list) as (outs & w' & Hrun & Ho & Hall);
        [|done|].
      { intros l o Hl. apply Hacc. by right. }
      exists (out :: outs), w'. split_and!.
      * rewrite fmap_cons. cbn [app csv_rows].
        erewrite bind_eq; [|done]. done.
      * rewrite Ho. by rewrite <- app_assoc.
      * by constructor.
Qed.

(** *** The CSV adapter *)

(** The adapter detects the encoding, which can only log, then runs its
    [try] block; a handler logs what an exception of the block says and
    the adapter returns. *)
Lemma anonymize_csv_unfold input_file src cfg w :
  ∃ w0, log_le w w0 ∧ w_output w0 = w_output w ∧ w_faker w0 = w_faker w
    ∧ anonymize_csv fake_gen re_sub input_file src cfg w
      = match anonymize_csv_body fake_gen re_sub src cfg w0 with
        | (Ok a, w1) => (Ok a, w1)
        | (Raise e, w1) =>
            if is_exception e
            then (Ok tt, add_log w1 ERROR (csv_failure_message input_file e))
            else (Raise e, w1)
        end.
Proof.
  unfold anonymize_csv.
  assert (∃ enc w1, detect_encoding src w = (Ok enc, w1) ∧ log_le w w1
                    ∧ w_output w1 = w_output w ∧ w_faker w1 = w_faker w)
    as (enc & w1 & Hpre & Hl1 & Ho1 & Hf1).
  { unfold detect_encoding.
    destruct (csv_detected src) as [e|enc]; unfold bind, logging, ret; simpl.
    - eexists _, _. split_and!; [done| |done|done]. unfold log_le; simpl.
      by apply prefix_app_r.
    - eexists _, _. by split_and!. }
  erewrite bind_eq; [|done].
  assert (∃ w2,
            (if encoding_truthy enc then ret tt
             else logging ERROR
                    "Failed to detect file encoding.  Using utf-8 as default.") w1
              = (Ok tt, w2) ∧ log_le w1 w2
            ∧ w_output w2 = w_output w1 ∧ w_faker w2 = w_faker w1)
    as (w2 & Hwarn & Hl2 & Ho2 & Hf2).
  { destruct (encoding_truthy enc); eexists; (split_and!; [done| |done|done]);
      [done|].
    unfold log_le; simpl. by apply prefix_app_r. }
  erewrite bind_eq; [|done].
  exists w2. split_and!; [by etrans|congruence|congruence|].
  unfold try_except.
  destruct (anonymize_csv_body fake_gen re_sub src cfg w2) as [[[]|e] w3];
    [done|].
  destruct (is_exception e); [|done]. by destruct e.
Qed.

Lemma log_le_add_log w l msg : log_le w (add_log w l msg).
Proof. unfold log_le; simpl. by apply prefix_app_r. Qed.

Lemma anonymize_csv_body_spec cfg detected write_error (header : list string)
    (rows : list (list string)) w :
  (∀ f r, f ∈ header → dict_get f cfg = Some r → rule_safe re_sub r) →
  write_error header = None →
  (∀ line out, line ∈ csv_records rows →
     csv_written fake_gen re_sub cfg header line out → write_error out = None) →
  ∃ outs w',
    anonymize_csv_body fake_gen re_sub
      (CsvSource detected None (Ok header :: (Ok <$> rows)) write_error) cfg w
    = (Ok tt, w')
    ∧ w_output w' = Some (CsvFile (header :: outs))
    ∧ Forall2 (csv_written fake_gen re_sub cfg header) (csv_records rows) outs
    ∧ log_le w w'.
Proof.
  intros Hsafe Hhead Hacc.
  unfold anonymize_csv_body. cbn [csv_open csv_lines csv_write_error].
  set (w1 := World (w_faker w) (w_log w) (Some (CsvFile []))).
  assert (H1 : write_file (CsvFile []) w = (Ok tt, w1)) by done.
  erewrite bind_eq; [|done].
  pose proof (dict_writer_writerow_Ok write_error header
    (list_to_map (zip header (Some <$> header))) w1 []) as Hh.
  rewrite header_row_cells in Hh. cbn [app] in Hh.
  erewrite bind_eq; [|apply Hh; [apply header_row_keys|done..]].
  set (w2 := World (w_faker w1) (w_log w1) (Some (CsvFile [header]))).
  destruct (csv_rows_spec write_error cfg header rows w2 [header] Hsafe Hacc eq_refl)
    as (outs & w' & Hrun & Ho & Hall & Hl).
  exists outs, w'. by split_and!.
Qed.

(** A file that opens and reads without error, an engine that raises
    nothing but [re.error] on the regexes of the columns, a writer that
    accepts the rows: the adapter returns and the output holds the header
    followed by one row per record. *)
Lemma anonymize_csv_spec cfg input_file detected write_error
    (header : list string) (rows : list (list string)) w :
  (∀ f r, f ∈ header → dict_get f cfg = Some r → rule_safe re_sub r) →
  write_error header = None →
  (∀ line out, line ∈ csv_records rows →
     csv_written fake_gen re_sub cfg header line out → write_error out = None) →
  ∃ outs w',
    anonymize_csv fake_gen re_sub input_file
      (CsvSource detected None (Ok header :: (Ok <$> rows)) write_error) cfg w
    = (Ok tt, w')
    ∧ w_output w' = Some (CsvFile (header :: outs))
    ∧ Forall2 (csv_written fake_gen re_sub cfg header) (csv_records rows) outs
    ∧ log_le w w'.
Proof.
  intros Hsafe Hhead Hacc.
  destruct (anonymize_csv_unfold input_file
              (CsvSource detected None (Ok header :: (Ok <$> rows)) write_error)
              cfg w) as (w0 & Hl0 & _ & _ & ->).
  destruct (anonymize_csv_body_spec cfg detected write_error header rows w0
              Hsafe Hhead Hacc) as (outs & w' & -> & Ho & Hall & Hl).
  exists outs, w'. split_and!; try done. by etrans.
Qed.

(** Whatever happens, the output file is left as it was (a file did not
    open), or emptied (nothing could be written), or holds the header
    and, in order, the images of the first records of the input. *)
Lemma anonymize_csv_prefix cfg input_file src w res w' :
  anonymize_csv fake_gen re_sub input_file src cfg w = (res, w') →
  log_le w w'
  ∧ ((is_Some (csv_open src) ∧ w_output w' = w_output w)
     ∨ (csv_open src = None
        ∧ (w_output w' = Some (CsvFile [])
           ∨ ∃ header rest recs outs,
               csv_lines src = Ok header :: rest
               ∧ w_output w' = Some (CsvFile (header :: outs))
               ∧ recs `prefix_of` csv_records (readable rest)
               ∧ Forall2 (csv_written fake_gen re_sub cfg header) recs outs))).
Proof.
  destruct (anonymize_csv_unfold input_file src cfg w)
    as (w0 & Hl0 & Ho0 & _ & ->).
  assert (Hbody : ∀ res1 w1,
            anonymize_csv_body fake_gen re_sub src cfg w0 = (res1, w1) →
            log_le w0 w1
            ∧ ((is_Some (csv_open src) ∧ w_output w1 = w_output w0)
               ∨ (csv_open src = None
                  ∧ (w_output w1 = Some (CsvFile [])
                     ∨ ∃ header rest recs outs,
                         csv_lines src = Ok header :: rest
                         ∧ w_output w1 = Some (CsvFile (header :: outs))
                         ∧ recs `prefix_of` csv_records (readable rest)
                         ∧ Forall2 (csv_written fake_gen re_sub cfg header)
                             recs outs)))).
  { intros res1 w1. unfold anonymize_csv_body.
    destruct (csv_open src) as [e|].
    { intros [= <- <-]. split; [done|]. left. by eauto. }
    set (w2 := World (w_faker w0) (w_log w0) (Some (CsvFile []))).
    assert (H2 : write_file (CsvFile []) w0 = (Ok tt, w2)) by done.
    erewrite bind_eq; [|done].
    assert (Hl2 : log_le w0 w2) by by apply log_le_same.
    destruct (csv_lines src) as [|[header|e] rest].
    - intros [= <- <-]. split; [done|]. right. split; [done|]. by left.
    - unfold bind.
      destruct (dict_writer_writerow _ header _ w2) as [resh w3] eqn:Hh.
      assert (Hhead : log_le w2 w3
                ∧ ((resh = Ok tt ∧ w_output w3 = Some (CsvFile [header]))
                   ∨ ((∃ e, resh = Raise e) ∧ w_output w3 = Some (CsvFile [])))).
      { destruct (csv_write_error src header) as [e|] eqn:Hacc.
        - rewrite <- (header_row_cells header) in Hacc.
          rewrite (dict_writer_writerow_refused _ _ _ _ e) in Hh;
            [|apply header_row_keys|done].
          injection Hh as <- <-. split; [done|]. right. eauto.
        - rewrite <- (header_row_cells header) in Hacc.
          rewrite (dict_writer_writerow_Ok _ _ _ _ []) in Hh;
            [|apply header_row_keys|done|done].
          injection Hh as <- <-. split; [by apply log_le_same|]. left.
          by rewrite header_row_cells. }
      destruct Hhead as [Hl3 [[-> Ho3]|[[e ->] Ho3]]].
      + intros Hrows.
        destruct (csv_rows_prefix _ _ _ _ _ _ _ _ Ho3 Hrows)
          as (recs & outs & Ho & Hpre & Hall & Hl).
        split; [by repeat (etrans; [done|])|]. right. split; [done|]. right.
        by exists header, rest, recs, outs.
      + intros [= <- <-]. split; [by etrans|]. right. split; [done|]. by left.
    - intros [= <- <-]. split; [done|]. right. split; [done|]. by left. }
  destruct (anonymize_csv_body fake_gen re_sub src cfg w0) as [res1 w1] eqn:Hb.
  destruct (Hbody res1 w1 eq_refl) as [Hl1 Hcases].
  assert (Hfin : log_le w w' ∧ w_output w' = w_output w1
                 → log_le w w'
                   ∧ ((is_Some (csv_open src) ∧ w_output w' = w_output w)
                      ∨ (csv_open src = None
                         ∧ (w_output w' = Some (CsvFile [])
                            ∨ ∃ header rest recs outs,
                                csv_lines src = Ok header :: rest
                                ∧ w_output w' = Some (CsvFile (header :: outs))
                                ∧ recs `prefix_of` csv_records (readable rest)
                                ∧ Forall2 (csv_written fake_gen re_sub cfg header)
                                    recs outs)))).
  { intros [Hl Ho]. split; [done|]. rewrite Ho.
    destruct Hcases as [[Hopen Hsame]|Hrest]; [|by right].
    left. split; [done|]. by rewrite Hsame. }
  destruct res1 as [[]|e].
  - intros [= <- <-]. apply Hfin. split; [by etrans|done].
  - destruct (is_exception e).
    + intros [= <- <-]. apply Hfin. split; [|done].
      etrans; [done|]. etrans; [done|]. apply log_le_add_log.
    + intros [= <- <-]. apply Hfin. split; [by etrans|done].
Qed.

(** *** The value of a CSV cell *)


Lemma csv_written_cell cfg (header line out : list string) (i : nat)
    (f : string) (v : cell) :
  csv_written fake_gen re_sub cfg header line out →
  header !! i = Some f →
  (∀ acc0 w0 m1 w1,
     csv_field fake_gen re_sub cfg (dict_reader_row header line) f acc0 w0
       = (Ok m1, w1) →
     m1 = <[f := v]> acc0) →
  out !! i = Some (cell_str v).
Proof.
  intros (m & w1 & w2 & Hm & _ & ->) Hi Hstep.
  rewrite (dict_to_list_lookup _ _ _ _ Hi).
  erewrite for_each_csv_field_value; [done| |done..].
  by eapply list_elem_of_lookup_2.
Qed.

Lemma csv_field_no_rule cfg (row : gmap string cell) f c acc w :
  dict_get f cfg = None → row !! f = Some c →
  csv_field fake_gen re_sub cfg row f acc w = (Ok (<[f := c]> acc), w).
Proof. unfold csv_field. by intros -> ->. Qed.

Lemma csv_written_unruled_cells cfg (header line out : list string) :
  csv_written fake_gen re_sub cfg header line out →
  unruled_cells cfg header line out.
Proof.
  intros Hw i f Hi Hk.
  assert (Hcell : ∀ c', dict_reader_row header line !! f = Some c' →
                        out !! i = Some (cell_str c')).
  { intros c' Hc'. eapply csv_written_cell; [done..|].
    intros acc0 w2 m1 w3.
    rewrite (csv_field_no_rule _ _ _ c'); [|done..]. by intros [= <- _]. }
  split; [apply Hcell|].
  intros Hnd. destruct (line !! i) as [x|] eqn:Hx; simpl.
  - apply (Hcell (Some x)). by eapply dict_reader_row_cell.
  - apply (Hcell None). eapply dict_reader_row_short; [done|].
    by apply lookup_ge_None.
Qed.

Lemma csv_field_ruled cfg (row : gmap string cell) f r acc w v w' :
  dict_get f cfg = Some r →
  csv_rule fake_gen re_sub f r (default (Some "") (row !! f)) w = (Ok v, w') →
  csv_field fake_gen re_sub cfg row f acc w = (Ok (<[f := v]> acc), w').
Proof. unfold csv_field. intros -> Hv. by erewrite bind_eq. Qed.

Lemma csv_rule_regex field r regex s s' w :
  get_regex r = Some regex →
  re_sub regex (get_placeholder r) s = ReOk s' →
  csv_rule fake_gen re_sub field r (Some s) w = (Ok (Some s'), w).
Proof. unfold csv_rule. by intros -> ->. Qed.

Lemma csv_rule_regex_None field r regex w :
  get_regex r = Some regex →
  csv_rule fake_gen re_sub field r None w
  = (Ok None,
     add_log w WARNING
       ("Field " +:+ field +:+ " with regex requires string value, skipping.")).
Proof. unfold csv_rule. by intros ->. Qed.


Lemma csv_rule_unknown field r value w :
  get_regex r = None →
  get_action r ≠ "replace" → get_action r ≠ "remove" →
  csv_rule fake_gen re_sub field r value w
  = (Ok value,
     add_log w WARNING
       ("Unknown action '" +:+ get_action r +:+ "' for field '" +:+ field
        +:+ "'. Skipping.")).
Proof.
  unfold csv_rule. intros -> H1%String.eqb_neq H2%String.eqb_neq.
  by rewrite H1, H2.
Qed.

Lemma csv_rule_null field r value w :
  get_regex r = None →
  get_action r = "replace" → get_placeholder r = "null" →
  csv_rule fake_gen re_sub field r value w = (Ok (Some "null"), w).
Proof. unfold csv_rule. by intros -> -> ->. Qed.

(** The step of a ruled column whose rule yields [v] in every state. *)
Lemma csv_field_stores cfg (row : gmap string cell) f r v :
  dict_get f cfg = Some r →
  (∀ w, ∃ w', csv_rule fake_gen re_sub f r (default (Some "") (row !! f)) w
              = (Ok v, w')) →
  ∀ acc0 w0 m1 w1,
    csv_field fake_gen re_sub cfg row f acc0 w0 = (Ok m1, w1) →
    m1 = <[f := v]> acc0.
Proof.
  intros Hk Hv acc0 w0 m1 w1. destruct (Hv w0) as [w' Hv'].
  rewrite (csv_field_ruled _ _ _ _ _ _ _ _ Hk Hv'). by intros [= <- _].
Qed.

(** *** The XML steps of the rule branches *)

Lemma xml_element_regex root path r e regex s s' (h : gmap nat node) w :
  get_regex r = Some regex →
  text_of h e = Some s → s ≠ "" →
  re_sub regex (get_placeholder r) s = ReOk s' →
  xml_element fake_gen re_sub root path r e h w = (Ok (set_text e s' h), w).
Proof.
  unfold xml_element. intros -> -> Hs%String.eqb_neq ->. by rewrite Hs.
Qed.

Lemma xml_element_unknown root path r e (h : gmap nat node) w :
  get_regex r = None →
  get_action r ≠ "replace" → get_action r ≠ "remove" →
  xml_element fake_gen re_sub root path r e h w
  = (Ok h,
     add_log w WARNING
       ("Unknown action '" +:+ get_action r +:+ "' for element '" +:+ path
        +:+ "'. Skipping.")).
Proof.
  unfold xml_element. intros -> H1%String.eqb_neq H2%String.eqb_neq.
  by rewrite H1, H2.
Qed.

Lemma xml_element_null root path r e (h : gmap nat node) w :
  get_regex r = None →
  get_action r = "replace" → get_placeholder r = "null" →
  xml_element fake_gen re_sub root path r e h w = (Ok (set_text e "null" h), w).
Proof. unfold xml_element. by intros -> -> ->. Qed.

Lemma xml_element_remove_orphan root path r e (h : gmap nat node) w :
  get_regex r = None → get_action r = "remove" →
  find_parent h root e = None →
  xml_element fake_gen re_sub root path r e h w
  = (Ok h,
     add_log w WARNING
       ("Could not find parent of element " +:+ path +:+ ". Skipping removal.")).
Proof. unfold xml_element. by intros -> -> ->. Qed.

Lemma xml_element_remove root path r e parent (h : gmap nat node) w :
  get_regex r = None → get_action r = "remove" →
  find_parent h root e = Some parent →
  xml_element fake_gen re_sub root path r e h w
  = (Ok (remove_child parent e h), w).
Proof. unfold xml_element. by intros -> -> ->. Qed.

(** An element that no element of the store lists as a child has no
    parent to be found: this is the case of the root of a document. *)
Lemma find_parent_orphan (h : gmap nat node) root e :
  (∀ p n, h !! p = Some n → e ∉ children n) →
  find_parent h root e = None.
Proof.
  intros Hno. unfold find_parent.
  induction (iter h root) as [|p l IH]; simpl; [done|].
  destruct (existsb (Nat.eqb e) (children_of h p)) eqn:E; [|done].
  exfalso. apply existsb_exists in E as (c & Hc & ->%Nat.eqb_eq).
  unfold children_of in Hc. destruct (h !! p) as [n|] eqn:Hp; [|done].
  apply (Hno p n Hp). by apply list_elem_of_In.
Qed.

(** The parent found has the element among its children. *)
Lemma find_parent_Some (h : gmap nat node) root e parent :
  find_parent h root e = Some parent → e ∈ children_of h parent.
Proof.
  unfold find_parent. intros [_ H]%find_some.
  apply existsb_exists in H as (c & Hc & ->%Nat.eqb_eq).
  by apply list_elem_of_In.
Qed.

Lemma xml_replacement_Ok p w :
  ∃ s w', xml_replacement fake_gen p w = (Ok s, w').
Proof.
  unfold xml_replacement, fake, ret.
  repeat case_match; simplify_eq; eauto.
Qed.

(** What one step can do to the store. *)
Lemma xml_element_shape root path r e (h : gmap nat node) w h' w' :
  xml_element fake_gen re_sub root path r e h w = (Ok h', w') →
  log_le w w'
  ∧ (h' = h ∨ (∃ s, h' = set_text e s h)
     ∨ ∃ parent, find_parent h root e = Some parent
                 ∧ h' = remove_child parent e h).
Proof.
  unfold xml_element. destruct (get_regex r) as [regex|].
  - destruct (text_of h e) as [s|];
      [|intros [= <- <-]; split; [done|by left]].
    destruct (String.eqb s "");
      [intros [= <- <-]; split; [done|by left]|].
    destruct (re_sub regex (get_placeholder r) s) as [s'|err|err]; [| |done].
    + intros [= <- <-]. split; [done|]. right; left. eauto.
    + unfold bind, logging, ret; simpl. intros [= <- <-].
      split; [|by left]. unfold log_le; simpl. by apply prefix_app_r.
  - destruct (String.eqb (get_action r) "replace").
    + intros (s & w1 & Hs & [= <- <-])%bind_Ok. split.
      * revert Hs. unfold xml_replacement.
        repeat case_match; try apply log_mono_fake. apply log_mono_ret.
      * right; left. eauto.
    + destruct (String.eqb (get_action r) "remove").
      * destruct (find_parent h root e) as [parent|] eqn:Hp.
        -- intros [= <- <-]. split; [done|]. right; right. eauto.
        -- unfold bind, logging, ret; simpl. intros [= <- <-].
           split; [|by left]. unfold log_le; simpl. by apply prefix_app_r.
      * unfold bind, logging, ret; simpl. intros [= <- <-].
        split; [|by left]. unfold log_le; simpl. by apply prefix_app_r.
Qed.

(** The step returns, unless the engine raises something else than
    [re.error]. *)
Lemma xml_element_Ok root path r e (h : gmap nat node) w :
  rule_safe re_sub r →
  ∃ h' w', xml_element fake_gen re_sub root path r e h w = (Ok h', w').
Proof.
  intros Hsafe. unfold xml_element. destruct (get_regex r) as [regex|] eqn:Hre.
  - destruct (text_of h e) as [s|]; [|by eexists _, _].
    destruct (String.eqb s ""); [by eexists _, _|].
    destruct (re_sub regex (get_placeholder r) s) as [s'|err|err] eqn:Hsub;
      unfold bind, logging, ret; simpl; eauto.
    by destruct (Hsafe regex s err).
  - destruct (String.eqb (get_action r) "replace").
    + destruct (xml_replacement_Ok (get_placeholder r) w) as (s & w1 & Hs).
      erewrite bind_eq; [|done]. by eexists _, _.
    + destruct (String.eqb (get_action r) "remove").
      * destruct (find_parent h root e); unfold bind, logging, ret; simpl; eauto.
      * unfold bind, logging, ret; simpl; eauto.
Qed.

(** A step leaves the other elements' own data alone, and an element none
    of whose children is the element at hand is left as it is. *)
Lemma xml_element_frame root path r e (h : gmap nat node) w h' w' e' :
  xml_element fake_gen re_sub root path r e h w = (Ok h', w') →
  e' ≠ e →
  text_of h' e' = text_of h e'
  ∧ (e ∉ children_of h e' → h' !! e' = h !! e').
Proof.
  intros Hrun Hne.
  destruct (xml_element_shape _ _ _ _ _ _ _ _ Hrun) as [_ Hshape].
  destruct Hshape as [->|[[s ->]|(parent & Hp & ->)]]; [done| |].
  - unfold text_of, set_text. by rewrite lookup_alter_ne.
  - unfold text_of, remove_child.
    destruct (decide (parent = e')) as [->|Hpe].
    + split.
      * rewrite lookup_alter_eq. by destruct (h !! e').
      * intros Hc. by apply find_parent_Some in Hp.
    + by rewrite lookup_alter_ne.
Qed.

Lemma for_each_xml_element_frame root path r elements (h : gmap nat node)
    w h' w' e' :
  for_each (xml_element fake_gen re_sub root path r) elements h w = (Ok h', w') →
  e' ∉ elements →
  text_of h' e' = text_of h e'
  ∧ ((∀ c, c ∈ children_of h e' → c ∉ elements) → h' !! e' = h !! e').
Proof.
  revert h w. induction elements as [|e l IH]; intros h w; simpl.
  - by intros [= <- _] _.
  - intros (h1 & w1 & Hstep & Hloop)%bind_Ok [Hne Hl]%not_elem_of_cons.
    destruct (xml_element_frame _ _ _ _ _ _ _ _ _ Hstep Hne) as [Ht Hn].
    destruct (IH _ _ Hloop Hl) as [Ht' Hn'].
    split; [by rewrite Ht'|].
    intros Hc.
    assert (Hsame : h1 !! e' = h !! e').
    { apply Hn. intros Hin. apply (Hc e Hin). left. }
    rewrite Hn'; [done|].
    intros c Hcin. unfold children_of in Hcin. rewrite Hsame in Hcin.
    intros Hcl. apply (Hc c Hcin). by right.
Qed.

(** The frame of the XML adapter: an element that no rule path selects
    keeps its text, and keeps its whole node when none of its children is
    selected either. *)
Lemma for_each_xml_rule_frame root cfg (h : gmap nat node) w h' w' e' :
  for_each (xml_rule fake_gen re_sub findall root) cfg h w = (Ok h', w') →
  e' ∉ xml_matches fake_gen re_sub findall root cfg h w →
  text_of h' e' = text_of h e'
  ∧ ((∀ c, c ∈ children_of h e' →
         c ∉ xml_matches fake_gen re_sub findall root cfg h w) →
     h' !! e' = h !! e').
Proof.
  revert h w. induction cfg as [|[path r] cfg IH]; intros h w; simpl.
  - by intros [= <- _] _.
  - intros (h1 & w1 & Hstep & Hloop)%bind_Ok.
    unfold xml_rule in Hstep.
    destruct (findall h root path) as [elements|err]; [|done].
    rewrite Hstep. intros [Hel Hrest]%not_elem_of_app.
    destruct (for_each_xml_element_frame _ _ _ _ _ _ _ _ _ Hstep Hel) as [Ht Hn].
    destruct (IH _ _ Hloop Hrest) as [Ht' Hn'].
    split; [by rewrite Ht'|].
    intros Hc.
    assert (Hsame : h1 !! e' = h !! e').
    { apply Hn. intros c Hcin Hcel. apply (Hc c Hcin).
      apply elem_of_app. by left. }
    rewrite Hn'; [done|].
    intros c Hcin. unfold children_of in Hcin. rewrite Hsame in Hcin.
    intros Hcm. apply (Hc c Hcin). apply elem_of_app. by right.
Qed.

(** *** What stays under the root *)

Lemma list_remove_other (x c : elem_ref) (l : list elem_ref) :
  c ∈ l → c ≠ x → c ∈ list_remove x l.
Proof.
  intros Hc Hne. induction l as [|y l IH]; simpl; [done|].
  destruct (Nat.eqb y x) eqn:E.
  - apply Nat.eqb_eq in E as ->.
    by apply elem_of_cons in Hc as [->|Hc].
  - apply elem_of_cons in Hc as [->|Hc]; [left|right; by apply IH].
Qed.

Lemma children_of_set_text (h : gmap nat node) e s p :
  children_of (set_text e s h) p = children_of h p.
Proof.
  unfold children_of, set_text, elem_ref.
  destruct (decide (e = p)) as [->|Hne].
  - rewrite lookup_alter_eq.
    by match goal with |- context [_ <$> ?o] => destruct o end.
  - by rewrite lookup_alter_ne.
Qed.

Lemma children_of_remove_child (h : gmap nat node) parent e p :
  children_of (remove_child parent e h) p
  = if decide (parent = p) then list_remove e (children_of h p)
    else children_of h p.
Proof.
  unfold children_of, remove_child, elem_ref.
  case_decide as Hp; [subst|].
  - rewrite lookup_alter_eq.
    by match goal with |- context [_ <$> ?o] => destruct o end.
  - by rewrite lookup_alter_ne.
Qed.

(** A step takes no other element than its own out of a child list. *)
Lemma xml_element_children root path r e (h : gmap nat node) w h' w' p c :
  xml_element fake_gen re_sub root path r e h w = (Ok h', w') →
  c ≠ e → c ∈ children_of h p → c ∈ children_of h' p.
Proof.
  intros Hrun Hne Hc.
  destruct (xml_element_shape _ _ _ _ _ _ _ _ Hrun) as [_ Hshape].
  destruct Hshape as [->|[[s ->]|(parent & _ & ->)]]; [done| |].
  - by rewrite children_of_set_text.
  - rewrite children_of_remove_child. case_decide; [|done].
    by apply list_remove_other.
Qed.

Lemma for_each_xml_element_children root path r elements (h : gmap nat node)
    w h' w' p c :
  for_each (xml_element fake_gen re_sub root path r) elements h w = (Ok h', w') →
  c ∉ elements → c ∈ children_of h p → c ∈ children_of h' p.
Proof.
  revert h w. induction elements as [|e l IH]; intros h w; simpl.
  - by intros [= <- _] _.
  - intros (h1 & w1 & Hstep & Hloop)%bind_Ok [Hne Hl]%not_elem_of_cons Hc.
    eapply IH; [done..|]. by eapply xml_element_children.
Qed.

Lemma for_each_xml_rule_children root cfg (h : gmap nat node) w h' w' p c :
  for_each (xml_rule fake_gen re_sub findall root) cfg h w = (Ok h', w') →
  c ∉ xml_matches fake_gen re_sub findall root cfg h w →
  c ∈ children_of h p → c ∈ children_of h' p.
Proof.
  revert h w. induction cfg as [|[path r] cfg IH]; intros h w; simpl.
  - by intros [= <- _] _.
  - intros (h1 & w1 & Hstep & Hloop)%bind_Ok.
    unfold xml_rule in Hstep.
    destruct (findall h root path) as [elements|err]; [|done].
    rewrite Hstep. intros [Hel Hrest]%not_elem_of_app Hc.
    eapply IH; [done..|]. by eapply for_each_xml_element_children.
Qed.

(** An element that hangs under the root by a chain of elements that no
    rule path selects still hangs under the root after the loop. *)
Lemma for_each_xml_rule_attached root cfg (h : gmap nat node) w h' w' e :
  for_each (xml_rule fake_gen re_sub findall root) cfg h w = (Ok h', w') →
  spared h (xml_matches fake_gen re_sub findall root cfg h w) root e →
  attached h' root e.
Proof.
  intros Hrun. induction 1 as [|p c Hp IH Hc Hsel]; [constructor|].
  eapply attached_child; [done|]. by eapply for_each_xml_rule_children.
Qed.

(** With an engine that raises nothing but [re.error] on the regexes of
    the rules and a path facility that answers every path of the rule set,
    the loop over the rules returns. *)
Lemma for_each_xml_rule_Ok root cfg :
  re_safe re_sub cfg →
  (∀ k r h, (k, r) ∈ cfg → ∃ elements, findall h root k = Ok elements) →
  ∀ (h : gmap nat node) w,
    ∃ h' w', for_each (xml_rule fake_gen re_sub findall root) cfg h w = (Ok h', w').
Proof.
  induction cfg as [|[path r] cfg IH]; intros Hsafe Hfind h w; simpl.
  - by eexists _, _.
  - assert (∃ h1 w1, xml_rule fake_gen re_sub findall root (path, r) h w
                     = (Ok h1, w1)) as (h1 & w1 & Hstep).
    { unfold xml_rule. destruct (Hfind path r h) as [elements ->]; [left|].
      assert (Hr : rule_safe re_sub r) by (apply (Hsafe path r); left).
      clear -Hr. revert h w. induction elements as [|e l IHl]; intros h w; simpl.
      - by eexists _, _.
      - destruct (xml_element_Ok root path r e h w Hr) as (h2 & w2 & H2).
        erewrite bind_eq; [|done]. apply IHl. }
    erewrite bind_eq; [|done]. apply IH.
    + intros k r' Hin. apply (Hsafe k r'). by right.
    + intros k r' h0 Hin. apply (Hfind k r'). by right.
Qed.

(** *** The XML adapter on a document that parses *)

Lemma anonymize_xml_spec input_file cfg (h : gmap nat node) root w h' w1 :
  for_each (xml_rule fake_gen re_sub findall root) cfg h w = (Ok h', w1) →
  anonymize_xml fake_gen re_sub findall input_file
    (XmlSource (Ok (h, root)) Written) cfg w
  = (Ok tt, World (w_faker w1) (w_log w1) (Some (XmlFile h' root))).
Proof.
  intros Hrun. unfold anonymize_xml, try_except, anonymize_xml_body.
  cbn [xml_parse xml_write]. by erewrite bind_eq.
Qed.

(** *** The exit status after a failure of the document *)

(** The prelude of [main] when the configuration loads and the input
    file exists. *)
Lemma main_loaded i path cfg w :
  arg_config i = Some path → path ≠ "" → fs_config i = ConfigLoaded cfg →
  fs_input_exists i = true →
  main fake_gen re_sub findall i w
  = try_except
      (match arg_format i with
       | FormatJson => main_json fake_gen re_sub i (Some cfg)
       | FormatCsv => main_csv fake_gen re_sub i (Some cfg)
       | FormatXml => main_xml fake_gen re_sub findall i (Some cfg)
       end)
      (λ e, bind (logging ERROR ("An error occurred: " +:+ exn_str e))
              (λ _, exit 1)) w.
Proof.
  unfold main. intros -> Hp%String.eqb_neq -> ->. by rewrite Hp.
Qed.

(** XML: whatever exception parsing raises, [main] returns normally. *)
Lemma main_xml_parse_failure i path cfg e w :
  arg_config i = Some path → path ≠ "" →
  fs_config i = ConfigLoaded cfg →
  fs_input_exists i = true → arg_format i = FormatXml →
  xml_parse (fs_xml i) = Raise e → is_exception e = true →
  ∃ w', main fake_gen re_sub findall i w = (Ok tt, w')
        ∧ w_output w' = w_output w
        ∧ (INFO, "XML data anonymized and saved to " +:+ arg_output_file i)
            ∈ w_log w'.
Proof.
  intros Hc Hne Hf Hx Hfmt Hparse He.
  rewrite (main_loaded _ _ _ _ Hc Hne Hf Hx), Hfmt.
  unfold try_except, main_xml, anonymize_xml, anonymize_xml_body, bind.
  rewrite Hparse. unfold try_except, raise. rewrite He.
  destruct e; try done; simpl; eexists; (split_and!; [done|done|]);
    apply elem_of_app; right; left.
Qed.

(** CSV: the same when reading the first line raises. *)
Lemma main_csv_read_failure i path cfg e rest w :
  arg_config i = Some path → path ≠ "" →
  fs_config i = ConfigLoaded cfg →
  fs_input_exists i = true → arg_format i = FormatCsv →
  csv_open (fs_csv i) = None → csv_lines (fs_csv i) = Raise e :: rest →
  is_exception e = true →
  ∃ w', main fake_gen re_sub findall i w = (Ok tt, w')
        ∧ (INFO, "CSV data anonymized and saved to " +:+ arg_output_file i)
            ∈ w_log w'.
Proof.
  intros Hc Hne Hf Hx Hfmt Hopen Hlines He.
  rewrite (main_loaded _ _ _ _ Hc Hne Hf Hx), Hfmt.
  unfold try_except, main_csv, anonymize_csv, anonymize_csv_body, bind.
  rewrite Hopen, Hlines.
  destruct (detect_encoding (fs_csv i) w) as [[enc|e0] w1] eqn:Hd.
  - destruct (encoding_truthy enc); simpl; unfold try_except, raise, bind;
      simpl; rewrite He;
      destruct e; try done; simpl; eexists; (split; [done|]);
      apply elem_of_app; right; left.
  - unfold detect_encoding in Hd.
    destruct (csv_detected (fs_csv i)); discriminate Hd.
Qed.

(** JSON: a document that does not load ends the process with status 1. *)
Lemma main_json_load_failure i path cfg e w :
  arg_config i = Some path → path ≠ "" →
  fs_config i = ConfigLoaded cfg →
  fs_input_exists i = true → arg_format i = FormatJson →
  json_load (fs_json i) = Raise e → is_exception e = true →
  ∃ w', main fake_gen re_sub findall i w = (Raise (SystemExit 1), w')
        ∧ w_output w' = w_output w.
Proof.
  intros Hc Hne Hf Hx Hfmt Hload He.
  rewrite (main_loaded _ _ _ _ Hc Hne Hf Hx), Hfmt.
  unfold try_except, main_json, bind. rewrite Hload.
  unfold try_except, raise. rewrite He.
  destruct e; try done; simpl; eexists; (split; [done|done]).
Qed.

(** *** The traversal of a document *)

(** The bound on the depth is not felt once it reaches the number of
    elements of the tree. *)
Lemma iter_depth_preorder (h : gmap nat node) :
  ∀ e l, preorder h e l → ∀ n, (length l ≤ n)%nat → iter_depth n h e = l.
Proof.
  fix IH 3. intros e l [e' l' Hf] n Hn.
  destruct n as [|n]; [simpl in Hn; lia|].
  simpl. f_equal.
  assert (Hlen : (length l' ≤ n)%nat) by (simpl in Hn; lia). clear Hn.
  revert Hlen. generalize (children_of h e') l' Hf. clear e' l' Hf.
  fix IHf 3. intros cs ls [|c cs' lc ls' Hc Hcs] Hlen; simpl; [done|].
  rewrite length_app in Hlen.
  rewrite (IH _ _ Hc n); [|lia]. rewrite (IHf _ _ Hcs); [done|lia].
Qed.

(** On a tree whose elements are distinct and all in the store, [iter] is
    the whole traversal. *)
Lemma iter_complete (h : gmap nat node) root (l : list elem_ref) :
  preorder h root l → NoDup l → (∀ e, e ∈ l → is_Some (h !! e)) →
  iter h root = l.
Proof.
  intros Hpre Hnd Hin. unfold iter. apply iter_depth_preorder; [done|].
  rewrite <- (size_list_to_set (C:=gset nat) l Hnd), <- (size_dom h).
  apply subseteq_size. intros e He.
  apply elem_of_dom, Hin. by apply elem_of_list_to_set in He.
Qed.

End Properties.

(** ** The claims of the specification *)

(** *** C1: regex and action in one rule *)

(** C1, as stated, fails: a rule whose regex is the empty string contains
    a regex, and [re.sub] would put the placeholder between all
    characters; the adapters take [if regex:] for false and apply the
    action instead.  The CSV adapter writes the empty cell of the removal,
    the JSON step deletes the key. *)
Lemma regex_precedence_counterexample :
  ¬ (∀ (r : rule) (regex s s' : string),
       r_regex r = Some regex →
       Re.sub regex (get_placeholder r) s = ReOk s' →
       csv_rule fake_det Re.sub "f" r (Some s) w0 = (Ok (Some s'), w0)
       ∧ json_rule fake_det Re.sub "f" r (JStr s) [("f", JStr s)] w0
         = (Ok [("f", JStr s')], w0)).
Proof.
  intros H.
  destruct (H empty_regex_rule "" "abc123" "#a#b#c#1#2#3#" eq_refl eq_refl)
    as [Hcsv _].
  vm_compute in Hcsv. discriminate Hcsv.
Qed.

(** C1, amended: for every rule whose regex is a non-empty string that
    [re.sub] accepts with the placeholder, whatever the action (removal
    included), a string value becomes the substituted string and the action
    is not applied: in the step of the JSON adapter and in the object it
    returns, in the cell the CSV adapter computes and in the row it writes,
    and in the step of the XML adapter on an element whose text is not
    empty.  In particular the rule with action [remove], regex [\d+] and
    placeholder [#] turns ["abc123"] into ["abc#"]. *)
Theorem regex_takes_precedence :
  (∀ (faker_state : Type)
     (fake_gen : category → faker_state → string * faker_state)
     (re_sub : string → string → string → re_result)
     (cfg : config) (r : rule) (regex s s' : string),
     get_regex r = Some regex →
     re_sub regex (get_placeholder r) s = ReOk s' →
     (∀ key data w,
        json_rule fake_gen re_sub key r (JStr s) data w
        = (Ok (dict_set key (JStr s') data), w))
     ∧ (∀ depth d key w out w',
          NoDup d.*1 → (key, JStr s) ∈ d → dict_get key cfg = Some r →
          anonymize_json fake_gen re_sub depth cfg (JDict d) w = (Ok out, w') →
          ∃ d', out = JDict d' ∧ dict_get key d' = Some (JStr s'))
     ∧ (∀ field w,
          csv_rule fake_gen re_sub field r (Some s) w = (Ok (Some s'), w))
     ∧ (∀ (header line out : list string) (i : nat) (f : string),
          csv_written fake_gen re_sub cfg header line out →
          header !! i = Some f → dict_get f cfg = Some r →
          dict_reader_row header line !! f = Some (Some s) →
          out !! i = Some s')
     ∧ (∀ root path e (h : gmap nat node) w,
          text_of h e = Some s → s ≠ "" →
          xml_element fake_gen re_sub root path r e h w
          = (Ok (set_text e s' h), w)))
  ∧ anonymize_json fake_det Re.sub room [("code", digits_rule)]
      (JDict [("code", JStr "abc123")]) w0
    = (Ok (JDict [("code", JStr "abc#")]), w0)
  ∧ csv_rule fake_det Re.sub "code" digits_rule (Some "abc123") w0
    = (Ok (Some "abc#"), w0).
Proof.
  split; [|by vm_compute].
  intros faker_state fake_gen re_sub cfg r regex s s' Hre Hsub. split_and!.
  - intros key data w. by eapply json_rule_regex.
  - intros depth d key w out w' Hnd Hin Hk Hrun.
    eapply anonymize_json_stores; [done..| |done].
    intros d0 w1 d1 w2 _.
    rewrite (json_field_ruled _ _ _ _ _ r); [|done].
    erewrite json_rule_regex; [|done..].
    intros [= <- _]. apply dict_get_set_eq.
  - intros field w. by eapply csv_rule_regex.
  - intros header line out i f Hw Hi Hk Hrow.
    change s' with (cell_str (Some s')).
    eapply csv_written_cell; [done..|].
    eapply csv_field_stores; [done|]. intros w. exists w.
    rewrite Hrow. by eapply csv_rule_regex.
  - intros root path e h w Ht Hs. by eapply xml_element_regex.
Qed.

(** The general part of C1 at the sample rule and the engine of the
    examples. *)
Lemma regex_takes_precedence_witness :
  get_regex digits_rule = Some "\d+"
  ∧ Re.sub "\d+" (get_placeholder digits_rule) "abc123" = ReOk "abc#"
  ∧ ∀ key data w,
      json_rule fake_det Re.sub key digits_rule (JStr "abc123") data w
      = (Ok (dict_set key (JStr "abc#") data), w).
Proof.
  split; [reflexivity|]. split; [reflexivity|].
  apply (proj1 regex_takes_precedence nat fake_det Re.sub [] digits_rule
           "\d+" "abc123" "abc#"); reflexivity.
Defined.

(** *** C2: fields without a rule *)

(** C2, as stated, fails: in [{"user": {"name": "Alice"}}] the field
    [name] has no entry in the rule set [{"user": {"placeholder": "X"}}],
    yet it does not appear in the output [{"user": "X"}]: the value of a
    key that has a rule is replaced as a whole. *)
Lemma unruled_field_counterexample :
  ¬ (∀ (cfg : config) (data out : json) (w w' : @world nat)
       (p : list step) (k : string) (v : json),
       anonymize_json fake_det Re.sub room cfg data w = (Ok out, w') →
       dict_get k cfg = None →
       json_at (p ++ [Key k]) data = Some v →
       json_at (p ++ [Key k]) out = Some v).
Proof.
  intros H.
  specialize (H [("user", Rule None (Some "X") None)]
                (JDict [("user", JDict [("name", JStr "Alice")])])
                (JDict [("user", JStr "X")]) w0 w0
                [Key "user"] "name" (JStr "Alice") eq_refl eq_refl eq_refl).
  discriminate H.
Qed.

(** C2, amended: a field without rule that does not lie inside the value
    of a key with a rule, or below an element that is removed, is unchanged
    in every output the adapters produce.

    JSON: whenever the adapter returns, at a path none of whose keys has
    a rule the output holds the adapter's image of the input value, which
    for a scalar is the scalar itself; and the adapter does return when the
    recursion limit leaves room for the nesting of the document, no rule
    resolves to removal and the regex engine raises nothing but [re.error]
    on the regexes of the rules.

    CSV: whatever happens during the run, the file is left as it was, or
    empty, or it holds the header and, in order, rows for the first records
    of the input, and in each of these rows a column without rule holds
    the cell of the reader's row, which with distinct column names is the
    cell of the line, or the empty string when the line is too short; when
    all lines read, the engine raises nothing but [re.error] and the writer
    accepts the rows, every record has its row.

    XML: when the loop over the rules returns and the file is written, an
    element that no path of the rule set selects keeps its text, keeps its
    whole node when none of its children is selected, and is still under
    the root of the tree written when it was so by a chain of elements that
    no path selects; the loop returns when [findall] answers every path and
    the engine raises nothing but [re.error]. *)
Theorem unruled_fields_unchanged :
  ∀ (faker_state : Type)
    (fake_gen : category → faker_state → string * faker_state)
    (re_sub : string → string → string → re_result)
    (findall : gmap nat node → elem_ref → string → result (list elem_ref))
    (cfg : config),
    (∀ depth data w out w' p v,
       wf_json data = true →
       anonymize_json fake_gen re_sub depth cfg data w = (Ok out, w') →
       unruled cfg p → json_at p data = Some v →
       (is_container v = false → json_at p out = Some v)
       ∧ ∃ w1 v' w2,
           anonymize_json fake_gen re_sub depth cfg v w1 = (Ok v', w2)
           ∧ json_at p out = Some v')
    ∧ (no_removal cfg → re_safe re_sub cfg →
       ∀ depth data w, (json_depth data ≤ depth)%nat →
         ∃ out w',
           anonymize_json fake_gen re_sub depth cfg data w = (Ok out, w'))
    ∧ (∀ input_file src w res w',
         anonymize_csv fake_gen re_sub input_file src cfg w = (res, w') →
         (is_Some (csv_open src) ∧ w_output w' = w_output w)
         ∨ w_output w' = Some (CsvFile [])
         ∨ ∃ header rest recs outs,
             csv_lines src = Ok header :: rest
             ∧ w_output w' = Some (CsvFile (header :: outs))
             ∧ recs `prefix_of` csv_records (readable rest)
             ∧ Forall2 (unruled_cells cfg header) recs outs)
    ∧ (re_safe re_sub cfg →
       ∀ input_file detected write_error (header : list string)
         (rows : list (list string)) w,
         (∀ cells, write_error cells = None) →
         ∃ outs w',
           anonymize_csv fake_gen re_sub input_file
             (CsvSource detected None (Ok header :: (Ok <$> rows)) write_error)
             cfg w
           = (Ok tt, w')
           ∧ w_output w' = Some (CsvFile (header :: outs))
           ∧ Forall2 (unruled_cells cfg header) (csv_records rows) outs)
    ∧ (∀ input_file root (h : gmap nat node) w h' w1 e,
         for_each (xml_rule fake_gen re_sub findall root) cfg h w = (Ok h', w1) →
         anonymize_xml fake_gen re_sub findall input_file
           (XmlSource (Ok (h, root)) Written) cfg w
         = (Ok tt, World (w_faker w1) (w_log w1) (Some (XmlFile h' root)))
         ∧ (e ∉ xml_matches fake_gen re_sub findall root cfg h w →
            text_of h' e = text_of h e
            ∧ ((∀ c, c ∈ children_of h e →
                  c ∉ xml_matches fake_gen re_sub findall root cfg h w) →
               h' !! e = h !! e))
         ∧ (spared h (xml_matches fake_gen re_sub findall root cfg h w) root e →
            attached h' root e))
    ∧ (re_safe re_sub cfg →
       ∀ root,
         (∀ k r h, (k, r) ∈ cfg → ∃ elements, findall h root k = Ok elements) →
         ∀ (h : gmap nat node) w,
           ∃ h' w1,
             for_each (xml_rule fake_gen re_sub findall root) cfg h w
             = (Ok h', w1)).
Proof.
  intros faker_state fake_gen re_sub findall cfg. split_and!.
  - intros depth data w out w' p v Hwf Hrun Hp Hat. split.
    + intros Hv. by eapply anonymize_json_frame.
    + by eapply anonymize_json_at.
  - intros Hcfg Hsafe depth data w Hdepth. by apply anonymize_json_Ok.
  - intros input_file src w res w' Hrun.
    destruct (anonymize_csv_prefix _ _ _ _ _ _ _ _ Hrun)
      as [_ [?|[_ [?|(header & rest & recs & outs & Hl & Ho & Hpre & Hall)]]]];
      [by left|by right; left|].
    right; right. exists header, rest, recs, outs. split_and!; [done..|].
    eapply Forall2_impl; [exact Hall|]. apply csv_written_unruled_cells.
  - intros Hsafe input_file detected write_error header rows w Hacc.
    destruct (anonymize_csv_spec fake_gen re_sub cfg input_file detected
                write_error header rows w) as (outs & w' & Hrun & Ho & Hall & _);
      [|done|done|].
    { intros f r _ Hk. apply (Hsafe f r). by apply dict_get_elem. }
    exists outs, w'. split_and!; [done..|].
    eapply Forall2_impl; [exact Hall|]. apply csv_written_unruled_cells.
  - intros input_file root h w h' w1 e Hrun. split_and!.
    + by apply anonymize_xml_spec.
    + intros He. by eapply for_each_xml_rule_frame.
    + by eapply for_each_xml_rule_attached.
  - intros Hsafe root Hfind h w. by apply for_each_xml_rule_Ok.
Qed.

(** The JSON part of C2 on a document with a ruled key next to nested
    fields without rule. *)
Lemma unruled_fields_unchanged_witness :
  ∃ out w',
    anonymize_json fake_det Re.sub room [("ssn", null_rule)]
      (JDict [("ssn", JStr "1"); ("who", JList [JDict [("name", JStr "Alice")]])])
      w0 = (Ok out, w')
    ∧ json_at [Key "who"; Index 0; Key "name"] out = Some (JStr "Alice").
Proof.
  eexists _, _. split; [by vm_compute|].
  refine (proj1 (proj1 (unruled_fields_unchanged nat fake_det Re.sub findall_frag
                          [("ssn", null_rule)])
                   room
                   (JDict [("ssn", JStr "1");
                           ("who", JList [JDict [("name", JStr "Alice")]])])
                   w0 _ _ [Key "who"; Index 0; Key "name"] (JStr "Alice")
                   _ _ _ _) _);
    [by vm_compute|by vm_compute| |reflexivity|reflexivity].
  intros k Hk. repeat (apply elem_of_cons in Hk as [Hk|Hk]; [by simplify_eq|]).
  by apply elem_of_nil in Hk.
Defined.

(** *** C3: removal of a JSON key *)

(** C3 does not hold of the code: [del data[key]] inside the loop over
    [data.items()] makes the iterator raise at its next step.  On
    [{"a": 1, "b": 2}] with the rule [{"a": {"action": "remove"}}] the
    adapter raises [RuntimeError] instead of returning [{"b": 2}], [main]
    reports the error, writes no output and exits with status 1; the same
    happens when the removed key is the only one, or the last one.
    [anonymize_json_remove_raises] shows it for every object. *)
Example remove_aborts_json_document :
  anonymize_json fake_det Re.sub room [("a", remove_rule)]
    (JDict [("a", JInt 1); ("b", JInt 2)]) w0
  = (Raise (RuntimeError "dictionary changed size during iteration"), w0)
  ∧ anonymize_json fake_det Re.sub room [("a", remove_rule)]
      (JDict [("a", JInt 1)]) w0
    = (Raise (RuntimeError "dictionary changed size during iteration"), w0)
  ∧ anonymize_json fake_det Re.sub room [("b", remove_rule)]
      (JDict [("a", JInt 1); ("b", JInt 2)]) w0
    = (Raise (RuntimeError "dictionary changed size during iteration"), w0)
  ∧ main fake_det Re.sub findall_frag
      (invoke FormatJson [("a", remove_rule)]
         (JsonSource (Ok (JDict [("a", JInt 1); ("b", JInt 2)])) Written)
         no_csv no_xml) w0
    = (Raise (SystemExit 1),
       World 0
         [(ERROR, "An error occurred: dictionary changed size during iteration")]
         None).
Proof. by vm_compute. Qed.

(** *** C4: the exit status after a failure of the document *)

(** C4 does not hold of the code: [anonymize_xml] and [anonymize_csv]
    catch every exception, log it and return, and [main] goes on to report
    success.  On an XML input that does not parse, and on a CSV input whose
    first line cannot be read, the run logs the error, logs that the data
    was saved and ends with status 0; the JSON branch, on a document that
    does not parse, ends with status 1.  [main_xml_parse_failure],
    [main_csv_read_failure] and [main_json_load_failure] show it for every
    exception. *)
Example malformed_document_exits_zero :
  (let '(res, w) :=
     main fake_det Re.sub findall_frag
       (invoke FormatXml [("a", remove_rule)] no_json no_csv
          (XmlSource (Raise (ParseError "no element found: line 1, column 0"))
             Written)) w0 in
   exit_status res = 0
   ∧ w_log w = [(ERROR, "Error parsing XML file: no element found: line 1, column 0");
                (INFO, "XML data anonymized and saved to out")]
   ∧ w_output w = None)
  ∧ (let '(res, w) :=
       main fake_det Re.sub findall_frag
         (invoke FormatCsv [("a", remove_rule)] no_json
            (CsvSource (inr (Some "utf-8")) None
               [Raise (OtherError "'utf-8' codec can't decode byte 0xff")]
               any_row)
            no_xml) w0 in
     exit_status res = 0
     ∧ w_log w = [(ERROR, "Error processing CSV file: 'utf-8' codec can't decode byte 0xff");
                  (INFO, "CSV data anonymized and saved to out")])
  ∧ (let '(res, w) :=
       main fake_det Re.sub findall_frag
         (invoke FormatJson [("a", remove_rule)]
            (JsonSource (Raise (JSONDecodeError "Expecting value")) Written)
            no_csv no_xml) w0 in
     exit_status res = 1).
Proof. by vm_compute. Qed.

(** *** C5: the shape of the CSV output *)




(** *** C6: an action the program does not know *)

(** C6: for every rule without regex whose action is neither [replace]
    nor [remove], each adapter keeps the value and logs a warning, and the
    step does not raise: the JSON step returns the dict as it is, so that
    an object the adapter returns holds the original value under the key
    and the log holds the warning; the CSV adapter stores the value it read
    and writes it; the XML step returns the store as it is. *)
Theorem unknown_action_keeps_value :
  ∀ (faker_state : Type)
    (fake_gen : category → faker_state → string * faker_state)
    (re_sub : string → string → string → re_result)
    (cfg : config) (r : rule),
    get_regex r = None →
    get_action r ≠ "replace" → get_action r ≠ "remove" →
    (∀ key value data (w : @world faker_state),
       json_rule fake_gen re_sub key r value data w
       = (Ok data,
          add_log w WARNING
            ("Unknown action '" +:+ get_action r +:+ "' for field '" +:+ key
             +:+ "'. Skipping.")))
    ∧ (∀ depth d key value w out w',
         NoDup d.*1 → (key, value) ∈ d → dict_get key cfg = Some r →
         anonymize_json fake_gen re_sub depth cfg (JDict d) w = (Ok out, w') →
         ∃ d', out = JDict d' ∧ dict_get key d' = Some value
               ∧ (WARNING,
                  "Unknown action '" +:+ get_action r +:+ "' for field '"
                  +:+ key +:+ "'. Skipping.") ∈ w_log w')
    ∧ (∀ field value (w : @world faker_state),
         csv_rule fake_gen re_sub field r value w
         = (Ok value,
            add_log w WARNING
              ("Unknown action '" +:+ get_action r +:+ "' for field '"
               +:+ field +:+ "'. Skipping.")))
    ∧ (∀ (header line out : list string) (i : nat) (f : string) (c : cell),
         csv_written fake_gen re_sub cfg header line out →
         header !! i = Some f → dict_get f cfg = Some r →
         dict_reader_row header line !! f = Some c →
         out !! i = Some (cell_str c))
    ∧ (∀ root path e (h : gmap nat node) (w : @world faker_state),
         xml_element fake_gen re_sub root path r e h w
         = (Ok h,
            add_log w WARNING
              ("Unknown action '" +:+ get_action r +:+ "' for element '"
               +:+ path +:+ "'. Skipping."))).
Proof.
  intros faker_state fake_gen re_sub cfg r Hre H1 H2. split_and!.
  - intros. by apply json_rule_unknown.
  - intros depth d key value w out w' Hnd Hin Hk Hrun.
    eapply anonymize_json_keeps; [done..| |done].
    intros d0 w1. rewrite (json_field_ruled _ _ _ _ _ r); [|done].
    by apply json_rule_unknown.
  - intros. by apply csv_rule_unknown.
  - intros header line out i f c Hw Hi Hk Hrow.
    eapply csv_written_cell; [done..|].
    eapply csv_field_stores; [done|]. intros w. eexists.
    rewrite Hrow. by apply csv_rule_unknown.
  - intros. by apply xml_element_unknown.
Qed.

(** C6 at the rule [{"action": "mask"}]. *)
Lemma unknown_action_keeps_value_witness :
  get_regex mask_rule = None
  ∧ get_action mask_rule ≠ "replace" ∧ get_action mask_rule ≠ "remove"
  ∧ json_rule fake_det Re.sub "pin" mask_rule (JInt 7) [("pin", JInt 7)] w0
    = (Ok [("pin", JInt 7)],
       add_log w0 WARNING "Unknown action 'mask' for field 'pin'. Skipping.").
Proof.
  split; [reflexivity|]. split; [discriminate|]. split; [discriminate|].
  apply (unknown_action_keeps_value nat fake_det Re.sub [] mask_rule);
    [reflexivity|discriminate|discriminate].
Defined.

(** *** C7: the placeholder ["null"] *)

(** C7: for every rule without regex, with action [replace] and the
    placeholder ["null"], the JSON step stores the null value, not the
    string ["null"], and an object the adapter returns holds null under the
    key; the CSV and XML adapters have no such branch and store the
    four-character string. *)
Theorem null_placeholder_is_json_null :
  ∀ (faker_state : Type)
    (fake_gen : category → faker_state → string * faker_state)
    (re_sub : string → string → string → re_result)
    (cfg : config) (r : rule),
    get_regex r = None →
    get_action r = "replace" → get_placeholder r = "null" →
    (∀ key value data (w : @world faker_state),
       json_rule fake_gen re_sub key r value data w
       = (Ok (dict_set key JNone data), w))
    ∧ (∀ depth d key value w out w',
         NoDup d.*1 → (key, value) ∈ d → dict_get key cfg = Some r →
         anonymize_json fake_gen re_sub depth cfg (JDict d) w = (Ok out, w') →
         ∃ d', out = JDict d' ∧ dict_get key d' = Some JNone)
    ∧ JNone ≠ JStr "null"
    ∧ (∀ field value (w : @world faker_state),
         csv_rule fake_gen re_sub field r value w = (Ok (Some "null"), w))
    ∧ (∀ root path e (h : gmap nat node) (w : @world faker_state),
         xml_element fake_gen re_sub root path r e h w
         = (Ok (set_text e "null" h), w)).
Proof.
  intros faker_state fake_gen re_sub cfg r Hre Hact Hph. split_and!.
  - intros. by apply json_rule_null.
  - intros depth d key value w out w' Hnd Hin Hk Hrun.
    eapply anonymize_json_stores; [done..| |done].
    intros d0 w1 d1 w2 _.
    rewrite (json_field_ruled _ _ _ _ _ r); [|done].
    rewrite json_rule_null; [|done..].
    intros [= <- _]. apply dict_get_set_eq.
  - discriminate.
  - intros. by apply csv_rule_null.
  - intros. by apply xml_element_null.
Qed.

(** C7 at the rule [{"placeholder": "null"}]. *)
Lemma null_placeholder_is_json_null_witness :
  get_regex null_rule = None
  ∧ get_action null_rule = "replace" ∧ get_placeholder null_rule = "null"
  ∧ json_rule fake_det Re.sub "age" null_rule (JInt 7) [("age", JInt 7)] w0
    = (Ok [("age", JNone)], w0).
Proof.
  split; [reflexivity|]. split; [reflexivity|]. split; [reflexivity|].
  apply (null_placeholder_is_json_null nat fake_det Re.sub [] null_rule);
    reflexivity.
Defined.

(** *** C8: removal of an element without parent *)

(** C8: for every rule without regex whose action is [remove], a matched
    element for which [find_parent] finds no parent is not removed: the
    step returns the store as it is after logging a warning, it does not
    raise, and the loop goes on with the remaining elements.  An element
    that no element of the store has as a child, as the root of a
    document, has no parent to be found. *)
Theorem orphan_removal_is_skipped :
  ∀ (faker_state : Type)
    (fake_gen : category → faker_state → string * faker_state)
    (re_sub : string → string → string → re_result)
    (r : rule) (root : elem_ref) (path : string) (h : gmap nat node),
    get_regex r = None → get_action r = "remove" →
    (∀ e (w : @world faker_state),
       find_parent h root e = None →
       xml_element fake_gen re_sub root path r e h w
       = (Ok h,
          add_log w WARNING
            ("Could not find parent of element " +:+ path
             +:+ ". Skipping removal."))
       ∧ ∀ rest,
           for_each (xml_element fake_gen re_sub root path r) (e :: rest) h w
           = for_each (xml_element fake_gen re_sub root path r) rest h
               (add_log w WARNING
                  ("Could not find parent of element " +:+ path
                   +:+ ". Skipping removal.")))
    ∧ ((∀ p n, h !! p = Some n → root ∉ children n) →
       find_parent h root root = None).
Proof.
  intros faker_state fake_gen re_sub r root path h Hre Hact. split.
  - intros e w Hp.
    pose proof (xml_element_remove_orphan fake_gen re_sub root path r e h w
                  Hre Hact Hp) as Hstep.
    split; [done|]. intros rest. simpl. by erewrite bind_eq.
  - apply find_parent_orphan.
Qed.

(** C8 on the sample document, the path [.] selecting the root. *)
Lemma orphan_removal_is_skipped_witness :
  get_regex remove_rule = None ∧ get_action remove_rule = "remove"
  ∧ find_parent sample_xml 0 0 = None
  ∧ xml_element fake_det Re.sub 0 "." remove_rule 0 sample_xml w0
    = (Ok sample_xml,
       add_log w0 WARNING "Could not find parent of element .. Skipping removal.").
Proof.
  split; [reflexivity|]. split; [reflexivity|].
  assert (Hroot : find_parent sample_xml 0 0 = None) by (by vm_compute).
  split; [exact Hroot|].
  apply (proj1 (orphan_removal_is_skipped nat fake_det Re.sub remove_rule 0 "."
                  sample_xml eq_refl eq_refl) 0 w0 Hroot).
Defined.

(** *** C9: rows shorter than the header *)

(** C9 does not hold of the code in full: a short row is processed, but
    the value of a missing column is not the empty string while the row is
    transformed.  [csv.DictReader] has stored [None] under the column, so
    [row.get(field, "")] returns [None].  With header [id,email], the row
    [1] and the rule [{"email": {"regex": "x*", "placeholder": "N/A"}}],
    whose pattern matches the empty string, the adapter logs that the field
    is not a string and writes [1,]; on the empty string the substitution
    gives [N/A]. *)
Example short_row_value_is_none :
  dict_reader_row ["id"; "email"] ["1"] !! "email" = Some None
  ∧ Re.sub "x*" "N/A" "" = ReOk "N/A"
  ∧ csv_rule fake_det Re.sub "email" blank_rule (Some "") w0
    = (Ok (Some "N/A"), w0)
  ∧ anonymize_csv fake_det Re.sub "in.csv"
      (CsvSource (inr (Some "ascii")) None [Ok ["id"; "email"]; Ok ["1"]] any_row)
      [("email", blank_rule)] w0
    = (Ok tt,
       World 0
         [(WARNING, "Field email with regex requires string value, skipping.")]
         (Some (CsvFile [["id"; "email"]; ["1"; ""]]))).
Proof. by vm_compute. Qed.

(** *** C10: no traversal below a key that has a rule *)

(** C10: for every key that has an entry in the rule set, the step of the
    JSON adapter does not depend on the recursive call: the value is not
    traversed.  When the rule degrades to warn-and-keep (a regex on a value
    that is not a string, or an action the program does not know), an
    object the adapter returns holds the original value under the key,
    interior included, whatever rules match inside.  A key without entry
    holds the adapter's image of its value. *)
Theorem ruled_keys_are_not_traversed :
  ∀ (faker_state : Type)
    (fake_gen : category → faker_state → string * faker_state)
    (re_sub : string → string → string → re_result)
    (cfg : config),
    (∀ key r value data (self self' : json → @M faker_state json),
       dict_get key cfg = Some r →
       json_field fake_gen re_sub cfg self key value data
       = json_field fake_gen re_sub cfg self' key value data)
    ∧ (∀ depth d key r value w out w',
         NoDup d.*1 → (key, value) ∈ d → dict_get key cfg = Some r →
         ((∃ regex, get_regex r = Some regex) ∧ (∀ s, value ≠ JStr s))
         ∨ (get_regex r = None
            ∧ get_action r ≠ "replace" ∧ get_action r ≠ "remove") →
         anonymize_json fake_gen re_sub depth cfg (JDict d) w = (Ok out, w') →
         ∃ d', out = JDict d' ∧ dict_get key d' = Some value)
    ∧ (∀ depth d key value w out w',
         wf_json (JDict d) = true →
         dict_get key d = Some value → dict_get key cfg = None →
         anonymize_json fake_gen re_sub depth cfg (JDict d) w = (Ok out, w') →
         ∃ d' w1 v' w2,
           out = JDict d'
           ∧ anonymize_json fake_gen re_sub depth cfg value w1 = (Ok v', w2)
           ∧ dict_get key d' = Some v').
Proof.
  intros faker_state fake_gen re_sub cfg. split_and!.
  - intros key r value data self self' Hk.
    by rewrite !(json_field_ruled _ _ _ _ _ r).
  - intros depth d key r value w out w' Hnd Hin Hk Hcase Hrun.
    destruct Hcase as [[[regex Hre] Hns]|(Hre & H1 & H2)].
    + edestruct (anonymize_json_keeps fake_gen re_sub depth cfg d w out w' key value)
        as (d' & Hd' & Hget & _); [exact Hnd|exact Hin| |exact Hrun|by exists d'].
      intros d0 w1. rewrite (json_field_ruled _ _ _ _ _ r); [|done].
      by eapply json_rule_regex_non_string.
    + edestruct (anonymize_json_keeps fake_gen re_sub depth cfg d w out w' key value)
        as (d' & Hd' & Hget & _); [exact Hnd|exact Hin| |exact Hrun|by exists d'].
      intros d0 w1. rewrite (json_field_ruled _ _ _ _ _ r); [|done].
      by apply json_rule_unknown.
  - intros depth d key value w out w' Hwf Hget Hk Hrun.
    destruct (anonymize_json_at fake_gen re_sub cfg [Key key] depth (JDict d) w
                out w' value Hwf Hrun) as (w1 & v' & w2 & Hv & Hat).
    { intros k [[= ->]|Hin%elem_of_nil]%elem_of_cons; done. }
    { simpl. by rewrite Hget. }
    destruct depth as [|depth]; [done|].
    simpl in Hrun. apply bind_Ok in Hrun as (d' & w3 & _ & [= <- _]).
    exists d', w1, v', w2. split_and!; [done..|].
    simpl in Hat. by destruct (dict_get key d').
Qed.

(** C10 on an object whose key [user] has a rule with an unknown action
    and whose interior key [name] has a rule of its own. *)
Lemma ruled_keys_are_not_traversed_witness :
  ∃ out w',
    anonymize_json fake_det Re.sub room
      [("user", mask_rule); ("name", Rule None (Some "fake.name") None)]
      (JDict [("user", JDict [("name", JStr "Alice")]);
              ("other", JDict [("name", JStr "Bob")])]) w0
    = (Ok out, w')
    ∧ (∃ d', out = JDict d'
             ∧ dict_get "user" d' = Some (JDict [("name", JStr "Alice")]))
    ∧ json_at [Key "other"; Key "name"] out = Some (JStr "Jane Doe").
Proof.
  exists (JDict [("user", JDict [("name", JStr "Alice")]);
                 ("other", JDict [("name", JStr "Jane Doe")])]),
         (World 1 [(WARNING, "Unknown action 'mask' for field 'user'. Skipping.")]
            None).
  split; [reflexivity|]. split; [|reflexivity].
  apply (proj1 (proj2 (ruled_keys_are_not_traversed nat fake_det Re.sub
            [("user", mask_rule); ("name", Rule None (Some "fake.name") None)]))
           room
           [("user", JDict [("name", JStr "Alice")]);
            ("other", JDict [("name", JStr "Bob")])]
           "user" mask_rule (JDict [("name", JStr "Alice")]) w0
           (JDict [("user", JDict [("name", JStr "Alice")]);
                   ("other", JDict [("name", JStr "Jane Doe")])])
           (World 1 [(WARNING, "Unknown action 'mask' for field 'user'. Skipping.")]
              None)).
  - apply (bool_decide_eq_true_1 _). by vm_compute.
  - left.
  - reflexivity.
  - right. split_and!; [reflexivity|discriminate|discriminate].
  - reflexivity.
Defined.

(** ** Scenarios of the specification *)

(** The rule [{"ssn": {"action": "replace", "regex":
    "\\d{3}-\\d{2}-\\d{4}", "placeholder": "XXX-XX-XXXX"}}] on
    [{"ssn": "123-45-6789", "name": "Alice"}]. *)
Example scenario_ssn :
  anonymize_json fake_det Re.sub room
    [("ssn", Rule (Some "replace") (Some "XXX-XX-XXXX")
               (Some "\d{3}-\d{2}-\d{4}"))]
    (JDict [("ssn", JStr "123-45-6789"); ("name", JStr "Alice")]) w0
  = (Ok (JDict [("ssn", JStr "XXX-XX-XXXX"); ("name", JStr "Alice")]), w0).
Proof. by vm_compute. Qed.

(** The rule [{"email": {"action": "remove"}}] on the CSV input with
    header [id,email] and row [1,a@b.com]. *)
Example scenario_csv_remove :
  anonymize_csv fake_det Re.sub "in.csv"
    (CsvSource (inr (Some "ascii")) None [Ok ["id"; "email"]; Ok ["1"; "a@b.com"]]
       any_row)
    [("email", remove_rule)] w0
  = (Ok tt, World 0 [] (Some (CsvFile [["id"; "email"]; ["1"; ""]]))).
Proof. by vm_compute. Qed.

(** The traversal of the sample document, and the parents it finds. *)
Example scenario_iter :
  iter sample_xml 0 = [0; 1; 3; 2]
  ∧ find_parent sample_xml 0 3 = Some 1
  ∧ find_parent sample_xml 0 0 = None.
Proof. by vm_compute. Qed.

(** The XML adapter on the sample document with the rules [.] (remove the
    root: skipped), [a] (remove: the element leaves its parent) and [b]
    (an unknown action): the log, the children of the root and the text of
    [b] in the file written. *)
Example scenario_xml :
  let '(res, w) :=
    anonymize_xml fake_det Re.sub findall_frag "in.xml"
      (XmlSource (Ok (sample_xml, 0)) Written)
      [(".", remove_rule); ("a", remove_rule); ("b", mask_rule)] w0 in
  res = Ok tt
  ∧ w_log w
    = [(WARNING, "Could not find parent of element .. Skipping removal.");
       (WARNING, "Unknown action 'mask' for element 'b'. Skipping.")]
  ∧ match w_output w with
    | Some (XmlFile h root) =>
        root = 0 ∧ children_of h 0 = [2] ∧ text_of h 2 = Some "t2"
    | _ => False
    end.
Proof. by vm_compute. Qed.

(** ** Further properties of the adapters *)

Section MoreProperties.

Context {faker_state : Type}.
Context (fake_gen : category → faker_state → string * faker_state).
Context (re_sub : string → string → string → re_result).
Context (findall : gmap nat node → elem_ref → string → result (list elem_ref)).

Implicit Types (w : @world faker_state) (cfg : config) (r : rule).

Local Abbreviation M := (@M faker_state).

(** *** Documents without ruled key *)

Lemma dict_set_same {V : Type} (key : string) (v : V) (d : dict V) :
  dict_get key d = Some v → dict_set key v d = d.
Proof.
  induction d as [|[k x] d IH]; simpl; [done|].
  destruct (String.eqb k key) eqn:E.
  - by intros [= ->].
  - intros H. by rewrite IH.
Qed.

(** A comprehension whose calls return their argument and leave the
    state alone, or raise [e] and leave the state alone. *)
Lemma list_comp_id_or {A : Type} (f : A → M A) (items : list A) w e (P : Prop) :
  Forall (λ x, f x w = (Ok x, w) ∨ (f x w = (Raise e, w) ∧ P)) items →
  list_comp f items w = (Ok items, w)
  ∨ (list_comp f items w = (Raise e, w) ∧ P).
Proof.
  induction 1 as [|x l Hx Hl IH]; simpl; [by left|].
  destruct Hx as [Hx|[Hx HP]].
  - erewrite bind_eq; [|done].
    destruct IH as [IH|[IH HP]].
    + left. by erewrite bind_eq.
    + right. split; [|done]. by erewrite bind_Raise.
  - right. split; [|done]. by erewrite bind_Raise.
Qed.

(** A document without ruled key comes back as it is, or the recursion
    limit is hit below its nesting depth; the state is left alone in both
    cases. *)
Lemma anonymize_json_ruleless cfg depth : ∀ (data : json) w,
  wf_json data = true → ruleless cfg data = true →
  anonymize_json fake_gen re_sub depth cfg data w = (Ok data, w)
  ∨ (anonymize_json fake_gen re_sub depth cfg data w
     = (Raise (RecursionError "maximum recursion depth exceeded"), w)
     ∧ (depth < json_depth data)%nat).
Proof.
  induction depth as [|depth IH]; intros data w Hwf Hrl.
  { right. split; [done|apply json_depth_pos]. }
  destruct data as [ | | | | |items|d]; try by left.
  - rewrite anonymize_json_list.
    destruct (list_comp_id_or (anonymize_json fake_gen re_sub depth cfg) items w
                (RecursionError "maximum recursion depth exceeded")
                (S depth < json_depth (JList items))%nat) as [Hc|[Hc Hd]].
    + simpl in Hwf, Hrl. rewrite forallb_forall in Hwf, Hrl.
      apply Forall_forall. intros x Hx.
      destruct (IH x w) as [?|[? ?]];
        [apply Hwf; by apply list_elem_of_In
        |apply Hrl; by apply list_elem_of_In|by left|].
      right. split; [done|]. pose proof (json_depth_item items x Hx). lia.
    + left. by erewrite bind_eq.
    + right. split; [|done]. by erewrite bind_Raise.
  - rewrite anonymize_json_dict.
    simpl in Hwf. apply andb_prop in Hwf as [Hnd Hwf].
    apply bool_decide_eq_true in Hnd.
    simpl in Hrl. rewrite forallb_forall in Hwf, Hrl.
    assert (Hloop : ∀ l, (∀ kv, kv ∈ l → kv ∈ d) →
              for_items (json_field fake_gen re_sub cfg
                           (anonymize_json fake_gen re_sub depth cfg)) (length d) l d w
              = (Ok d, w)
              ∨ (for_items (json_field fake_gen re_sub cfg
                              (anonymize_json fake_gen re_sub depth cfg))
                   (length d) l d w
                 = (Raise (RecursionError "maximum recursion depth exceeded"), w)
                 ∧ (S depth < json_depth (JDict d))%nat)).
    { induction l as [|[k v] l IHl]; intros Hsub; simpl;
        rewrite Nat.eqb_refl; simpl; [by left|].
      assert (Hin : (k, v) ∈ d) by (apply Hsub; left).
      assert (Hk := Hrl (k, v) (proj1 (list_elem_of_In _ _) Hin)). simpl in Hk.
      assert (Hwfv := Hwf (k, v) (proj1 (list_elem_of_In _ _) Hin)). simpl in Hwfv.
      destruct (dict_get k cfg) as [r|] eqn:Hkc; [done|].
      pose proof (json_depth_value d k v Hin) as Hdv.
      assert (Hstep : json_field fake_gen re_sub cfg
                        (anonymize_json fake_gen re_sub depth cfg) k v d w = (Ok d, w)
                      ∨ (json_field fake_gen re_sub cfg
                           (anonymize_json fake_gen re_sub depth cfg) k v d w
                         = (Raise (RecursionError "maximum recursion depth exceeded"), w)
                         ∧ (S depth < json_depth (JDict d))%nat)).
      { destruct v as [ | | | | |items|dv].
        1-5: left; by rewrite json_field_scalar.
        - rewrite json_field_list; [|done].
          destruct (list_comp_id_or (anonymize_json fake_gen re_sub depth cfg)
                      items w (RecursionError "maximum recursion depth exceeded")
                      (S depth < json_depth (JDict d))%nat) as [Hc|[Hc Hd]].
          + simpl in Hwfv, Hk. rewrite forallb_forall in Hwfv, Hk.
            apply Forall_forall. intros x Hx.
            destruct (IH x w) as [?|[? ?]];
              [apply Hwfv; by apply list_elem_of_In
              |apply Hk; by apply list_elem_of_In|by left|].
            right. split; [done|].
            pose proof (json_depth_item items x Hx). lia.
          + left. erewrite bind_eq; [|done]. unfold ret. do 2 f_equal.
            apply dict_set_same. by apply elem_dict_get.
          + right. split; [|done]. by erewrite bind_Raise.
        - rewrite json_field_dict; [|done].
          destruct (IH (JDict dv) w Hwfv Hk) as [Hv|[Hv Hd]].
          + left. erewrite bind_eq; [|done]. unfold ret. do 2 f_equal.
            apply dict_set_same. by apply elem_dict_get.
          + right. split; [by erewrite bind_Raise|]. lia. }
      destruct Hstep as [Hstep|[Hstep Hd]].
      - erewrite bind_eq; [|done]. apply IHl. intros kv Hkv. apply Hsub. by right.
      - right. split; [|done]. by erewrite bind_Raise. }
    destruct (Hloop d) as [Hd|[Hd Hlt]]; [done| |].
    + left. by erewrite bind_eq.
    + right. split; [|done]. by erewrite bind_Raise.
Qed.

(** *** The shape of what the JSON adapter returns *)

Lemma list_comp_length {A B : Type} (f : A → M B) (items : list A) w ys w' :
  list_comp f items w = (Ok ys, w') → length ys = length items.
Proof.
  revert w ys w'. induction items as [|x l IH]; intros w ys w'; simpl.
  - by intros [= <- _].
  - intros (y & w1 & _ & (ys' & w2 & Hl & [= <- _])%bind_Ok)%bind_Ok.
    simpl. f_equal. by eapply IH.
Qed.

Lemma for_items_keys cfg self used items (data : dict json) w out w' :
  (∀ k, k ∈ items.*1 → k ∈ data.*1) →
  for_items (json_field fake_gen re_sub cfg self) used items data w = (Ok out, w') →
  out.*1 = data.*1.
Proof.
  revert data w. induction items as [|[k v] l IH]; intros data w Hkeys; simpl.
  - case_match; [done|]. by intros [= <- _].
  - destruct (length data =? used)%nat eqn:Hlen; simpl; [|done].
    apply Nat.eqb_eq in Hlen.
    intros (d2 & w2 & Hstep & Hloop)%bind_Ok.
    assert (Hk : k ∈ data.*1) by (apply Hkeys; left).
    apply json_field_shape in Hstep as [->|[[x ->]| ->]].
    + eapply IH; [|done]. intros k' Hk'. apply Hkeys. by right.
    + rewrite <- (dict_set_keys k x data Hk).
      eapply IH; [|done]. intros k' Hk'.
      rewrite dict_set_keys; [|done]. apply Hkeys. by right.
    + rewrite for_items_size_changed in Hloop; [done|].
      apply dict_del_length in Hk. lia.
Qed.

(** *** The exceptions of the JSON adapter *)

Lemma list_comp_Raise {A B : Type} (f : A → M B) (items : list A) (P : exn → Prop) :
  Forall (λ x, ∀ w e w', f x w = (Raise e, w') → P e) items →
  ∀ w e w', list_comp f items w = (Raise e, w') → P e.
Proof.
  induction 1 as [|x l Hx Hl IH]; intros w e w'; simpl; [done|].
  unfold bind at 1. destruct (f x w) as [[y|e1] w1] eqn:Hy.
  - unfold bind. destruct (list_comp f l w1) as [[ys|e2] w2] eqn:Hys; [done|].
    intros [= <- _]. by eapply IH.
  - intros [= <- _]. by eapply Hx.
Qed.

(** The rule branch raises what the engine raises, and nothing else. *)
Lemma json_rule_Raise key r value data w e w' :
  json_rule fake_gen re_sub key r value data w = (Raise e, w') →
  ∃ regex s, get_regex r = Some regex
             ∧ re_sub regex (get_placeholder r) s = ReRaise e.
Proof.
  unfold json_rule. destruct (get_regex r) as [regex|] eqn:Hre.
  - destruct value; try done.
    destruct (re_sub regex (get_placeholder r) s) as [s'|err|e1] eqn:Hsub;
      try done.
    intros [= <- _]. eauto.
  - destruct (String.eqb (get_action r) "replace").
    + destruct (json_replacement_Ok fake_gen (get_placeholder r) w)
        as (v & w1 & Hv).
      by erewrite bind_eq.
    + by destruct (String.eqb (get_action r) "remove").
Qed.

(** The loop over the items raises what a step raises, or the error of
    the iterator, and this only after a step that deleted its key. *)
Lemma for_items_Raise cfg self used (Q : exn → Prop) :
  ∀ items (data : dict json) w e w',
  (length data = used ∧ (∀ k, k ∈ items.*1 → k ∈ data.*1)) ∨ removal_rule cfg →
  (∀ k v d w e w', (k, v) ∈ items →
     json_field fake_gen re_sub cfg self k v d w = (Raise e, w') → Q e) →
  for_items (json_field fake_gen re_sub cfg self) used items data w = (Raise e, w') →
  (e = RuntimeError "dictionary changed size during iteration" ∧ removal_rule cfg)
  ∨ Q e.
Proof.
  induction items as [|[k v] l IH]; intros data w e w' Hinv Hstep; simpl.
  - destruct (length data =? used)%nat eqn:Hlen; simpl; [done|].
    intros [= <- _]. left. split; [done|].
    destruct Hinv as [[Hl _]|?]; [|done]. apply Nat.eqb_neq in Hlen. done.
  - destruct (length data =? used)%nat eqn:Hlen; simpl.
    2: { intros [= <- _]. left. split; [done|].
         destruct Hinv as [[Hl _]|?]; [|done]. apply Nat.eqb_neq in Hlen. done. }
    apply Nat.eqb_eq in Hlen. unfold bind.
    destruct (json_field _ _ _ _ k v data w) as [[d2|e2] w2] eqn:Hk.
    + apply IH; [|intros; eapply Hstep; [by right|done]].
      destruct Hinv as [[_ Hkeys]|?]; [|by right].
      assert (Hkd : k ∈ data.*1) by (apply Hkeys; left).
      destruct (json_field_shape _ _ _ _ _ _ _ _ _ _ Hk) as [->|[[x ->]| ->]].
      * left. split; [done|]. intros k' Hk'. apply Hkeys. by right.
      * left. split.
        -- rewrite <- Hlen, <- !(length_fmap fst). by rewrite dict_set_keys.
        -- intros k' Hk'. rewrite dict_set_keys; [|done]. apply Hkeys. by right.
      * right. destruct (json_field_deleted _ _ _ _ _ _ _ _ _ Hkd Hk)
          as (r & ? & ? & ?). by exists k, r.
    + intros [= <- _]. right. eapply Hstep; [left|done].
Qed.

(** What the JSON adapter raises: the error of the dict iterator, under
    a rule set that has a rule resolving to removal; [RecursionError],
    when the room is less than the nesting depth of the document; or what the
    engine raised on the regex of a rule. *)
Lemma anonymize_json_Raise cfg depth : ∀ (data : json) w e w',
  anonymize_json fake_gen re_sub depth cfg data w = (Raise e, w') →
  (e = RuntimeError "dictionary changed size during iteration"
   ∧ removal_rule cfg)
  ∨ (e = RecursionError "maximum recursion depth exceeded"
     ∧ (depth < json_depth data)%nat)
  ∨ engine_raises re_sub cfg e.
Proof.
  induction depth as [|depth IH]; intros data w e w'.
  { intros [= <- _]. right; left. split; [done|apply json_depth_pos]. }
  assert (Hitems : ∀ items (bound : nat),
            (∀ x, x ∈ items → (json_depth x < bound)%nat) →
            ∀ w e w',
              list_comp (anonymize_json fake_gen re_sub depth cfg) items w
              = (Raise e, w') →
              (e = RuntimeError "dictionary changed size during iteration"
               ∧ removal_rule cfg)
              ∨ (e = RecursionError "maximum recursion depth exceeded"
                 ∧ (S depth < bound)%nat)
              ∨ engine_raises re_sub cfg e).
  { intros items bound Hb. apply list_comp_Raise, Forall_forall.
    intros x Hx w1 e1 w2 Hrun.
    destruct (IH _ _ _ _ Hrun) as [?|[[-> Hd]|?]]; [by left| |by right; right].
    right; left. split; [done|]. specialize (Hb x Hx). lia. }
  destruct data as [ | | | | |items|d]; try done.
  - rewrite anonymize_json_list. unfold bind.
    destruct (list_comp _ items w) as [[ys|e1] w1] eqn:Hc; [done|].
    intros [= <- _]. eapply Hitems; [|done]. apply json_depth_item.
  - rewrite anonymize_json_dict. unfold bind.
    destruct (for_items _ _ d d w) as [[d'|e1] w1] eqn:Hloop; [done|].
    intros [= <- _].
    refine (match for_items_Raise cfg _ (length d)
                    (λ e, (e = RuntimeError "dictionary changed size during iteration"
                           ∧ removal_rule cfg)
                          ∨ (e = RecursionError "maximum recursion depth exceeded"
                             ∧ (S depth < json_depth (JDict d))%nat)
                          ∨ engine_raises re_sub cfg e)
                    d d w e1 w1 (or_introl (conj eq_refl (λ k H, H))) _ Hloop with
            | or_introl H => or_introl H
            | or_intror H => H
            end).
    intros k v d0 w0 e0 w2 Hin Hstep.
    pose proof (json_depth_value d k v Hin) as Hdv.
    destruct (dict_get k cfg) as [r|] eqn:Hk.
    + rewrite (json_field_ruled _ _ _ _ _ r) in Hstep; [|done].
      apply json_rule_Raise in Hstep as (regex & s & Hre & Hsub).
      right; right. by exists k, r, regex, s.
    + destruct v as [ | | | | |items|dv].
      1-5: by rewrite json_field_scalar in Hstep.
      * rewrite json_field_list in Hstep; [|done]. unfold bind in Hstep.
        destruct (list_comp _ items w0) as [[ys|e3] w3] eqn:Hc; [done|].
        injection Hstep as <- _. eapply Hitems; [|done].
        intros x Hx. pose proof (json_depth_item items x Hx). lia.
      * rewrite json_field_dict in Hstep; [|done]. unfold bind in Hstep.
        destruct (anonymize_json _ _ depth cfg (JDict dv) w0)
          as [[v'|e3] w3] eqn:Hv; [done|].
        injection Hstep as <- _.
        destruct (IH _ _ _ _ Hv) as [?|[[-> Hd]|?]];
          [by left| |by right; right].
        right; left. split; [done|]. lia.
Qed.

(** *** Literal placeholders *)

Lemma not_fake_tag_inv (p : string) :
  not_fake_tag p = true →
  String.eqb p "fake.name" = false ∧ String.eqb p "fake.email" = false
  ∧ String.eqb p "fake.address" = false
  ∧ String.eqb p "fake.phone_number" = false
  ∧ String.eqb p "fake.date" = false.
Proof.
  unfold not_fake_tag.
  intros [[[[H1 H2]%andb_prop H3]%andb_prop H4]%andb_prop H5]%andb_prop.
  by rewrite !negb_true_iff in *.
Qed.

Lemma json_rule_literal key r value data w :
  get_regex r = None → get_action r = "replace" →
  not_fake_tag (get_placeholder r) = true → get_placeholder r ≠ "null" →
  json_rule fake_gen re_sub key r value data w
  = (Ok (dict_set key (JStr (get_placeholder r)) data), w).
Proof.
  unfold json_rule, json_replacement.
  intros -> -> (H1 & H2 & H3 & H4 & H5)%not_fake_tag_inv Hn%String.eqb_neq.
  by rewrite H1, H2, H3, H4, H5, Hn.
Qed.

Lemma csv_rule_literal field r value w :
  get_regex r = None → get_action r = "replace" →
  not_fake_tag (get_placeholder r) = true →
  csv_rule fake_gen re_sub field r value w = (Ok (Some (get_placeholder r)), w).
Proof.
  unfold csv_rule, csv_replacement.
  intros -> -> (H1 & H2 & H3 & H4 & H5)%not_fake_tag_inv.
  by rewrite H1, H2, H3, H4, H5.
Qed.

Lemma xml_element_literal root path r e (h : gmap nat node) w :
  get_regex r = None → get_action r = "replace" →
  not_fake_tag (get_placeholder r) = true →
  xml_element fake_gen re_sub root path r e h w
  = (Ok (set_text e (get_placeholder r) h), w).
Proof.
  unfold xml_element, xml_replacement.
  intros -> -> (H1 & H2 & H3 & H4 & H5)%not_fake_tag_inv.
  by rewrite H1, H2, H3, H4, H5.
Qed.

(** *** A regex that the engine rejects *)

Lemma csv_rule_regex_error field r regex s err w :
  get_regex r = Some regex →
  re_sub regex (get_placeholder r) s = ReError err →
  csv_rule fake_gen re_sub field r (Some s) w
  = (Ok (Some s),
     add_log w ERROR ("Invalid regex for field " +:+ field +:+ ": " +:+ err)).
Proof. unfold csv_rule. by intros -> ->. Qed.

Lemma xml_element_regex_error root path r e regex s err (h : gmap nat node) w :
  get_regex r = Some regex →
  text_of h e = Some s → s ≠ "" →
  re_sub regex (get_placeholder r) s = ReError err →
  xml_element fake_gen re_sub root path r e h w
  = (Ok h,
     add_log w ERROR ("Invalid regex for element " +:+ path +:+ ": " +:+ err)).
Proof.
  unfold xml_element. intros -> -> Hs%String.eqb_neq ->. by rewrite Hs.
Qed.

Lemma xml_element_no_text root path r e regex (h : gmap nat node) w :
  get_regex r = Some regex →
  text_of h e = None ∨ text_of h e = Some "" →
  xml_element fake_gen re_sub root path r e h w = (Ok h, w).
Proof. unfold xml_element. by intros -> [->| ->]. Qed.

(** *** What the XML adapter keeps of every element *)

Lemma list_remove_sublist (x : elem_ref) (l : list elem_ref) :
  list_remove x l `sublist_of` l.
Proof.
  induction l as [|y l IH]; simpl; [done|].
  destruct (Nat.eqb y x); [by apply sublist_cons|by apply sublist_skip].
Qed.

Lemma list_remove_not_elem (x : elem_ref) (l : list elem_ref) :
  NoDup l → x ∉ list_remove x l.
Proof.
  induction l as [|y l IH]; simpl; [intros _; apply not_elem_of_nil|].
  intros [Hy Hl]%NoDup_cons. destruct (Nat.eqb y x) eqn:E.
  - by apply Nat.eqb_eq in E as ->.
  - apply Nat.eqb_neq in E. apply not_elem_of_cons. split; [done|by apply IH].
Qed.

Lemma same_shell_refl (n : node) : same_shell n n.
Proof. by unfold same_shell. Qed.

Lemma shell_preserved_refl (h : gmap nat node) : shell_preserved h h.
Proof. intros e. destruct (h !! e); [apply same_shell_refl|done]. Qed.

Lemma shell_preserved_trans (h1 h2 h3 : gmap nat node) :
  shell_preserved h1 h2 → shell_preserved h2 h3 → shell_preserved h1 h3.
Proof.
  intros H12 H23 e. specialize (H12 e). specialize (H23 e).
  destruct (h1 !! e) as [n1|], (h2 !! e) as [n2|], (h3 !! e) as [n3|];
    try done.
  destruct H12 as (? & ? & ? & ?), H23 as (? & ? & ? & ?).
  unfold same_shell. split_and!; try congruence. by etrans.
Qed.

Lemma shell_preserved_alter (f : node → node) (e0 : elem_ref)
    (h : gmap nat node) :
  (∀ n, same_shell n (f n)) → shell_preserved h (alter f e0 h).
Proof.
  intros Hf e. destruct (decide (e0 = e)) as [->|Hne].
  - rewrite lookup_alter_eq. destruct (h !! e); [apply Hf|done].
  - rewrite lookup_alter_ne; [|done]. destruct (h !! e); [apply same_shell_refl|done].
Qed.

Lemma xml_element_shell root path r e (h : gmap nat node) w h' w' :
  xml_element fake_gen re_sub root path r e h w = (Ok h', w') →
  shell_preserved h h'.
Proof.
  intros Hrun.
  destruct (xml_element_shape fake_gen re_sub _ _ _ _ _ _ _ _ Hrun) as [_ Hshape].
  destruct Hshape as [->|[[s ->]|(parent & _ & ->)]].
  - apply shell_preserved_refl.
  - apply shell_preserved_alter. intros n. by unfold same_shell.
  - apply shell_preserved_alter. intros n. unfold same_shell; simpl.
    split_and!; try done. apply list_remove_sublist.
Qed.

Lemma for_each_xml_rule_shell root cfg (h : gmap nat node) w h' w' :
  for_each (xml_rule fake_gen re_sub findall root) cfg h w = (Ok h', w') →
  shell_preserved h h'.
Proof.
  revert h w. induction cfg as [|[path r] cfg IH]; intros h w; simpl.
  - intros [= <- _]. apply shell_preserved_refl.
  - intros (h1 & w1 & Hstep & Hloop)%bind_Ok.
    eapply shell_preserved_trans; [|by eapply IH].
    unfold xml_rule in Hstep.
    destruct (findall h root path) as [elements|err]; [|done].
    clear Hloop IH. revert h w Hstep.
    induction elements as [|e l IHl]; intros h w; simpl.
    + intros [= <- _]. apply shell_preserved_refl.
    + intros (h2 & w2 & Hstep & Hloop)%bind_Ok.
      eapply shell_preserved_trans; [by eapply xml_element_shell|by eapply IHl].
Qed.

(** *** [find_parent] *)

Lemma find_parent_None_iff (h : gmap nat node) root e :
  find_parent h root e = None ↔
  ∀ p, p ∈ iter h root → e ∉ children_of h p.
Proof.
  unfold find_parent. split.
  - intros Hnone p Hp Hin.
    apply list_elem_of_In in Hp.
    pose proof (find_none _ _ Hnone p Hp) as Hf. simpl in Hf.
    assert (existsb (Nat.eqb e) (children_of h p) = true); [|congruence].
    apply existsb_exists. exists e. split; [by apply list_elem_of_In|].
    apply Nat.eqb_refl.
  - intros Hall. induction (iter h root) as [|p l IH]; simpl; [done|].
    destruct (existsb (Nat.eqb e) (children_of h p)) eqn:E.
    + exfalso. apply existsb_exists in E as (c & Hc & ->%Nat.eqb_eq).
      apply (Hall p); [left|by apply list_elem_of_In].
    + apply IH. intros q Hq. apply Hall. by right.
Qed.

Lemma find_parent_Some_iter (h : gmap nat node) root e parent :
  find_parent h root e = Some parent →
  parent ∈ iter h root ∧ e ∈ children_of h parent.
Proof.
  intros Hp. split; [|by eapply find_parent_Some].
  unfold find_parent in Hp. apply find_some in Hp as [Hin _].
  by apply list_elem_of_In.
Qed.

(** After the removal the element has no parent left, when it had one
    place in the tree. *)
Lemma remove_child_detaches (h : gmap nat node) root e parent :
  find_parent h root e = Some parent →
  NoDup (children_of h parent) →
  (∀ p, e ∈ children_of h p → p = parent) →
  find_parent (remove_child parent e h) root e = None.
Proof.
  intros Hp Hnd Huniq. apply find_parent_orphan. intros p n Hn Hin.
  unfold remove_child in Hn. destruct (decide (parent = p)) as [->|Hne].
  - rewrite lookup_alter_eq in Hn. apply fmap_Some in Hn as (n0 & Hp0 & ->).
    simpl in Hin.
    assert (Hc : children_of h p = children n0).
    { unfold children_of, elem_ref. by rewrite Hp0. }
    rewrite Hc in Hnd. by apply (list_remove_not_elem e (children n0)).
  - rewrite lookup_alter_ne in Hn; [|done].
    apply Hne. symmetry. apply Huniq. unfold children_of, elem_ref.
    by rewrite Hn.
Qed.

(** *** A CSV file that stops reading *)

Lemma anonymize_csv_truncates cfg input_file detected write_error
    (header : list string) (rows : list (list string)) e rest w :
  (∀ f r, f ∈ header → dict_get f cfg = Some r → rule_safe re_sub r) →
  write_error header = None →
  (∀ line out, line ∈ csv_records rows →
     csv_written fake_gen re_sub cfg header line out → write_error out = None) →
  is_exception e = true →
  ∃ outs w1,
    anonymize_csv fake_gen re_sub input_file
      (CsvSource detected None (Ok header :: (Ok <$> rows) ++ Raise e :: rest)
         write_error)
      cfg w
    = (Ok tt, add_log w1 ERROR (csv_failure_message input_file e))
    ∧ w_output w1 = Some (CsvFile (header :: outs))
    ∧ Forall2 (csv_written fake_gen re_sub cfg header) (csv_records rows) outs.
Proof.
  intros Hsafe Hhead Hacc He.
  destruct (anonymize_csv_unfold fake_gen re_sub input_file
              (CsvSource detected None
                 (Ok header :: (Ok <$> rows) ++ Raise e :: rest) write_error)
              cfg w) as (w0 & _ & _ & _ & ->).
  unfold anonymize_csv_body. cbn [csv_open csv_lines csv_write_error].
  set (w3 := World (w_faker w0) (w_log w0) (Some (CsvFile []))).
  assert (H3 : write_file (CsvFile []) w0 = (Ok tt, w3)) by done.
  erewrite bind_eq; [|done].
  pose proof (dict_writer_writerow_Ok write_error header
    (list_to_map (zip header (Some <$> header))) w3 []) as Hh.
  rewrite header_row_cells in Hh. cbn [app] in Hh.
  erewrite bind_eq; [|apply Hh; [apply header_row_keys|done..]].
  set (w4 := World (w_faker w3) (w_log w3) (Some (CsvFile [header]))).
  destruct (csv_rows_failure fake_gen re_sub write_error cfg header rows e rest
              w4 [header] Hsafe Hacc eq_refl)
    as (outs & w' & Hrun & Ho & Hall).
  rewrite Hrun, He. by exists outs, w'.
Qed.

(** An exception of the engine or of the writer at a row ends the run
    there: the adapter logs it and returns, and the file holds the header
    and the rows written before. *)
Lemma csv_rows_stops write_error cfg (header : list string)
    (rows : list (list string)) (line : list string) e rest w pre :
  (∀ f r, f ∈ header → dict_get f cfg = Some r → rule_safe re_sub r) →
  (∀ l out, l ∈ csv_records rows →
     csv_written fake_gen re_sub cfg header l out → write_error out = None) →
  line ≠ [] →
  (∀ w, ∃ w', csv_row fake_gen re_sub write_error cfg header
                (dict_reader_row header line) w = (Raise e, w')
              ∧ w_output w' = w_output w) →
  w_output w = Some (CsvFile pre) →
  ∃ outs w',
    csv_rows fake_gen re_sub write_error cfg header
      ((Ok <$> rows) ++ Ok line :: rest) w
    = (Raise e, w')
    ∧ w_output w' = Some (CsvFile (pre ++ outs))
    ∧ Forall2 (csv_written fake_gen re_sub cfg header) (csv_records rows) outs.
Proof.
  intros Hsafe Hacc Hline Hfail. revert w pre Hacc.
  induction rows as [|l rows IH]; intros w pre Hacc Hout.
  - destruct (Hfail w) as (w' & Hrow & Ho).
    exists [], w'. rewrite app_nil_r. split_and!; [|congruence|done].
    cbn [fmap list_fmap app csv_rows]. destruct line as [|c line]; [done|].
    by erewrite bind_Raise.
  - destruct l as [|c l].
    + rewrite csv_records_blank in *.
      destruct (IH w pre Hacc Hout) as (outs & w' & Hrun & Ho & Hall).
      exists outs, w'. by split_and!.
    + rewrite csv_records_cons in *.
      destruct (csv_row_spec fake_gen re_sub write_error cfg header (c :: l) w pre
                  Hsafe) as (out & w1 & Hrow & Ho1 & Hw & _); [|done|].
      { intros out. apply Hacc. left. }
      destruct (IH w1 (pre ++ [out])%list) as (outs & w' & Hrun & Ho & Hall);
        [|done|].
      { intros l0 o Hl. apply Hacc. by right. }
      exists (out :: outs), w'. split_and!.
      * rewrite fmap_cons. cbn [app csv_rows].
        erewrite bind_eq; [|done]. done.
      * rewrite Ho. by rewrite <- app_assoc.
      * by constructor.
Qed.

(** *** A CSV file none of whose columns has a rule *)




(** *** When the XML adapter touches the output file *)

Lemma keeps_output_xml_element root path r e (h : gmap nat node) :
  keeps_output (xml_element fake_gen re_sub root path r e h).
Proof.
  unfold xml_element, xml_replacement.
  repeat case_match;
    repeat first
      [ apply keeps_output_ret
      | apply keeps_output_raise
      | apply keeps_output_logging
      | apply keeps_output_fake
      | apply keeps_output_bind; [|intros] ].
Qed.

Lemma keeps_output_xml_rule root item (h : gmap nat node) :
  keeps_output (xml_rule fake_gen re_sub findall root item h).
Proof.
  destruct item as [path r]. unfold xml_rule.
  destruct (findall h root path); [|apply keeps_output_raise].
  apply keeps_output_for_each. intros; apply keeps_output_xml_element.
Qed.

(** A handler of the XML adapter only logs. *)
Lemma anonymize_xml_unfold input_file src cfg w :
  anonymize_xml fake_gen re_sub findall input_file src cfg w
  = match anonymize_xml_body fake_gen re_sub findall src cfg w with
    | (Ok a, w1) => (Ok a, w1)
    | (Raise e, w1) =>
        if is_exception e
        then (Ok tt, add_log w1 ERROR (xml_failure_message input_file e))
        else (Raise e, w1)
    end.
Proof.
  unfold anonymize_xml, try_except.
  destruct (anonymize_xml_body _ _ _ src cfg w) as [[[]|e] w1]; [done|].
  destruct (is_exception e); [|done]. by destruct e.
Qed.

(** The output file is opened after the loop over the rules: it is left
    as it was unless the input parsed and the loop returned; then it holds
    the whole transformed document when the write completes, is left as it
    was when it cannot be opened, and holds a partial document when the
    write fails after opening. *)
Lemma anonymize_xml_output input_file src cfg w res w' :
  anonymize_xml fake_gen re_sub findall input_file src cfg w = (res, w') →
  (w_output w' = w_output w
   ∧ ((∃ e, xml_parse src = Raise e)
      ∨ (∃ h root e w1,
           xml_parse src = Ok (h, root)
           ∧ for_each (xml_rule fake_gen re_sub findall root) cfg h w
             = (Raise e, w1))
      ∨ ∃ e, xml_write src = OpenFails e))
  ∨ ∃ h root h' w1,
      xml_parse src = Ok (h, root)
      ∧ for_each (xml_rule fake_gen re_sub findall root) cfg h w = (Ok h', w1)
      ∧ ((xml_write src = Written ∧ res = Ok tt
          ∧ w' = World (w_faker w1) (w_log w1) (Some (XmlFile h' root)))
         ∨ ((∃ e, xml_write src = WriteFails e)
            ∧ w_output w' = Some PartialFile)).
Proof.
  rewrite anonymize_xml_unfold. unfold anonymize_xml_body.
  destruct (xml_parse src) as [[h root]|e].
  - unfold bind.
    destruct (for_each _ cfg h w) as [[h'|e] w1] eqn:Hloop.
    + assert (Ho : w_output w1 = w_output w).
      { eapply keeps_output_for_each; [|done].
        intros; apply keeps_output_xml_rule. }
      destruct (xml_write src) as [|e|e] eqn:Hw.
      * intros [= <- <-]. right. exists h, root, h', w1. split_and!; [done..|].
        by left.
      * unfold raise. left.
        assert (w_output w' = w_output w1) as ->.
        { destruct (is_exception e); by injection H as _ <-. }
        split; [done|]. right; right. eauto.
      * unfold write_file, raise. simpl. right.
        exists h, root, h', w1. split_and!; [done..|]. right. split; [eauto|].
        destruct (is_exception e); by injection H as _ <-.
    + unfold raise. left.
      assert (w_output w' = w_output w1) as ->.
      { destruct (is_exception e); by injection H as _ <-. }
      split; [eapply keeps_output_for_each; [|done];
              intros; apply keeps_output_xml_rule|].
      right; left. by exists h, root, e, w1.
  - unfold raise. left. split; [|left; eauto].
    destruct (is_exception e); by injection H as _ <-.
Qed.

(** *** The JSON adapter leaves the output file alone *)

Lemma keeps_output_list_comp {A B : Type} (f : A → M B) (items : list A) :
  Forall (λ x, keeps_output (f x)) items → keeps_output (list_comp f items).
Proof.
  induction 1 as [|x l Hx Hl IH]; simpl.
  - apply keeps_output_ret.
  - apply keeps_output_bind; [done|]. intros y.
    apply keeps_output_bind; [done|]. intros ys. apply keeps_output_ret.
Qed.

Lemma keeps_output_json_rule key r value data :
  keeps_output (json_rule fake_gen re_sub key r value data).
Proof.
  unfold json_rule, json_replacement.
  repeat case_match;
    repeat first
      [ apply keeps_output_ret
      | apply keeps_output_raise
      | apply keeps_output_logging
      | apply keeps_output_fake
      | apply keeps_output_bind; [|intros] ].
Qed.

Lemma keeps_output_for_items body used items data :
  (∀ k v d, (k, v) ∈ items → keeps_output (body k v d)) →
  keeps_output (for_items (faker_state:=faker_state) body used items data).
Proof.
  revert data. induction items as [|[k v] l IH]; simpl; intros data Hb.
  - case_match; [apply keeps_output_raise | apply keeps_output_ret].
  - case_match; [apply keeps_output_raise|].
    apply keeps_output_bind; [apply Hb; left|].
    intros d'. apply IH. intros k' v' d'' Hin. apply Hb. by right.
Qed.

Lemma keeps_output_json_field cfg (self : json → M json) key value data :
  (∀ v, keeps_output (self v)) →
  keeps_output (json_field fake_gen re_sub cfg self key value data).
Proof.
  intros Hself. unfold json_field.
  destruct (dict_get key cfg) as [r|]; [apply keeps_output_json_rule|].
  destruct value; try apply keeps_output_ret.
  - apply keeps_output_bind; [|intros; apply keeps_output_ret].
    apply keeps_output_list_comp, Forall_forall. intros; apply Hself.
  - apply keeps_output_bind; [apply Hself|intros; apply keeps_output_ret].
Qed.

Lemma keeps_output_anonymize_json depth cfg (data : json) :
  keeps_output (anonymize_json fake_gen re_sub depth cfg data).
Proof.
  revert data. induction depth as [|depth IH]; intros data; simpl.
  - apply keeps_output_raise.
  - destruct data; try apply keeps_output_ret.
    + apply keeps_output_bind; [|intros; apply keeps_output_ret].
      apply keeps_output_list_comp, Forall_forall. intros; apply IH.
    + apply keeps_output_bind; [|intros; apply keeps_output_ret].
      apply keeps_output_for_items. intros k v d' Hin.
      by apply keeps_output_json_field.
Qed.

(** *** The stages of [main] *)

Lemma main_after_config i (oc : option config) w :
  config_stage i oc →
  main fake_gen re_sub findall i w
  = bind (if fs_input_exists i then ret tt
          else bind (logging ERROR
                       ("Input file does not exist: " +:+ arg_input_file i))
                 (λ _, exit 1))
      (λ _, try_except
              (match arg_format i with
               | FormatJson => main_json fake_gen re_sub i oc
               | FormatCsv => main_csv fake_gen re_sub i oc
               | FormatXml => main_xml fake_gen re_sub findall i oc
               end)
              (λ e, bind (logging ERROR ("An error occurred: " +:+ exn_str e))
                      (λ _, exit 1))) w.
Proof.
  unfold main.
  intros [[-> ->]|[[-> ->]|(path & c & -> & Hp%String.eqb_neq & -> & ->)]];
    try done.
  by rewrite Hp.
Qed.

(** A configuration file that does not load: the two failures that
    [load_config] handles are logged, a file that holds [null] is not, and
    [main] exits with status 1; another exception leaves [load_config] and
    [main], which calls it outside its [try]. *)
Lemma main_config_failure i path w :
  arg_config i = Some path → path ≠ "" →
  (fs_config i = ConfigNotFound →
   main fake_gen re_sub findall i w
   = (Raise (SystemExit 1),
      add_log w ERROR ("Configuration file not found: " +:+ path)))
  ∧ (fs_config i = ConfigInvalidJson →
     main fake_gen re_sub findall i w
     = (Raise (SystemExit 1),
        add_log w ERROR
          ("Invalid JSON format in configuration file: " +:+ path)))
  ∧ (fs_config i = ConfigNull →
     main fake_gen re_sub findall i w = (Raise (SystemExit 1), w))
  ∧ (∀ e, fs_config i = ConfigUnreadable e →
          main fake_gen re_sub findall i w = (Raise e, w)).
Proof.
  intros Hc Hp%String.eqb_neq. unfold main. rewrite Hc, Hp.
  split_and!; [by intros ->..|]. by intros e ->.
Qed.

Lemma main_input_missing i (oc : option config) w :
  config_stage i oc → fs_input_exists i = false →
  main fake_gen re_sub findall i w
  = (Raise (SystemExit 1),
     add_log w ERROR ("Input file does not exist: " +:+ arg_input_file i)).
Proof.
  intros Hstage Hx. rewrite (main_after_config _ _ _ Hstage). by rewrite Hx.
Qed.

Lemma main_without_config i w :
  config_stage i None → fs_input_exists i = true →
  (arg_format i = FormatCsv →
   main fake_gen re_sub findall i w
   = (Raise (SystemExit 1),
      add_log w ERROR "Configuration file is required for CSV anonymization."))
  ∧ (arg_format i = FormatXml →
     main fake_gen re_sub findall i w
     = (Raise (SystemExit 1),
        add_log w ERROR "Configuration file is required for XML anonymization."))
  ∧ (arg_format i = FormatJson →
     ∀ data, json_load (fs_json i) = Ok data →
     main fake_gen re_sub findall i w
     = (Raise (SystemExit 1),
        add_log w ERROR "Configuration file is required for JSON anonymization."))
  ∧ (arg_format i = FormatJson →
     ∀ msg, json_load (fs_json i) = Raise (JSONDecodeError msg) →
     main fake_gen re_sub findall i w
     = (Raise (SystemExit 1),
        add_log w ERROR ("Error decoding JSON file: " +:+ msg))).
Proof.
  intros Hstage Hx. rewrite (main_after_config _ _ _ Hstage), Hx.
  split_and!; intros ->; try done.
  - intros data Hload. unfold bind, try_except, main_json, bind, try_except.
    by rewrite Hload.
  - intros msg Hload. unfold bind, try_except, main_json, bind, try_except.
    by rewrite Hload.
Qed.

(** The JSON branch with a configuration and a document that loads. *)
Lemma main_json_outcome i cfg data w :
  config_stage i (Some cfg) → fs_input_exists i = true →
  arg_format i = FormatJson → json_load (fs_json i) = Ok data →
  (∀ out w1,
     anonymize_json fake_gen re_sub (stack_room i) cfg data w = (Ok out, w1) →
     (json_write (fs_json i) = Written →
      main fake_gen re_sub findall i w
      = (Ok tt,
         World (w_faker w1)
           (w_log w1 ++ [(INFO, "JSON data anonymized and saved to "
                                +:+ arg_output_file i)])
           (Some (JsonFile out))))
     ∧ (∀ e, json_write (fs_json i) = OpenFails e → is_exception e = true →
             main fake_gen re_sub findall i w
             = (Raise (SystemExit 1),
                add_log w1 ERROR ("An error occurred: " +:+ exn_str e))
             ∧ w_output w1 = w_output w)
     ∧ (∀ e, json_write (fs_json i) = WriteFails e → is_exception e = true →
             main fake_gen re_sub findall i w
             = (Raise (SystemExit 1),
                World (w_faker w1)
                  (w_log w1 ++ [(ERROR, "An error occurred: " +:+ exn_str e)])
                  (Some PartialFile))))
  ∧ (∀ e w1,
       anonymize_json fake_gen re_sub (stack_room i) cfg data w = (Raise e, w1) →
       is_exception e = true →
       main fake_gen re_sub findall i w
       = (Raise (SystemExit 1),
          add_log w1 ERROR ("An error occurred: " +:+ exn_str e))
       ∧ w_output w1 = w_output w).
Proof.
  intros Hstage Hx Hfmt Hload.
  rewrite (main_after_config _ _ _ Hstage), Hx, Hfmt.
  erewrite bind_eq; [|done].
  assert (Hl : ∀ h, try_except
                      (match json_load (fs_json i) with
                       | Ok data => ret data
                       | Raise e => raise e
                       end) h w = (Ok data, w)).
  { intros h. unfold try_except. by rewrite Hload. }
  split.
  - intros out w1 Hrun.
    assert (Hm : main_json fake_gen re_sub i (Some cfg) w
                 = match json_write (fs_json i) with
                   | Written =>
                       bind (write_file (JsonFile out))
                         (λ _, logging INFO
                                 ("JSON data anonymized and saved to "
                                  +:+ arg_output_file i)) w1
                   | OpenFails e => raise e w1
                   | WriteFails e =>
                       bind (write_file PartialFile) (λ _, raise e) w1
                   end).
    { unfold main_json. erewrite bind_eq; [|apply Hl].
      erewrite bind_eq; [|done]. by destruct (json_write (fs_json i)). }
    unfold try_except. rewrite Hm. split_and!.
    + by intros ->.
    + intros e -> He. unfold raise. rewrite He. split; [done|].
      by eapply keeps_output_anonymize_json.
    + intros e -> He. unfold bind, write_file, raise. by rewrite He.
  - intros e w1 Hrun He.
    split; [|by eapply keeps_output_anonymize_json].
    assert (Hm : main_json fake_gen re_sub i (Some cfg) w = (Raise e, w1)).
    { unfold main_json. erewrite bind_eq; [|apply Hl]. by erewrite bind_Raise. }
    unfold try_except. by rewrite Hm, He.
Qed.

End MoreProperties.

(** ** Further properties, stated for every provider and engine *)

Lemma ruleless_nil (data : json) : ruleless [] data = true.
Proof.
  induction data as [ | | | | |items IH|d IH] using json_ind; try done; simpl.
  - apply forallb_forall. rewrite Forall_forall in IH.
    intros x Hx. apply IH. by apply list_elem_of_In.
  - apply forallb_forall. rewrite Forall_forall in IH.
    intros kv Hkv. apply IH. by apply list_elem_of_In.
Qed.

(** X1: a document none of whose keys, at any depth, has an entry in the
    rule set comes back from the JSON adapter as it is, or the call raises
    [RecursionError]; in both cases nothing is logged and no value is
    drawn.  It comes back when the recursion limit leaves room for its
    nesting depth; so does every document under the empty rule set. *)
Theorem ruleless_document_unchanged :
  ∀ (faker_state : Type)
    (fake_gen : category → faker_state → string * faker_state)
    (re_sub : string → string → string → re_result)
    (depth : nat) (data : json) (w : @world faker_state),
    wf_json data = true →
    (∀ cfg, ruleless cfg data = true →
       (anonymize_json fake_gen re_sub depth cfg data w = (Ok data, w)
        ∨ anonymize_json fake_gen re_sub depth cfg data w
          = (Raise (RecursionError "maximum recursion depth exceeded"), w))
       ∧ ((json_depth data ≤ depth)%nat →
          anonymize_json fake_gen re_sub depth cfg data w = (Ok data, w)))
    ∧ ((json_depth data ≤ depth)%nat →
       anonymize_json fake_gen re_sub depth [] data w = (Ok data, w)).
Proof.
  intros faker_state fake_gen re_sub depth data w Hwf.
  assert (Hrl : ∀ cfg, ruleless cfg data = true →
            (anonymize_json fake_gen re_sub depth cfg data w = (Ok data, w)
             ∨ anonymize_json fake_gen re_sub depth cfg data w
               = (Raise (RecursionError "maximum recursion depth exceeded"), w))
            ∧ ((json_depth data ≤ depth)%nat →
               anonymize_json fake_gen re_sub depth cfg data w = (Ok data, w))).
  { intros cfg Hrl.
    destruct (anonymize_json_ruleless fake_gen re_sub cfg depth data w Hwf Hrl)
      as [Hok|[Hrec Hlt]].
    - split; [by left|done].
    - split; [by right|]. lia. }
  split; [done|]. apply Hrl, ruleless_nil.
Qed.

Lemma ruleless_document_unchanged_witness :
  anonymize_json fake_det Re.sub room [("ssn", null_rule)]
    (JDict [("who", JList [JDict [("name", JStr "Alice")]]); ("n", JInt 1)]) w0
  = (Ok (JDict [("who", JList [JDict [("name", JStr "Alice")]]); ("n", JInt 1)]),
     w0).
Proof.
  apply (proj1 (ruleless_document_unchanged nat fake_det Re.sub room
                  (JDict [("who", JList [JDict [("name", JStr "Alice")]]);
                          ("n", JInt 1)]) w0 ltac:(by vm_compute))
           [("ssn", null_rule)] ltac:(by vm_compute)).
  apply Nat.leb_le. by vm_compute.
Defined.

(** X2: whenever the JSON adapter returns, an object comes back as an
    object with the same keys in the same order, an array as an array of
    the same length, and any other value as itself. *)
Theorem json_shape_kept :
  ∀ (faker_state : Type)
    (fake_gen : category → faker_state → string * faker_state)
    (re_sub : string → string → string → re_result)
    (depth : nat) (cfg : config) (data out : json) (w w' : @world faker_state),
    anonymize_json fake_gen re_sub depth cfg data w = (Ok out, w') →
    match data with
    | JDict d => ∃ d', out = JDict d' ∧ d'.*1 = d.*1
    | JList items => ∃ ys, out = JList ys ∧ length ys = length items
    | _ => out = data
    end.
Proof.
  intros faker_state fake_gen re_sub depth cfg data out w w' Hrun.
  destruct depth as [|depth]; [done|].
  destruct data as [ | | | | |items|d]; simpl in Hrun;
    try (by injection Hrun as <- _).
  - apply bind_Ok in Hrun as (ys & w1 & Hc & [= <- _]).
    exists ys. split; [done|]. by eapply list_comp_length.
  - apply bind_Ok in Hrun as (d' & w1 & Hloop & [= <- _]).
    exists d'. split; [done|]. by eapply for_items_keys.
Qed.

Lemma json_shape_kept_witness :
  ∃ d', JDict [("code", JStr "abc#"); ("n", JInt 1)] = JDict d'
        ∧ d'.*1 = ["code"; "n"].
Proof.
  apply (json_shape_kept nat fake_det Re.sub room [("code", digits_rule)]
           (JDict [("code", JStr "abc123"); ("n", JInt 1)])
           (JDict [("code", JStr "abc#"); ("n", JInt 1)]) w0 w0).
  by vm_compute.
Defined.

(** X3: what the JSON adapter raises is the [RuntimeError] of the dict
    iterator, and then the rule set has a rule resolving to removal; or
    [RecursionError], and then the recursion limit leaves less room than
    the nesting depth of the document; or an exception that [re.sub] raised
    on the regex of a rule and that is not [re.error].  The output file is
    not touched. *)
Theorem json_exceptions_classified :
  ∀ (faker_state : Type)
    (fake_gen : category → faker_state → string * faker_state)
    (re_sub : string → string → string → re_result)
    (depth : nat) (cfg : config) (data : json) (w w' : @world faker_state)
    (e : exn),
    anonymize_json fake_gen re_sub depth cfg data w = (Raise e, w') →
    ((e = RuntimeError "dictionary changed size during iteration"
      ∧ removal_rule cfg ∧ ¬ no_removal cfg)
     ∨ (e = RecursionError "maximum recursion depth exceeded"
        ∧ (depth < json_depth data)%nat)
     ∨ engine_raises re_sub cfg e)
    ∧ w_output w' = w_output w.
Proof.
  intros faker_state fake_gen re_sub depth cfg data w w' e Hrun. split.
  - destruct (anonymize_json_Raise fake_gen re_sub cfg depth data w e w' Hrun)
      as [[-> Hrem]|[?|?]]; [left|by right; left|by right; right].
    split_and!; [done..|].
    intros Hno. destruct Hrem as (k & r & Hk & Hre & Hact).
    by apply (Hno k r).
  - by eapply keeps_output_anonymize_json.
Qed.

(** X3 on a regex whose repetition count is beyond the limit of the
    engine: the exception is not [re.error] and leaves the adapter. *)
Lemma json_exceptions_classified_witness :
  anonymize_json fake_det Re.sub room
    [("code", Rule None (Some "#") (Some "a{4294967296}"))]
    (JDict [("code", JStr "abc123"); ("n", JInt 1)]) w0
  = (Raise (OverflowError "the repetition number is too large"), w0)
  ∧ w_output w0 = w_output w0.
Proof.
  assert (Hrun : anonymize_json fake_det Re.sub room
                   [("code", Rule None (Some "#") (Some "a{4294967296}"))]
                   (JDict [("code", JStr "abc123"); ("n", JInt 1)]) w0
                 = (Raise (OverflowError "the repetition number is too large"), w0))
    by by vm_compute.
  split; [exact Hrun|].
  exact (proj2 (json_exceptions_classified nat fake_det Re.sub room _ _ w0 w0 _
                  Hrun)).
Defined.

(** X4: a rule without regex whose action is [replace] (the default when
    the rule gives none) and whose placeholder (the empty string when the
    rule gives none) is not a provider tag overwrites the field with the
    placeholder, whatever the field held: the JSON object returned holds
    the string under the key (unless the placeholder is ["null"]), the CSV
    cell written is the placeholder, the XML step sets the text to it.  A
    rule with no key at all thus blanks the field. *)
Theorem literal_placeholder_replaces :
  ∀ (faker_state : Type)
    (fake_gen : category → faker_state → string * faker_state)
    (re_sub : string → string → string → re_result)
    (cfg : config) (r : rule),
    get_regex r = None → get_action r = "replace" →
    not_fake_tag (get_placeholder r) = true →
    (get_placeholder r ≠ "null" →
     ∀ depth d key value (w : @world faker_state) out w',
       NoDup d.*1 → (key, value) ∈ d → dict_get key cfg = Some r →
       anonymize_json fake_gen re_sub depth cfg (JDict d) w = (Ok out, w') →
       ∃ d', out = JDict d'
             ∧ dict_get key d' = Some (JStr (get_placeholder r)))
    ∧ (∀ (header line out : list string) (i : nat) (f : string),
         csv_written fake_gen re_sub cfg header line out →
         header !! i = Some f → dict_get f cfg = Some r →
         out !! i = Some (get_placeholder r))
    ∧ (∀ root path e (h : gmap nat node) (w : @world faker_state),
         xml_element fake_gen re_sub root path r e h w
         = (Ok (set_text e (get_placeholder r) h), w)).
Proof.
  intros faker_state fake_gen re_sub cfg r Hre Hact Htag. split_and!.
  - intros Hnull depth d key value w out w' Hnd Hin Hk Hrun.
    eapply anonymize_json_stores; [done..| |done].
    intros d0 w1 d1 w2 _.
    rewrite (json_field_ruled _ _ _ _ _ r); [|done].
    rewrite json_rule_literal; [|done..].
    intros [= <- _]. apply dict_get_set_eq.
  - intros header line out i f Hw Hi Hk.
    change (get_placeholder r) with (cell_str (Some (get_placeholder r))).
    eapply csv_written_cell; [done..|].
    eapply csv_field_stores; [done|]. intros w. exists w.
    by apply csv_rule_literal.
  - intros. by apply xml_element_literal.
Qed.

(** X4 at the rule [{}]. *)
Lemma literal_placeholder_replaces_witness :
  get_regex (Rule None None None) = None
  ∧ get_action (Rule None None None) = "replace"
  ∧ not_fake_tag (get_placeholder (Rule None None None)) = true
  ∧ ∃ d', JDict [("pin", JStr "")] = JDict d'
          ∧ dict_get "pin" d' = Some (JStr "").
Proof.
  split; [reflexivity|]. split; [reflexivity|]. split; [reflexivity|].
  refine (proj1 (literal_placeholder_replaces nat fake_det Re.sub
                   [("pin", Rule None None None)] (Rule None None None)
                   eq_refl eq_refl eq_refl)
            _ room [("pin", JList [JInt 1; JInt 2])] "pin"
            (JList [JInt 1; JInt 2])
            w0 (JDict [("pin", JStr "")]) w0 _ _ eq_refl ltac:(by vm_compute)).
  - discriminate.
  - apply (bool_decide_eq_true_1 _). by vm_compute.
  - left.
Defined.

(** X5: when the regex engine rejects the regex of a rule, the value is
    kept and the error is logged; nothing is raised.  The JSON object
    returned holds the original string and the log holds the record; the
    CSV cell is written as read; the XML step keeps the store.  In the XML
    adapter the engine is only asked for an element whose text is not
    empty: an element without text is left alone and nothing is logged,
    whatever the regex. *)
Theorem rejected_regex_keeps_value :
  ∀ (faker_state : Type)
    (fake_gen : category → faker_state → string * faker_state)
    (re_sub : string → string → string → re_result)
    (cfg : config) (r : rule) (regex : string),
    get_regex r = Some regex →
    (∀ s err,
       re_sub regex (get_placeholder r) s = ReError err →
       (∀ depth d key (w : @world faker_state) out w',
          NoDup d.*1 → (key, JStr s) ∈ d → dict_get key cfg = Some r →
          anonymize_json fake_gen re_sub depth cfg (JDict d) w = (Ok out, w') →
          ∃ d', out = JDict d' ∧ dict_get key d' = Some (JStr s)
                ∧ (ERROR, "Invalid regex for field " +:+ key +:+ ": " +:+ err)
                    ∈ w_log w')
       ∧ (∀ field (w : @world faker_state),
            csv_rule fake_gen re_sub field r (Some s) w
            = (Ok (Some s),
               add_log w ERROR
                 ("Invalid regex for field " +:+ field +:+ ": " +:+ err)))
       ∧ (∀ (header line out : list string) (i : nat) (f : string),
            csv_written fake_gen re_sub cfg header line out →
            header !! i = Some f → dict_get f cfg = Some r →
            dict_reader_row header line !! f = Some (Some s) →
            out !! i = Some s)
       ∧ (∀ root path e (h : gmap nat node) (w : @world faker_state),
            text_of h e = Some s → s ≠ "" →
            xml_element fake_gen re_sub root path r e h w
            = (Ok h,
               add_log w ERROR
                 ("Invalid regex for element " +:+ path +:+ ": " +:+ err))))
    ∧ (∀ root path e (h : gmap nat node) (w : @world faker_state),
         text_of h e = None ∨ text_of h e = Some "" →
         xml_element fake_gen re_sub root path r e h w = (Ok h, w)).
Proof.
  intros faker_state fake_gen re_sub cfg r regex Hre. split.
  - intros s err Herr. split_and!.
    + intros depth d key w out w' Hnd Hin Hk Hrun.
      eapply anonymize_json_keeps; [done..| |done].
      intros d0 w1. rewrite (json_field_ruled _ _ _ _ _ r); [|done].
      by eapply json_rule_regex_error.
    + intros. by eapply csv_rule_regex_error.
    + intros header line out i f Hw Hi Hk Hrow.
      change s with (cell_str (Some s)).
      eapply csv_written_cell; [done..|].
      eapply csv_field_stores; [done|]. intros w. eexists.
      rewrite Hrow. by eapply csv_rule_regex_error.
    + intros. by eapply xml_element_regex_error.
  - intros. by eapply xml_element_no_text.
Qed.

(** X5 at the rule [{"regex": "(", "placeholder": "#"}]. *)
Lemma rejected_regex_keeps_value_witness :
  get_regex (Rule None (Some "#") (Some "(")) = Some "("
  ∧ Re.sub "(" "#" "abc" = ReError "unsupported or malformed pattern"
  ∧ csv_rule fake_det Re.sub "f" (Rule None (Some "#") (Some "(")) (Some "abc") w0
    = (Ok (Some "abc"),
       add_log w0 ERROR
         "Invalid regex for field f: unsupported or malformed pattern").
Proof.
  split; [reflexivity|]. split; [reflexivity|].
  apply (proj1 (proj2 (proj1 (rejected_regex_keeps_value nat fake_det Re.sub []
                   (Rule None (Some "#") (Some "(")) "(" eq_refl)
                 "abc" "unsupported or malformed pattern" eq_refl))).
Defined.

(** X6: the XML adapter changes nothing of an element but its text and
    its list of children, and it only takes children away: after the loop
    over the rules the store has the same elements, each with its tag, its
    attributes and its tail, and with children that are a sublist, in
    order, of those it had. *)
Theorem xml_shell_kept :
  ∀ (faker_state : Type)
    (fake_gen : category → faker_state → string * faker_state)
    (re_sub : string → string → string → re_result)
    (findall : gmap nat node → elem_ref → string → result (list elem_ref))
    (root : elem_ref) (cfg : config) (h h' : gmap nat node)
    (w w' : @world faker_state),
    for_each (xml_rule fake_gen re_sub findall root) cfg h w = (Ok h', w') →
    shell_preserved h h'.
Proof.
  intros faker_state fake_gen re_sub findall root cfg h h' w w'.
  apply for_each_xml_rule_shell.
Qed.

(** X6 on the sample document: the rule [a] removes, the rule [b] sets
    the text. *)
Lemma xml_shell_kept_witness :
  ∃ h' w',
    for_each (xml_rule fake_det Re.sub findall_frag 0)
      [("a", remove_rule); ("b", Rule None (Some "-") None)] sample_xml w0
    = (Ok h', w')
    ∧ shell_preserved sample_xml h'.
Proof.
  eexists _, _. split; [by vm_compute|].
  eapply (xml_shell_kept nat fake_det Re.sub findall_frag 0
            [("a", remove_rule); ("b", Rule None (Some "-") None)]
            sample_xml _ w0 _).
  by vm_compute.
Defined.

(** X7: the XML adapter opens the output file after the loop over the
    rules has run on the tree in memory.  When the input does not parse,
    when a step of the loop raises (a [findall] call, or the regex engine
    with another exception than [re.error]), or when the output cannot be
    opened, the file is left as it was.  When the loop returns, the file
    holds the whole transformed document if the write completes, and the
    adapter then returns normally; a write that fails after the file was
    opened leaves a partial document. *)
Theorem xml_output_written_last :
  ∀ (faker_state : Type)
    (fake_gen : category → faker_state → string * faker_state)
    (re_sub : string → string → string → re_result)
    (findall : gmap nat node → elem_ref → string → result (list elem_ref))
    (input_file : string) (src : xml_source) (cfg : config)
    (w w' : @world faker_state) (res : result unit),
    anonymize_xml fake_gen re_sub findall input_file src cfg w = (res, w') →
    (w_output w' = w_output w
     ∧ ((∃ e, xml_parse src = Raise e)
        ∨ (∃ h root e w1,
             xml_parse src = Ok (h, root)
             ∧ for_each (xml_rule fake_gen re_sub findall root) cfg h w
               = (Raise e, w1))
        ∨ ∃ e, xml_write src = OpenFails e))
    ∨ ∃ h root h' w1,
        xml_parse src = Ok (h, root)
        ∧ for_each (xml_rule fake_gen re_sub findall root) cfg h w = (Ok h', w1)
        ∧ ((xml_write src = Written ∧ res = Ok tt
            ∧ w' = World (w_faker w1) (w_log w1) (Some (XmlFile h' root)))
           ∨ ((∃ e, xml_write src = WriteFails e)
              ∧ w_output w' = Some PartialFile)).
Proof.
  intros faker_state fake_gen re_sub findall input_file src cfg w w' res.
  apply anonymize_xml_output.
Qed.

(** X7 on the sample document with an absolute path, which [findall]
    refuses: the rule [a] has already removed an element in memory when
    [findall] raises, the adapter logs the error and returns, and the
    output file is not touched. *)
Lemma xml_output_written_last_witness :
  ∃ w',
    anonymize_xml fake_det Re.sub findall_frag "in.xml"
      (XmlSource (Ok (sample_xml, 0)) Written)
      [("a", remove_rule); ("/r/b", remove_rule)] w0
    = (Ok tt, w')
    ∧ w_log w'
      = [(ERROR, "Error processing XML file: cannot use absolute path on element")]
    ∧ w_output w' = None.
Proof.
  eexists. split; [by vm_compute|]. split; [reflexivity|].
  destruct (xml_output_written_last nat fake_det Re.sub findall_frag "in.xml"
              (XmlSource (Ok (sample_xml, 0)) Written)
              [("a", remove_rule); ("/r/b", remove_rule)] w0 _ _
              ltac:(by vm_compute)) as [[Ho _]|(h & root & h' & w1 & Hp & Hloop & _)].
  - exact Ho.
  - injection Hp as <- <-. vm_compute in Hloop. discriminate Hloop.
Defined.

(** X8: [find_parent] returns [None] exactly when no element of the
    traversal from the root has the element among its children; an element
    it returns is in the traversal and has the element among its
    children. *)
Theorem find_parent_spec :
  ∀ (h : gmap nat node) (root e : elem_ref),
    (find_parent h root e = None ↔
     ∀ p, p ∈ iter h root → e ∉ children_of h p)
    ∧ (∀ parent, find_parent h root e = Some parent →
                 parent ∈ iter h root ∧ e ∈ children_of h parent).
Proof.
  intros h root e. split.
  - apply find_parent_None_iff.
  - intros parent. apply find_parent_Some_iter.
Qed.

(** X8 on the sample document: the parent of [c] is [a]. *)
Lemma find_parent_spec_witness :
  find_parent sample_xml 0 3 = Some 1
  ∧ 1 ∈ iter sample_xml 0 ∧ 3 ∈ children_of sample_xml 1.
Proof.
  split; [by vm_compute|].
  apply (proj2 (find_parent_spec sample_xml 0 3) 1). by vm_compute.
Defined.

(** X9: when [find_parent] finds a parent, the removal takes the element
    out of that parent's children (its first occurrence) and touches no
    other element; the removed element keeps its own node.  In a tree,
    where the element has one parent that lists it once, the element then
    has no parent left: removing it a second time is skipped with the
    warning. *)
Theorem removed_element_is_detached :
  ∀ (faker_state : Type)
    (fake_gen : category → faker_state → string * faker_state)
    (re_sub : string → string → string → re_result)
    (r : rule) (root : elem_ref) (path : string) (h : gmap nat node)
    (e parent : elem_ref) (w : @world faker_state),
    get_regex r = None → get_action r = "remove" →
    find_parent h root e = Some parent →
    xml_element fake_gen re_sub root path r e h w
    = (Ok (remove_child parent e h), w)
    ∧ children_of (remove_child parent e h) parent
      = list_remove e (children_of h parent)
    ∧ (∀ p, p ≠ parent → remove_child parent e h !! p = h !! p)
    ∧ (NoDup (children_of h parent) →
       (∀ p, e ∈ children_of h p → p = parent) →
       find_parent (remove_child parent e h) root e = None
       ∧ xml_element fake_gen re_sub root path r e (remove_child parent e h) w
         = (Ok (remove_child parent e h),
            add_log w WARNING
              ("Could not find parent of element " +:+ path
               +:+ ". Skipping removal."))).
Proof.
  intros faker_state fake_gen re_sub r root path h e parent w Hre Hact Hp.
  split_and!.
  - by apply xml_element_remove.
  - unfold children_of, remove_child, elem_ref. rewrite lookup_alter_eq.
    by match goal with |- context [_ <$> ?o] => destruct o end.
  - intros p Hne. unfold remove_child. by rewrite lookup_alter_ne.
  - intros Hnd Huniq.
    assert (Hgone : find_parent (remove_child parent e h) root e = None)
      by by apply remove_child_detaches.
    split; [done|]. by apply xml_element_remove_orphan.
Qed.

(** X9 on the sample document: [c] is removed from [a]. *)
Lemma removed_element_is_detached_witness :
  get_regex remove_rule = None ∧ get_action remove_rule = "remove"
  ∧ find_parent sample_xml 0 3 = Some 1
  ∧ children_of (remove_child 1 3 sample_xml) 1
    = list_remove 3 (children_of sample_xml 1)
  ∧ children_of (remove_child 1 3 sample_xml) 1 = []
  ∧ find_parent (remove_child 1 3 sample_xml) 0 3 = None.
Proof.
  split; [reflexivity|]. split; [reflexivity|].
  assert (Hp : find_parent sample_xml 0 3 = Some 1) by (by vm_compute).
  split; [exact Hp|]. split; [|by vm_compute].
  apply (removed_element_is_detached nat fake_det Re.sub remove_rule 0 ".//c"
           sample_xml 3 1 w0 eq_refl eq_refl Hp).
Defined.

(** X10: a CSV run that fails leaves a truncated output and returns.
    When reading the input raises after the header and some lines, with an
    engine that raises nothing but [re.error] on the regexes of the
    columns and a writer that accepts the header and the rows, the adapter
    logs the error and returns normally, and the output file holds the
    header and one row per record read before the failure.  When one of
    the two files cannot be opened, the error is logged, the adapter
    returns and the output file is left as it was.  Whatever fails in a
    run, the output file is left as it was, or empty, or holds the header
    and, in order, the rows of the first records of the input. *)
Theorem csv_failure_truncates :
  ∀ (faker_state : Type)
    (fake_gen : category → faker_state → string * faker_state)
    (re_sub : string → string → string → re_result)
    (cfg : config) (input_file : string) (detected : exn + option string)
    (write_error : list string → option exn)
    (e : exn) (w : @world faker_state),
    is_exception e = true →
    (∀ (header : list string) (rows : list (list string)) rest,
       (∀ f r, f ∈ header → dict_get f cfg = Some r → rule_safe re_sub r) →
       (∀ cells, write_error cells = None) →
       ∃ outs w1,
         anonymize_csv fake_gen re_sub input_file
           (CsvSource detected None
              (Ok header :: (Ok <$> rows) ++ Raise e :: rest) write_error) cfg w
         = (Ok tt, add_log w1 ERROR (csv_failure_message input_file e))
         ∧ w_output w1 = Some (CsvFile (header :: outs))
         ∧ Forall2 (csv_written fake_gen re_sub cfg header)
             (csv_records rows) outs)
    ∧ (∀ lines,
         ∃ w1,
           anonymize_csv fake_gen re_sub input_file
             (CsvSource detected (Some e) lines write_error) cfg w
           = (Ok tt, add_log w1 ERROR (csv_failure_message input_file e))
           ∧ w_output w1 = w_output w)
    ∧ (∀ src res w',
         anonymize_csv fake_gen re_sub input_file src cfg w = (res, w') →
         (is_Some (csv_open src) ∧ w_output w' = w_output w)
         ∨ w_output w' = Some (CsvFile [])
         ∨ ∃ header rest recs outs,
             csv_lines src = Ok header :: rest
             ∧ w_output w' = Some (CsvFile (header :: outs))
             ∧ recs `prefix_of` csv_records (readable rest)
             ∧ Forall2 (csv_written fake_gen re_sub cfg header) recs outs).
Proof.
  intros faker_state fake_gen re_sub cfg input_file detected write_error e w He.
  split_and!.
  - intros header rows rest Hsafe Hacc. by apply anonymize_csv_truncates.
  - intros lines.
    destruct (anonymize_csv_unfold fake_gen re_sub input_file
                (CsvSource detected (Some e) lines write_error) cfg w)
      as (w1 & _ & Ho & _ & ->).
    unfold anonymize_csv_body. cbn [csv_open]. unfold raise. rewrite He.
    by exists w1.
  - intros src res w' Hrun.
    destruct (anonymize_csv_prefix _ _ _ _ _ _ _ _ Hrun)
      as [_ [?|[_ [?|?]]]]; [by left|by right; left|by right; right].
Qed.

(** X10 on a file whose third line cannot be decoded. *)
Lemma csv_failure_truncates_witness :
  is_exception (UnicodeError "'utf-8' codec can't decode byte 0xff") = true
  ∧ ∃ w',
      anonymize_csv fake_det Re.sub "in.csv"
        (CsvSource (inr (Some "utf-8")) None
           [Ok ["id"; "email"]; Ok ["1"; "a@b.com"];
            Raise (UnicodeError "'utf-8' codec can't decode byte 0xff");
            Ok ["3"; "c@d.com"]] any_row)
        [("email", remove_rule)] w0
      = (Ok tt, w')
      ∧ w_output w' = Some (CsvFile [["id"; "email"]; ["1"; ""]]).
Proof.
  split; [reflexivity|].
  destruct (proj1 (csv_failure_truncates nat fake_det Re.sub
                     [("email", remove_rule)] "in.csv" (inr (Some "utf-8"))
                     any_row
                     (UnicodeError "'utf-8' codec can't decode byte 0xff") w0
                     eq_refl)
              ["id"; "email"] [["1"; "a@b.com"]] [Ok ["3"; "c@d.com"]])
    as (outs & w1 & Hrun & Ho & _).
  - intros f r _ Hk regex s e Hre. apply dict_get_elem in Hk.
    apply elem_of_cons in Hk as [Hk|Hk]; [by simplify_eq|].
    by apply elem_of_nil in Hk.
  - done.
  - eexists. split; [exact Hrun|].
    cbn [add_log w_output]. vm_compute in Hrun.
    injection Hrun as _ _ Hout. symmetry. exact Hout.
Defined.




(** X12: when the file given with [--config] does not load, [main] ends
    with status 1 before it looks at the input, and no output is written,
    whatever the format and the input.  A missing file and a text that
    [json.load] rejects with [JSONDecodeError] are logged by [load_config];
    a file that holds [null] gives no log record; any other exception of
    [open] or [json.load] (as [PermissionError] or [UnicodeDecodeError])
    is not handled: it leaves [load_config] and [main], nothing is
    logged. *)
Theorem config_failure_exits_one :
  ∀ (faker_state : Type)
    (fake_gen : category → faker_state → string * faker_state)
    (re_sub : string → string → string → re_result)
    (findall : gmap nat node → elem_ref → string → result (list elem_ref))
    (i : invocation) (path : string) (w : @world faker_state),
    arg_config i = Some path → path ≠ "" →
    (fs_config i = ConfigNotFound →
     main fake_gen re_sub findall i w
     = (Raise (SystemExit 1),
        add_log w ERROR ("Configuration file not found: " +:+ path)))
    ∧ (fs_config i = ConfigInvalidJson →
       main fake_gen re_sub findall i w
       = (Raise (SystemExit 1),
          add_log w ERROR
            ("Invalid JSON format in configuration file: " +:+ path)))
    ∧ (fs_config i = ConfigNull →
       main fake_gen re_sub findall i w = (Raise (SystemExit 1), w))
    ∧ (∀ e, fs_config i = ConfigUnreadable e →
            main fake_gen re_sub findall i w = (Raise e, w)
            ∧ (is_exception e = true →
               exit_status (main fake_gen re_sub findall i w).1 = 1%nat)).
Proof.
  intros faker_state fake_gen re_sub findall i path w Hc Hp.
  destruct (main_config_failure fake_gen re_sub findall i path w Hc Hp)
    as (H1 & H2 & H3 & H4).
  split_and!; [done..|].
  intros e He. rewrite (H4 e He). split; [done|]. by destruct e.
Qed.

Lemma config_failure_exits_one_witness :
  main fake_det Re.sub findall_frag
    (Invocation "in" "out" FormatCsv (Some "rules.json") ConfigNotFound true
       no_json no_csv no_xml room) w0
  = (Raise (SystemExit 1),
     add_log w0 ERROR "Configuration file not found: rules.json").
Proof.
  apply (proj1 (config_failure_exits_one nat fake_det Re.sub findall_frag
                  (Invocation "in" "out" FormatCsv (Some "rules.json")
                     ConfigNotFound true no_json no_csv no_xml room)
                  "rules.json" w0 eq_refl ltac:(discriminate))).
  reflexivity.
Defined.

(** X13: once the configuration stage is passed (no usable [--config]
    option, or a file that loads), an input file that does not exist makes
    [main] log the error and exit with status 1, for every format, without
    writing output. *)
Theorem missing_input_exits_one :
  ∀ (faker_state : Type)
    (fake_gen : category → faker_state → string * faker_state)
    (re_sub : string → string → string → re_result)
    (findall : gmap nat node → elem_ref → string → result (list elem_ref))
    (i : invocation) (oc : option config) (w : @world faker_state),
    config_stage i oc → fs_input_exists i = false →
    main fake_gen re_sub findall i w
    = (Raise (SystemExit 1),
       add_log w ERROR ("Input file does not exist: " +:+ arg_input_file i)).
Proof.
  intros faker_state fake_gen re_sub findall i oc w.
  apply main_input_missing.
Qed.

Lemma missing_input_exits_one_witness :
  main fake_det Re.sub findall_frag
    (Invocation "in" "out" FormatXml None ConfigNotFound false
       no_json no_csv no_xml room) w0
  = (Raise (SystemExit 1), add_log w0 ERROR "Input file does not exist: in").
Proof.
  apply (missing_input_exits_one nat fake_det Re.sub findall_frag
           (Invocation "in" "out" FormatXml None ConfigNotFound false
              no_json no_csv no_xml room) None w0).
  - left. by split.
  - reflexivity.
Defined.

(** X14: without a configuration ([--config] absent or empty) and with an
    existing input, [main] exits with status 1 for every format and writes
    nothing.  For CSV and XML the only record logged says that the
    configuration is required, and the input is not read.  For JSON the
    document is loaded first: the same record is logged when it loads, and
    the decoding error instead when it does not. *)
Theorem configuration_is_required :
  ∀ (faker_state : Type)
    (fake_gen : category → faker_state → string * faker_state)
    (re_sub : string → string → string → re_result)
    (findall : gmap nat node → elem_ref → string → result (list elem_ref))
    (i : invocation) (w : @world faker_state),
    config_stage i None → fs_input_exists i = true →
    (arg_format i = FormatCsv →
     main fake_gen re_sub findall i w
     = (Raise (SystemExit 1),
        add_log w ERROR "Configuration file is required for CSV anonymization."))
    ∧ (arg_format i = FormatXml →
       main fake_gen re_sub findall i w
       = (Raise (SystemExit 1),
          add_log w ERROR "Configuration file is required for XML anonymization."))
    ∧ (arg_format i = FormatJson →
       ∀ data, json_load (fs_json i) = Ok data →
       main fake_gen re_sub findall i w
       = (Raise (SystemExit 1),
          add_log w ERROR "Configuration file is required for JSON anonymization."))
    ∧ (arg_format i = FormatJson →
       ∀ msg, json_load (fs_json i) = Raise (JSONDecodeError msg) →
       main fake_gen re_sub findall i w
       = (Raise (SystemExit 1),
          add_log w ERROR ("Error decoding JSON file: " +:+ msg))).
Proof.
  intros faker_state fake_gen re_sub findall i w.
  apply main_without_config.
Qed.

Lemma configuration_is_required_witness :
  main fake_det Re.sub findall_frag
    (Invocation "in" "out" FormatJson None ConfigNotFound true
       (JsonSource (Ok (JInt 1)) Written) no_csv no_xml room) w0
  = (Raise (SystemExit 1),
     add_log w0 ERROR "Configuration file is required for JSON anonymization.").
Proof.
  refine (proj1 (proj2 (proj2
            (configuration_is_required nat fake_det Re.sub findall_frag
               (Invocation "in" "out" FormatJson None ConfigNotFound true
                  (JsonSource (Ok (JInt 1)) Written) no_csv no_xml room)
               w0 _ eq_refl)))
            eq_refl (JInt 1) eq_refl).
  left. by split.
Defined.

(** X15: in the JSON branch of [main], with a configuration and a
    document that loads.  When the adapter returns and the write
    completes, the file written is exactly the document the adapter
    returned, the success is logged and [main] returns (status 0).  When
    the adapter raises an exception, whichever it is, [main] logs
    ["An error occurred: "] followed by its text and exits with status 1,
    and the output file is left as it was; the same when the output file
    cannot be opened.  When the write fails after the file was opened,
    [main] logs the error and exits with status 1, and the file holds a
    partial document. *)
Theorem json_run_outcome :
  ∀ (faker_state : Type)
    (fake_gen : category → faker_state → string * faker_state)
    (re_sub : string → string → string → re_result)
    (findall : gmap nat node → elem_ref → string → result (list elem_ref))
    (i : invocation) (cfg : config) (data : json) (w : @world faker_state),
    config_stage i (Some cfg) → fs_input_exists i = true →
    arg_format i = FormatJson → json_load (fs_json i) = Ok data →
    (∀ out w1,
       anonymize_json fake_gen re_sub (stack_room i) cfg data w = (Ok out, w1) →
       (json_write (fs_json i) = Written →
        main fake_gen re_sub findall i w
        = (Ok tt,
           World (w_faker w1)
             (w_log w1 ++ [(INFO, "JSON data anonymized and saved to "
                                  +:+ arg_output_file i)])
             (Some (JsonFile out))))
       ∧ (∀ e, json_write (fs_json i) = OpenFails e → is_exception e = true →
               main fake_gen re_sub findall i w
               = (Raise (SystemExit 1),
                  add_log w1 ERROR ("An error occurred: " +:+ exn_str e))
               ∧ w_output w1 = w_output w)
       ∧ (∀ e, json_write (fs_json i) = WriteFails e → is_exception e = true →
               main fake_gen re_sub findall i w
               = (Raise (SystemExit 1),
                  World (w_faker w1)
                    (w_log w1 ++ [(ERROR, "An error occurred: " +:+ exn_str e)])
                    (Some PartialFile))))
    ∧ (∀ e w1,
         anonymize_json fake_gen re_sub (stack_room i) cfg data w = (Raise e, w1) →
         is_exception e = true →
         main fake_gen re_sub findall i w
         = (Raise (SystemExit 1),
            add_log w1 ERROR ("An error occurred: " +:+ exn_str e))
         ∧ w_output w1 = w_output w).
Proof.
  intros faker_state fake_gen re_sub findall i cfg data w.
  apply main_json_outcome.
Qed.

(** X15 on the first scenario of the specification. *)
Lemma json_run_outcome_witness :
  main fake_det Re.sub findall_frag
    (invoke FormatJson [("code", digits_rule)]
       (JsonSource (Ok (JDict [("code", JStr "abc123")])) Written) no_csv no_xml)
    w0
  = (Ok tt,
     World 0 [(INFO, "JSON data anonymized and saved to out")]
       (Some (JsonFile (JDict [("code", JStr "abc#")])))).
Proof.
  refine (proj1 (proj1 (json_run_outcome nat fake_det Re.sub findall_frag
            (invoke FormatJson [("code", digits_rule)]
               (JsonSource (Ok (JDict [("code", JStr "abc123")])) Written)
               no_csv no_xml)
            [("code", digits_rule)] (JDict [("code", JStr "abc123")]) w0
            _ eq_refl eq_refl eq_refl)
            (JDict [("code", JStr "abc#")]) w0 ltac:(by vm_compute)) eq_refl).
  right; right. exists "rules.json", [("code", digits_rule)].
  by split_and!.
Defined.

(** ** The provider is asked for provider tags only *)

Section ProviderFrame.

Context {faker_state : Type}.
Context (fake_gen : category → faker_state → string * faker_state).
Context (re_sub : string → string → string → re_result).
Context (findall : gmap nat node → elem_ref → string → result (list elem_ref)).

Local Abbreviation M := (@M faker_state).
Local Abbreviation keeps_faker := (@keeps_faker faker_state _).

Lemma keeps_faker_ret {A : Type} (a : A) : keeps_faker (ret a).
Proof. by intros w res w' [= _ <-]. Qed.

Lemma keeps_faker_raise {A : Type} (e : exn) : keeps_faker (raise (A:=A) e).
Proof. by intros w res w' [= _ <-]. Qed.

Lemma keeps_faker_logging l msg : keeps_faker (logging l msg).
Proof. by intros w res w' [= _ <-]. Qed.

Lemma keeps_faker_write_file c : keeps_faker (write_file c).
Proof. by intros w res w' [= _ <-]. Qed.

Lemma keeps_faker_writer_writerow write_error cells :
  keeps_faker (writer_writerow write_error cells).
Proof.
  unfold writer_writerow. destruct (write_error cells).
  - by intros w res w' [= _ <-].
  - by intros w res w' [= _ <-].
Qed.

Lemma keeps_faker_bind {A B : Type} (m : M A) (k : A → M B) :
  keeps_faker m → (∀ a, keeps_faker (k a)) → keeps_faker (bind m k).
Proof.
  intros Hm Hk w res w'. unfold bind.
  destruct (m w) as [[a|e] w1] eqn:E.
  - intros H. rewrite (Hk _ _ _ _ H). by eapply Hm.
  - intros [= _ <-]. by eapply Hm.
Qed.

Lemma keeps_faker_try_except {A : Type} (m : M A) (handler : exn → M A) :
  keeps_faker m → (∀ e, keeps_faker (handler e)) →
  keeps_faker (try_except m handler).
Proof.
  intros Hm Hh w res w'. unfold try_except.
  destruct (m w) as [[a|e] w1] eqn:E.
  - intros [= _ <-]. by eapply Hm.
  - destruct (is_exception e).
    + intros H. rewrite (Hh _ _ _ _ H). by eapply Hm.
    + intros [= _ <-]. by eapply Hm.
Qed.

Lemma keeps_faker_for_each {A S : Type} (body : A → S → M S) (items : list A) :
  (∀ x s, x ∈ items → keeps_faker (body x s)) →
  ∀ s, keeps_faker (for_each body items s).
Proof.
  induction items as [|x l IH]; simpl; intros Hb s.
  - apply keeps_faker_ret.
  - apply keeps_faker_bind; [apply Hb; left|].
    intros s'. apply IH. intros y t Hy. apply Hb. by right.
Qed.

Lemma keeps_faker_list_comp {A B : Type} (f : A → M B) (items : list A) :
  Forall (λ x, keeps_faker (f x)) items → keeps_faker (list_comp f items).
Proof.
  induction 1 as [|x l Hx Hl IH]; simpl.
  - apply keeps_faker_ret.
  - apply keeps_faker_bind; [done|]. intros y.
    apply keeps_faker_bind; [done|]. intros ys. apply keeps_faker_ret.
Qed.

Lemma keeps_faker_for_items body used items data :
  (∀ k v d, (k, v) ∈ items → keeps_faker (body k v d)) →
  keeps_faker (for_items (faker_state:=faker_state) body used items data).
Proof.
  revert data. induction items as [|[k v] l IH]; simpl; intros data Hb.
  - case_match; [apply keeps_faker_raise | apply keeps_faker_ret].
  - case_match; [apply keeps_faker_raise|].
    apply keeps_faker_bind; [apply Hb; left|].
    intros d'. apply IH. intros k' v' d'' Hin. apply Hb. by right.
Qed.

Lemma draws_false (r : rule) :
  draws r = false → get_regex r = None → get_action r = "replace" →
  not_fake_tag (get_placeholder r) = true.
Proof.
  unfold draws. intros Hd Hre Hact. rewrite Hre, Hact in Hd. simpl in Hd.
  by destruct (not_fake_tag (get_placeholder r)).
Qed.

Ltac keeps_faker_step :=
  repeat first
    [ apply keeps_faker_ret
    | apply keeps_faker_raise
    | apply keeps_faker_logging
    | apply keeps_faker_bind; [|intros] ].

Lemma keeps_faker_json_rule key r value data :
  draws r = false → keeps_faker (json_rule fake_gen re_sub key r value data).
Proof.
  intros Hd. unfold json_rule.
  destruct (get_regex r) as [regex|] eqn:Hre.
  - destruct value; try destruct (re_sub _ _ _); keeps_faker_step.
  - destruct (String.eqb (get_action r) "replace") eqn:Hact.
    + apply String.eqb_eq in Hact.
      destruct (not_fake_tag_inv _ (draws_false r Hd Hre Hact))
        as (H1 & H2 & H3 & H4 & H5).
      unfold json_replacement. rewrite H1, H2, H3, H4, H5.
      case_match; keeps_faker_step.
    + case_match; keeps_faker_step.
Qed.

Lemma keeps_faker_csv_rule field r value :
  draws r = false → keeps_faker (csv_rule fake_gen re_sub field r value).
Proof.
  intros Hd. unfold csv_rule.
  destruct (get_regex r) as [regex|] eqn:Hre.
  - destruct value; try destruct (re_sub _ _ _); keeps_faker_step.
  - destruct (String.eqb (get_action r) "replace") eqn:Hact.
    + apply String.eqb_eq in Hact.
      destruct (not_fake_tag_inv _ (draws_false r Hd Hre Hact))
        as (H1 & H2 & H3 & H4 & H5).
      unfold csv_replacement. rewrite H1, H2, H3, H4, H5.
      apply keeps_faker_ret.
    + case_match; keeps_faker_step.
Qed.

Lemma keeps_faker_xml_element root path r e (h : gmap nat node) :
  draws r = false →
  keeps_faker (xml_element fake_gen re_sub root path r e h).
Proof.
  intros Hd. unfold xml_element.
  destruct (get_regex r) as [regex|] eqn:Hre.
  - repeat case_match; keeps_faker_step.
  - destruct (String.eqb (get_action r) "replace") eqn:Hact.
    + apply String.eqb_eq in Hact.
      destruct (not_fake_tag_inv _ (draws_false r Hd Hre Hact))
        as (H1 & H2 & H3 & H4 & H5).
      unfold xml_replacement. rewrite H1, H2, H3, H4, H5.
      keeps_faker_step.
    + repeat case_match; keeps_faker_step.
Qed.

Lemma keeps_faker_json_field cfg (self : json → M json) key value data :
  Forall (λ kr, draws kr.2 = false) cfg →
  (∀ v, keeps_faker (self v)) →
  keeps_faker (json_field fake_gen re_sub cfg self key value data).
Proof.
  intros Hcfg Hself. rewrite Forall_forall in Hcfg. unfold json_field.
  destruct (dict_get key cfg) as [r|] eqn:Hk.
  { apply keeps_faker_json_rule. by apply (Hcfg (key, r)), dict_get_elem. }
  destruct value; try apply keeps_faker_ret.
  - apply keeps_faker_bind; [|intros; apply keeps_faker_ret].
    apply keeps_faker_list_comp, Forall_forall. intros; apply Hself.
  - apply keeps_faker_bind; [apply Hself|intros; apply keeps_faker_ret].
Qed.

Lemma keeps_faker_anonymize_json depth cfg (data : json) :
  Forall (λ kr, draws kr.2 = false) cfg →
  keeps_faker (anonymize_json fake_gen re_sub depth cfg data).
Proof.
  intros Hcfg. revert data. induction depth as [|depth IH]; intros data; simpl.
  - apply keeps_faker_raise.
  - destruct data; try apply keeps_faker_ret.
    + apply keeps_faker_bind; [|intros; apply keeps_faker_ret].
      apply keeps_faker_list_comp, Forall_forall. intros; apply IH.
    + apply keeps_faker_bind; [|intros; apply keeps_faker_ret].
      apply keeps_faker_for_items. intros k v d' Hin.
      by apply keeps_faker_json_field.
Qed.

Lemma keeps_faker_csv_rows write_error cfg fieldnames lines :
  Forall (λ kr, draws kr.2 = false) cfg →
  keeps_faker (csv_rows fake_gen re_sub write_error cfg fieldnames lines).
Proof.
  intros Hcfg. rewrite Forall_forall in Hcfg.
  assert (Hrow : ∀ row, keeps_faker
                          (csv_row fake_gen re_sub write_error cfg fieldnames row)).
  { intros row. unfold csv_row. apply keeps_faker_bind.
    - apply keeps_faker_for_each. intros f acc _. unfold csv_field.
      destruct (dict_get f cfg) as [r|] eqn:Hk.
      + apply keeps_faker_bind; [|intros; apply keeps_faker_ret].
        apply keeps_faker_csv_rule. by apply (Hcfg (f, r)), dict_get_elem.
      + case_match; [apply keeps_faker_ret|apply keeps_faker_raise].
    - intros m. unfold dict_writer_writerow.
      case_match; [apply keeps_faker_writer_writerow|apply keeps_faker_raise]. }
  induction lines as [|[line|e] rest IH]; simpl.
  - apply keeps_faker_ret.
  - destruct line as [|c line]; [done|].
    apply keeps_faker_bind; [apply Hrow|]. by intros _.
  - apply keeps_faker_raise.
Qed.

Lemma keeps_faker_anonymize_csv input_file src cfg :
  Forall (λ kr, draws kr.2 = false) cfg →
  keeps_faker (anonymize_csv fake_gen re_sub input_file src cfg).
Proof.
  intros Hcfg. unfold anonymize_csv.
  apply keeps_faker_bind.
  { unfold detect_encoding. case_match; keeps_faker_step. }
  intros enc. apply keeps_faker_bind.
  { case_match; [apply keeps_faker_ret|apply keeps_faker_logging]. }
  intros _. apply keeps_faker_try_except.
  - unfold anonymize_csv_body.
    destruct (csv_open src); [apply keeps_faker_raise|].
    apply keeps_faker_bind; [apply keeps_faker_write_file|]. intros _.
    destruct (csv_lines src) as [|[header|e] rest];
      [apply keeps_faker_raise| |apply keeps_faker_raise].
    apply keeps_faker_bind; [|intros _; by apply keeps_faker_csv_rows].
    unfold dict_writer_writerow.
    case_match; [apply keeps_faker_writer_writerow|apply keeps_faker_raise].
  - intros e. destruct e; apply keeps_faker_logging.
Qed.

Lemma keeps_faker_anonymize_xml input_file src cfg :
  Forall (λ kr, draws kr.2 = false) cfg →
  keeps_faker (anonymize_xml fake_gen re_sub findall input_file src cfg).
Proof.
  intros Hcfg. rewrite Forall_forall in Hcfg. unfold anonymize_xml.
  apply keeps_faker_try_except.
  - unfold anonymize_xml_body.
    destruct (xml_parse src) as [[h root]|e]; [|apply keeps_faker_raise].
    apply keeps_faker_bind.
    + apply keeps_faker_for_each. intros [path r] h0 Hin. unfold xml_rule.
      destruct (findall h0 root path); [|apply keeps_faker_raise].
      apply keeps_faker_for_each. intros el h1 _.
      apply keeps_faker_xml_element. by apply (Hcfg (path, r)).
    + intros h'. destruct (xml_write src);
        [apply keeps_faker_write_file|apply keeps_faker_raise|].
      apply keeps_faker_bind; [apply keeps_faker_write_file|].
      intros _. apply keeps_faker_raise.
  - intros e. destruct e; apply keeps_faker_logging.
Qed.

End ProviderFrame.

(** X16: the provider is asked for provider tags only.  Under a rule set
    none of whose rules has, without regex and with the action [replace], a
    placeholder that is one of the five provider tags, a run of any of the
    three adapters leaves the provider in the state it found it in,
    whatever the document and whether the run returns or raises. *)
Theorem provider_untouched_without_tags :
  ∀ (faker_state : Type)
    (fake_gen : category → faker_state → string * faker_state)
    (re_sub : string → string → string → re_result)
    (findall : gmap nat node → elem_ref → string → result (list elem_ref))
    (cfg : config),
    Forall (λ kr, draws kr.2 = false) cfg →
    (∀ depth data (w : @world faker_state) res w',
       anonymize_json fake_gen re_sub depth cfg data w = (res, w') →
       w_faker w' = w_faker w)
    ∧ (∀ input_file src (w : @world faker_state) res w',
         anonymize_csv fake_gen re_sub input_file src cfg w = (res, w') →
         w_faker w' = w_faker w)
    ∧ (∀ input_file src (w : @world faker_state) res w',
         anonymize_xml fake_gen re_sub findall input_file src cfg w = (res, w') →
         w_faker w' = w_faker w).
Proof.
  intros faker_state fake_gen re_sub findall cfg Hcfg. split_and!.
  - intros depth data. by apply keeps_faker_anonymize_json.
  - intros input_file src. by apply keeps_faker_anonymize_csv.
  - intros input_file src. by apply keeps_faker_anonymize_xml.
Qed.

(** X16 under a regex rule that names a provider tag as its replacement
    text, a removal and a literal. *)
Lemma provider_untouched_without_tags_witness :
  ∃ res w',
    anonymize_json fake_det Re.sub room
      [("code", Rule None (Some "fake.name") (Some "\d+"));
       ("a", remove_rule); ("b", Rule None (Some "-") None)]
      (JDict [("code", JStr "abc123"); ("b", JInt 1)]) w0 = (res, w')
    ∧ w_faker w' = w_faker w0.
Proof.
  eexists _, _. split; [by vm_compute|].
  eapply (proj1 (provider_untouched_without_tags nat fake_det Re.sub findall_frag
                   [("code", Rule None (Some "fake.name") (Some "\d+"));
                    ("a", remove_rule); ("b", Rule None (Some "-") None)]
                   ltac:(by repeat constructor))
            room (JDict [("code", JStr "abc123"); ("b", JInt 1)]) w0).
  by vm_compute.
Defined.
